(** * Gaussian FCHK codec (iodata/formats/fchk.py): shallow embedding

    The development follows the layout of the Python module:
    the labelled-field reader and store, the numeric helpers, the
    single-frame assembler [load_one], the trajectory extractor
    [load_many] and the serializer's helpers.

    Conventions of the embedding.
    - Python exceptions are values of [exn]; a computation that may raise
      has type [result A].
    - The line iterator is the list of the lines that are still unread;
      [next(lit)] pops the head and raises [StopIteration] on [[]].
      [lit.error(msg)] raises [LitError msg]; the file position that the
      message carries is left out.
    - Text is ASCII: a character is an [ascii], and white space is what
      [str.isspace] accepts in that range.
    - numpy's float64 and Python's float are the kernel's binary64
      numbers ([float]); reading a decimal token ([float(w)]) is a
      parameter of the reader.
    - [fnmatch] is a parameter of the reader; [glob] below implements the
      [*] and [?] wildcards for the concrete examples.
    - numpy's int64 is [Z] with the wrap-around written out where the
      module computes on it; exhaustion of memory is not modelled, and
      [assert] statements are executed.  An array length that numpy
      cannot address (its 8-byte items would take 2^63 bytes or more) is
      the ValueError of [np.zeros].
    - A generator run to its end is the list of the values it yielded
      and the way it stopped; a [StopIteration] that leaves the body of
      the generator [load_many] is the RuntimeError that Python puts in
      its place. *)

From Stdlib Require Import ZArith List String Ascii Lia Bool Reals Lra Floats.
From stdpp Require Import base option list strings gmap.

Local Open Scope string_scope.
Local Open Scope list_scope.
Local Open Scope Z_scope.

(** ** Exceptions and the error monad *)

Inductive exn : Type :=
| StopIteration
| RuntimeError                     (* a [StopIteration] leaving a generator *)
| LitError (msg : string)          (* raised by [lit.error(msg)] *)
| ValueError
| KeyError (key : string)
| IndexError
| TypeError
| AttributeError
| AssertionError
| UnboundLocalError (name : string)
| Unsupported (what : string).
(** [Unsupported] is not an exception of the program.  It marks an input
    to which the embedding gives no meaning: a field whose kind (scalar
    or array, integer or real) is not the one the format prescribes and
    on which Python's dynamic typing would take a path that is not
    modelled.  No statement below concludes with it. *)

Inductive result (A : Type) : Type :=
| Ok (a : A)
| Raise (e : exn).
Arguments Ok {A} a.
Arguments Raise {A} e.

#[global] Instance result_ret : MRet result := fun A a => Ok a.
#[global] Instance result_bind : MBind result := fun A B f m =>
  match m with
  | Ok a => f a
  | Raise e => Raise e
  end.

Definition is_ok {A} (r : result A) : bool :=
  match r with Ok _ => true | Raise _ => false end.

(** [lit.error] and the exception kinds of the specification: a parse
    error is whatever [lit.error] raises. *)
Definition is_lit_error (e : exn) : bool :=
  match e with LitError _ => true | _ => false end.

(** ** Python text primitives *)

Module Py.

(** [str.isspace] on the ASCII range. *)
Definition is_space (c : ascii) : bool :=
  let n := nat_of_ascii c in
  ((9 <=? n)%nat && (n <=? 13)%nat) || ((28 <=? n)%nat && (n <=? 32)%nat).

Fixpoint lstrip (s : list ascii) : list ascii :=
  match s with
  | c :: s' => if is_space c then lstrip s' else s
  | [] => []
  end.

Definition strip_chars (s : list ascii) : list ascii :=
  rev (lstrip (rev (lstrip s))).

(** [s.strip()] *)
Definition strip (s : string) : string :=
  string_of_list_ascii (strip_chars (list_ascii_of_string s)).

(** [s.split()]: maximal runs of non-space characters.  [cur] holds the
    current run, reversed. *)
Fixpoint split_chars (cur : list ascii) (s : list ascii) : list (list ascii) :=
  match s with
  | [] => match cur with [] => [] | _ => [rev cur] end
  | c :: s' =>
      if is_space c
      then match cur with
           | [] => split_chars [] s'
           | _ => rev cur :: split_chars [] s'
           end
      else split_chars (c :: cur) s'
  end.

Definition split (s : string) : list string :=
  map string_of_list_ascii (split_chars [] (list_ascii_of_string s)).

(** [s[:n]] and [s[n:]] for a non-negative literal [n]. *)
Definition prefix (n : nat) (s : string) : string :=
  string_of_list_ascii (take n (list_ascii_of_string s)).
Definition suffix (n : nat) (s : string) : string :=
  string_of_list_ascii (drop n (list_ascii_of_string s)).

Definition upper_char (c : ascii) : ascii :=
  let n := nat_of_ascii c in
  if (97 <=? n)%nat && (n <=? 122)%nat then ascii_of_nat (n - 32) else c.
Definition lower_char (c : ascii) : ascii :=
  let n := nat_of_ascii c in
  if (65 <=? n)%nat && (n <=? 90)%nat then ascii_of_nat (n + 32) else c.

(** [s.upper()] and [s.lower()] on ASCII text. *)
Definition upper (s : string) : string :=
  string_of_list_ascii (map upper_char (list_ascii_of_string s)).
Definition lower (s : string) : string :=
  string_of_list_ascii (map lower_char (list_ascii_of_string s)).

Fixpoint is_prefix_chars (p s : list ascii) : bool :=
  match p, s with
  | [], _ => true
  | a :: p', b :: s' => if Ascii.eqb a b then is_prefix_chars p' s' else false
  | _ :: _, [] => false
  end.

Fixpoint contains_chars (p s : list ascii) : bool :=
  is_prefix_chars p s ||
  match s with
  | [] => false
  | _ :: s' => contains_chars p s'
  end.

(** [p in s] for strings. *)
Definition contains (p s : string) : bool :=
  contains_chars (list_ascii_of_string p) (list_ascii_of_string s).

Definition digit_of (c : ascii) : option Z :=
  let n := nat_of_ascii c in
  if (48 <=? n)%nat && (n <=? 57)%nat then Some (Z.of_nat (n - 48)) else None.

(** Digits of a decimal literal; single underscores may separate digits. *)
Fixpoint int_digits (acc : Z) (after_digit : bool) (s : list ascii) : option Z :=
  match s with
  | [] => if after_digit then Some acc else None
  | c :: s' =>
      if Ascii.eqb c "_"
      then (if after_digit then int_digits acc false s' else None)
      else match digit_of c with
           | Some d => int_digits (10 * acc + d) true s'
           | None => None
           end
  end.

(** [int(w)] for a token without surrounding space; [None] is ValueError. *)
Definition int (w : string) : option Z :=
  match list_ascii_of_string w with
  | "-"%char :: s => Z.opp <$> int_digits 0 false s
  | "+"%char :: s => int_digits 0 false s
  | s => int_digits 0 false s
  end.

(** Normalisation of one bound of a slice against a length. *)
Definition clamp (len i : Z) : Z :=
  if i <? 0 then Z.max 0 (i + len) else Z.min i len.

(** [l[a:b]] with Python's treatment of negative and out-of-range bounds. *)
Definition slice {A} (l : list A) (a b : Z) : list A :=
  let n := Z.of_nat (length l) in
  let a' := clamp n a in
  let b' := clamp n b in
  take (Z.to_nat (b' - a')) (drop (Z.to_nat a') l).

(** [l[i]] with negative indices counted from the end. *)
Definition index {A} (l : list A) (i : Z) : result A :=
  let n := Z.of_nat (length l) in
  let j := if i <? 0 then i + n else i in
  if (0 <=? j) && (j <? n)
  then match l !! Z.to_nat j with Some x => Ok x | None => Raise IndexError end
  else Raise IndexError.

(** [l[a::2]] for [a] in {0, 1}. *)
Fixpoint every_second {A} (l : list A) : list A :=
  match l with
  | x :: _ :: l' => x :: every_second l'
  | [x] => [x]
  | [] => []
  end.

(** [s.ljust(n)] and [s.rjust(n)]. *)
Definition spaces (n : nat) : string := string_of_list_ascii (replicate n " "%char).
Definition ljust (n : nat) (s : string) : string :=
  (s ++ spaces (n - String.length s))%string.
Definition rjust (n : nat) (s : string) : string :=
  (spaces (n - String.length s) ++ s)%string.

Definition digit_char (d : nat) : ascii := ascii_of_nat (48 + d).

Fixpoint nat_digits (fuel n : nat) (acc : list ascii) : list ascii :=
  match fuel with
  | O => acc
  | S fuel' =>
      let acc' := digit_char (n mod 10) :: acc in
      if (n <? 10)%nat then acc' else nat_digits fuel' (n / 10) acc'
  end.

(** [str(n)] for a natural number. *)
Definition str_of_nat (n : nat) : string :=
  string_of_list_ascii (nat_digits (S n) n []).

End Py.

(** A small implementation of shell wildcards: [*] matches any run of
    characters, [?] one character, anything else itself. *)
Fixpoint glob_chars (p s : list ascii) : bool :=
  match p with
  | [] => match s with [] => true | _ => false end
  | c :: p' =>
      if Ascii.eqb c "*"
      then (fix star (s : list ascii) : bool :=
              glob_chars p' s ||
              match s with [] => false | _ :: s' => star s' end) s
      else match s with
           | [] => false
           | d :: s' =>
               (Ascii.eqb c "?" || Ascii.eqb c d) && glob_chars p' s'
           end
  end.

Definition glob (name pat : string) : bool :=
  glob_chars (list_ascii_of_string pat) (list_ascii_of_string name).

(** ** Values held by the field store *)

Inductive dtype : Type := DInt | DReal.

(** A Python scalar. *)
Inductive num : Type :=
| NInt (z : Z)
| NReal (x : float).

(** A one-dimensional numpy array of dtype int64 or float64. *)
Inductive ndarray : Type :=
| IntArr (l : list Z)
| RealArr (l : list float).

Inductive value : Type :=
| VStr (s : string)
| VNum (n : num)
| VArr (a : ndarray).

Definition arr_size (a : ndarray) : nat :=
  match a with
  | IntArr l => length l
  | RealArr l => length l
  end.

Definition fits_int64 (z : Z) : bool :=
  (- 2 ^ 63 <=? z) && (z <? 2 ^ 63).

(** Conversion of an int64 to the nearest float64 (the cast numpy applies
    when an integer is stored in a float array). *)
Definition float_of_int64 (z : Z) : float :=
  if z =? - 2 ^ 63 then (-9223372036854775808)%float
  else if z <? 0
  then PrimFloat.opp (PrimFloat.of_uint63 (Uint63.of_Z (- z)))
  else PrimFloat.of_uint63 (Uint63.of_Z z).

(** Wrap-around of int64 arithmetic. *)
Definition wrap64 (z : Z) : Z := (z + 2 ^ 63) mod 2 ^ 64 - 2 ^ 63.

(** The elements of an array read as float64. *)
Definition arr_floats (a : ndarray) : list float :=
  match a with
  | IntArr l => map float_of_int64 l
  | RealArr l => l
  end.

(** ** The line iterator

    A computation over the line iterator threads the unread lines and may
    raise; the iterator keeps its position when an exception passes. *)

Definition LitM (A : Type) : Type := list string -> result A * list string.

#[global] Instance LitM_ret : MRet LitM := fun A a lit => (Ok a, lit).
#[global] Instance LitM_bind : MBind LitM := fun A B f m lit =>
  match m lit with
  | (Ok a, lit') => f a lit'
  | (Raise e, lit') => (Raise e, lit')
  end.

Definition raise {A} (e : exn) : LitM A := fun lit => (Raise e, lit).

Definition lift {A} (r : result A) : LitM A := fun lit => (r, lit).

(** [next(lit)] *)
Definition next : LitM string := fun lit =>
  match lit with
  | [] => (Raise StopIteration, [])
  | line :: lit' => (Ok line, lit')
  end.

(** [lit.error(msg)] *)
Definition lit_error {A} (msg : string) : LitM A := raise (LitError msg).

(** ** Field reader and field store *)

Section Reader.

Variable fnmatch : string -> string -> bool.
Variable float_of_string : string -> option float.

(** [int(word)] stored into an int64 array: a value out of range is the
    OverflowError of the assignment. *)
Definition int64_of_string (w : string) : option Z :=
  z ← Py.int w; if fits_int64 z then Some z else None.

(** The loop [while counter < length] of [_load_fchk_field]; [n] is
    [length - counter], [words] the tokens left of the current line. *)
Fixpoint read_values {A} (parse : string -> option A) (n : nat)
    (words : list string) : LitM (list A) :=
  match n with
  | O => mret []
  | S n' =>
      words ← (match words with
               | [] => line ← next; mret (Py.split line)
               | _ => mret words
               end);
      match words with
      | [] => raise IndexError                    (* words.pop(0) *)
      | word :: words' =>
          match parse word with
          | None => lit_error ("Could not interpret: " ++ word)%string
          | Some v => vs ← read_values parse n' words'; mret (v :: vs)
          end
      end
  end.

Definition type_code (w : string) : option dtype :=
  if String.eqb w "I" then Some DInt
  else if String.eqb w "R" then Some DReal
  else None.

Definition label_matches (label : string) (label_patterns : option (list string)) : bool :=
  match label_patterns with
  | None => true
  | Some pats => existsb (fnmatch label) pats
  end.

(** [datatype(words[1])] for a scalar field. *)
Definition scalar_of_string (dt : dtype) (w : string) : option num :=
  match dt with
  | DInt => NInt <$> Py.int w
  | DReal => NReal <$> float_of_string w
  end.

(** The largest number of 8-byte items (both [int] and [float] give
    such a dtype) of an array that numpy can address: the size in bytes
    has to fit a signed 64-bit index. *)
Definition MAX_LENGTH : Z := 2 ^ 60 - 1.

(** The array branch: [np.zeros(length, datatype)] and the filling loop.
    [np.zeros] raises [ValueError] for a negative length and for one that
    numpy cannot address (a dimension beyond the index type, or a size in
    bytes beyond it); this happens before any value is read.  A length
    below that bound is allocated: memory is not bounded here. *)
Definition read_array (dt : dtype) (w_length : string) : LitM ndarray :=
  match Py.int w_length with
  | None => raise ValueError                      (* int(words[2]) *)
  | Some len =>
      if (len <? 0) || (MAX_LENGTH <? len)
      then raise ValueError                       (* np.zeros(length, datatype) *)
      else match dt with
           | DInt =>
               l ← read_values int64_of_string (Z.to_nat len) []; mret (IntArr l)
           | DReal =>
               l ← read_values float_of_string (Z.to_nat len) []; mret (RealArr l)
           end
  end.

(** What the reader does with the line under the cursor. *)
Inductive line_action : Type :=
| Skip                                   (* [continue], or fall through *)
| Scalar (label : string) (dt : dtype) (w : string)
| Array (label : string) (dt : dtype) (w_n w_length : string).

Definition classify (label_patterns : option (list string)) (line : string) : line_action :=
  let label := Py.strip (Py.prefix 43 line) in
  let words := Py.split (Py.suffix 43 line) in
  match words with
  | [] => Skip
  | w0 :: _ =>
      match type_code w0 with
      | None => Skip
      | Some dt =>
          if negb (label_matches label label_patterns) then Skip
          else match words with
               | [_; w1] => Scalar label dt w1
               | [_; w1; w2] => Array label dt w1 w2
               | _ => Skip
               end
      end
  end.

Fixpoint _load_fchk_field (label_patterns : option (list string))
    (lit : list string) : result (string * value) * list string :=
  match lit with
  | [] => (Raise StopIteration, [])               (* next(lit) *)
  | line :: lit' =>
      match classify label_patterns line with
      | Skip => _load_fchk_field label_patterns lit'
      | Scalar label dt w1 =>
          match scalar_of_string dt w1 with
          | Some v => (Ok (label, VNum v), lit')
          | None => lit_error ("Could not interpret: " ++ w1)%string lit'
          end
      | Array label dt w1 w2 =>
          (if negb (String.eqb w1 "N=")
           then lit_error "Expected N= not found."
           else a ← read_array dt w2; mret (label, VArr a)) lit'
      end
  end.

(** The loop [while True] of [_load_fchk_low].  Every field read consumes
    a line, so the number of unread lines bounds the number of rounds:
    started with more fuel than lines, the loop never runs out of it
    (lemmas [store_loop_fuel] and [store_loop_drains]). *)
Fixpoint store_loop (fuel : nat) (label_patterns : option (list string))
    (result : gmap string value) : LitM (gmap string value) :=
  fun lit =>
    match fuel with
    | O => (Ok result, lit)
    | S fuel' =>
        match _load_fchk_field label_patterns lit with
        | (Ok (label, v), lit') =>
            store_loop fuel' label_patterns (<[label := v]> result) lit'
        | (Raise StopIteration, lit') => (Ok result, lit')     (* break *)
        | (Raise e, lit') => (Raise e, lit')
        end
    end.

(** The loop started on the current cursor. *)
Definition read_fields (label_patterns : option (list string))
    (result : gmap string value) : LitM (gmap string value) :=
  fun lit => store_loop (S (length lit)) label_patterns result lit.

Definition header_error : string :=
  "The second line of the FCHK file should contain two or three words.".

Definition _load_fchk_low (label_patterns : option (list string))
    : LitM (gmap string value) :=
  title ← next;
  let result := <["title" := VStr (Py.strip title)]> (∅ : gmap string value) in
  line ← next;
  result ← (match Py.split line with
            | [command; lot; obasis_name] =>
                mret (<["obasis_name" := VStr obasis_name]>
                        (<["lot" := VStr lot]>
                           (<["command" := VStr command]> result)))
            | [command; lot] =>
                mret (<["lot" := VStr lot]> (<["command" := VStr command]> result))
            | _ => lit_error header_error
            end);
  read_fields label_patterns result.

End Reader.

(** ** Numeric helpers *)

(** A dense square matrix, as its rows. *)
Abbreviation Matrix := (list (list float)).

Definition get2 (m : Matrix) (i j : nat) : result float :=
  match m !! i with
  | Some row => match row !! j with
                | Some x => Ok x
                | None => Raise IndexError
                end
  | None => Raise IndexError
  end.

(** [a[k] = x] on a list used as an array. *)
Definition setitem {A} (a : list A) (k : nat) (x : A) : result (list A) :=
  if (k <? length a)%nat then Ok (<[k := x]> a) else Raise IndexError.

Definition getitem {A} (a : list A) (k : nat) : result A :=
  match a !! k with
  | Some x => Ok x
  | None => Raise IndexError
  end.

(** [l[a:b]] for natural bounds. *)
Definition slice_nat {A} (l : list A) (a b : nat) : list A :=
  take (b - a) (drop a l).

(** The value assigned to a slice of [k] cells: numpy accepts a source of
    [k] elements, or a single element that it repeats. *)
Definition broadcast_to {A} (k : nat) (src : list A) : result (list A) :=
  if (length src =? k)%nat then Ok src
  else match src with
       | [x] => Ok (replicate k x)
       | _ => Raise ValueError
       end.

(** [int(np.round((np.sqrt(1 + 8 * L) - 1) / 2))] in exact arithmetic:
    the integer nearest to [(sqrt (1 + 8 L) - 1) / 2], which is
    [floor (sqrt (1 + 8 L)) / 2] (lemma [nrow_of_length_real] below). *)
Definition nrow_of_length (L : nat) : nat :=
  Z.to_nat (Z.sqrt (1 + 8 * Z.of_nat L) / 2).

(** [result[irow, :irow + 1] = src] *)
Definition assign_row (res : Matrix) (irow : nat) (src : list float) : result Matrix :=
  src' ← broadcast_to (S irow) src;
  match res !! irow with
  | Some row => Ok (<[irow := src' ++ drop (S irow) row]> res)
  | None => Raise IndexError
  end.

(** [result[:irow + 1, irow] = src] *)
Definition assign_col (res : Matrix) (irow : nat) (src : list float) : result Matrix :=
  src' ← broadcast_to (S irow) src;
  Ok (imap (fun r row =>
              match src' !! r with
              | Some x => <[irow := x]> row
              | None => row
              end) res).

(** The loop [for irow in range(nrow)] of [_triangle_to_dense]. *)
Fixpoint fill_rows (triangle : list float) (irows : list nat) (begin : nat)
    (res : Matrix) : result Matrix :=
  match irows with
  | [] => Ok res
  | irow :: irows' =>
      let end_ := (begin + irow + 1)%nat in
      res ← assign_row res irow (slice_nat triangle begin end_);
      res ← assign_col res irow (slice_nat triangle begin end_);
      fill_rows triangle irows' end_ res
  end.

Definition zeros2 (n m : nat) : Matrix := replicate n (replicate m 0%float).

Definition _triangle_to_dense (triangle : ndarray) : result Matrix :=
  let t := arr_floats triangle in
  let nrow := nrow_of_length (length t) in
  fill_rows t (seq 0 nrow) 0 (zeros2 nrow nrow).

(** The inner loop [for j in range(nrow)] of [_get_TriangleMat]. *)
Fixpoint triangle_row (matrix : Matrix) (i : nat) (js : list nat)
    (k : nat) (newmat : list float) : result (nat * list float) :=
  match js with
  | [] => Ok (k, newmat)
  | j :: js' =>
      if (j <=? i)%nat
      then x ← get2 matrix i j;
           newmat ← setitem newmat k x;
           triangle_row matrix i js' (S k) newmat
      else triangle_row matrix i js' k newmat
  end.

(** The outer loop [for i in range(nrow)]. *)
Fixpoint triangle_rows (matrix : Matrix) (nrow : nat) (is_ : list nat)
    (k : nat) (newmat : list float) : result (nat * list float) :=
  match is_ with
  | [] => Ok (k, newmat)
  | i :: is' =>
      '(k, newmat) ← triangle_row matrix i (seq 0 nrow) k newmat;
      triangle_rows matrix nrow is' k newmat
  end.

(** [_get_TriangleMat]; the message printed for a matrix that is not
    square does not change the result and is left out.  [newsize] is
    [int(nrow * (nrow + 1) / 2)], a division of an even number. *)
Definition _get_TriangleMat (matrix : Matrix) : result ndarray :=
  let nrow := length matrix in
  let newsize := (nrow * (nrow + 1) / 2)%nat in
  '(_, newmat) ← triangle_rows matrix nrow (seq 0 nrow) 0 (replicate newsize 0%float);
  Ok (RealArr newmat).

(** [a[idx]] for a list of indices (numpy's integer-array indexing). *)
Definition take_indices (a : ndarray) (idx : list nat) : result ndarray :=
  match a with
  | IntArr l => l' ← mapM (getitem l) idx; Ok (IntArr l')
  | RealArr l => l' ← mapM (getitem l) idx; Ok (RealArr l')
  end.

(** The index map [load_one] applies to the field 'Quadrupole Moment'. *)
Definition QUADRUPOLE_LOAD_MAP : list nat := [0; 3; 4; 1; 5; 2]%nat.

Definition _sort_quadrupole (quadrupole : ndarray) : result ndarray :=
  let q := arr_floats quadrupole in
  if (length q =? 0)%nat then Ok (RealArr [])
  else
    let newquadrupole := replicate (length q) 0%float in
    x ← getitem q 0; newquadrupole ← setitem newquadrupole 0 x;
    x ← getitem q 3; newquadrupole ← setitem newquadrupole 1 x;
    x ← getitem q 5; newquadrupole ← setitem newquadrupole 2 x;
    x ← getitem q 1; newquadrupole ← setitem newquadrupole 3 x;
    x ← getitem q 2; newquadrupole ← setitem newquadrupole 4 x;
    x ← getitem q 4; newquadrupole ← setitem newquadrupole 5 x;
    Ok (RealArr newquadrupole).

(** ** Arrays of two dimensions, row-major *)

Record array2 : Type := Array2 {
  shape0 : nat;
  shape1 : nat;
  items : ndarray;
}.

Definition arr_slice (a : ndarray) (b e : Z) : ndarray :=
  match a with
  | IntArr l => IntArr (Py.slice l b e)
  | RealArr l => RealArr (Py.slice l b e)
  end.

(** [np.concatenate((a, b))] for one-dimensional arrays: the result is
    of dtype float64 unless both are int64. *)
Definition arr_concat (a b : ndarray) : ndarray :=
  match a, b with
  | IntArr l1, IntArr l2 => IntArr (l1 ++ l2)
  | _, _ => RealArr (arr_floats a ++ arr_floats b)
  end.

(** [a.reshape(-1, k)] *)
Definition reshape_rows (a : ndarray) (k : nat) : result array2 :=
  if (k =? 0)%nat then Raise ValueError
  else if (arr_size a mod k =? 0)%nat
       then Ok (Array2 (arr_size a / k) k a)
       else Raise ValueError.

(** [a.reshape(d0, d1)] for dimensions read from the file.  numpy infers
    a negative dimension; the embedding covers the non-negative ones. *)
Definition reshape2 (a : ndarray) (d0 d1 : Z) : result array2 :=
  if (d0 <? 0) || (d1 <? 0) then Raise (Unsupported "reshape with an inferred dimension")
  else if d0 * d1 =? Z.of_nat (arr_size a)
       then Ok (Array2 (Z.to_nat d0) (Z.to_nat d1) a)
       else Raise ValueError.

Definition transpose_list {A} (r c : nat) (l : list A) : list A :=
  flat_map (fun j => omap (fun i => l !! (i * c + j)%nat) (seq 0 r)) (seq 0 c).

(** [m.T] *)
Definition transpose (m : array2) : array2 :=
  let '(Array2 r c a) := m in
  Array2 c r match a with
             | IntArr l => IntArr (transpose_list r c l)
             | RealArr l => RealArr (transpose_list r c l)
             end.

Fixpoint chunks {A} (n k : nat) (l : list A) : list (list A) :=
  match n with
  | O => []
  | S n' => take k l :: chunks n' k (drop k l)
  end.

(** [np.concatenate((m1, m2), axis=1)] *)
Definition hstack (m1 m2 : array2) : result array2 :=
  let '(Array2 r1 c1 a1) := m1 in
  let '(Array2 r2 c2 a2) := m2 in
  if negb (r1 =? r2)%nat then Raise ValueError
  else
    Ok (Array2 r1 (c1 + c2)
          match a1, a2 with
          | IntArr l1, IntArr l2 =>
              IntArr (concat (zip_with app (chunks r1 c1 l1) (chunks r1 c2 l2)))
          | _, _ =>
              RealArr (concat (zip_with app (chunks r1 c1 (arr_floats a1))
                                            (chunks r1 c2 (arr_floats a2))))
          end).

(** [a[b:e] = x] for a scalar [x]. *)
Definition slice_fill {A} (l : list A) (b e : Z) (x : A) : list A :=
  let n := Z.of_nat (length l) in
  let b' := Z.to_nat (Py.clamp n b) in
  let e' := Z.to_nat (Py.clamp n e) in
  if (b' <? e')%nat
  then take b' l ++ replicate (e' - b') x ++ drop e' l
  else l.

(** ** Records assembled by the loader *)

Record Shell : Type := MkShell {
  icenter : Z;
  angmoms : list Z;
  kinds : list string;
  exponents : list float;
  coeffs : list (list float);     (* one row per primitive *)
}.

Record MolecularOrbitals : Type := MkMO {
  mo_kind : string;
  norba : nat;
  norbb : nat;
  occs : list float;
  mo_coeffs : array2;
  energies : ndarray;
}.

Inductive frozen : Type :=
| FrozenScalar (b : bool)
| FrozenArr (l : list bool).

Record Moments : Type := MkMoments {
  dipole : option value;          (* key (1, 'c') *)
  quadrupole : option ndarray;    (* key (2, 'c') *)
}.

(** The dictionary returned by [load_one]; an absent key is [None]. *)
Record LoadOne : Type := MkLoadOne {
  r_title : value;
  r_energy : value;
  r_lot : string;
  r_obasis_name : string;
  r_atcoords : array2;
  r_atnums : value;
  r_atcorenums : value;
  r_atmasses : option value;
  r_atgradient : option array2;
  r_athessian : option Matrix;
  r_atfrozen : option frozen;
  r_run_type : option string;
  r_obasis : list Shell;          (* MolecularBasis(shells, CONVENTIONS, 'L2') *)
  r_one_rdms : option (gmap string Matrix);
  r_mo : MolecularOrbitals;
  r_extra : option Matrix;        (* {'polarizability_tensor': ...} *)
  r_moments : option Moments;
  r_atcharges : option (gmap string value);
}.

(** ** The single-frame assembler *)

Definition getkey (fchk : gmap string value) (k : string) : result value :=
  match fchk !! k with
  | Some v => Ok v
  | None => Raise (KeyError k)
  end.

Definition unsupported {A} (what : string) : result A := Raise (Unsupported what).

Definition as_int (what : string) (v : value) : result Z :=
  match v with
  | VNum (NInt z) => Ok z
  | _ => unsupported what
  end.

Definition as_int_array (what : string) (v : value) : result (list Z) :=
  match v with
  | VArr (IntArr l) => Ok l
  | _ => unsupported what
  end.

Definition as_real_array (what : string) (v : value) : result (list float) :=
  match v with
  | VArr (RealArr l) => Ok l
  | _ => unsupported what
  end.

(** [v.lower()] *)
Definition str_lower (v : value) : result string :=
  match v with
  | VStr s => Ok (Py.lower s)
  | _ => Raise AttributeError
  end.

(** [v.reshape(-1, 3)] *)
Definition reshape_xyz (v : value) : result array2 :=
  match v with
  | VArr a => reshape_rows a 3
  | _ => Raise AttributeError
  end.

(** [v == -2] *)
Definition eq_minus2 (v : value) : frozen :=
  match v with
  | VArr (IntArr l) => FrozenArr (map (fun z => z =? -2) l)
  | VArr (RealArr l) => FrozenArr (map (fun x => PrimFloat.eqb x (-2)%float) l)
  | VNum (NInt z) => FrozenScalar (z =? -2)
  | VNum (NReal x) => FrozenScalar (PrimFloat.eqb x (-2)%float)
  | VStr _ => FrozenScalar false
  end.

Definition run_types (command : string) : option string :=
  if String.eqb command "SP" then Some "energy"
  else if String.eqb command "FOpt" then Some "opt"
  else if String.eqb command "Scan" then Some "scan"
  else if String.eqb command "Freq" then Some "freq"
  else None.

(** [run_types.get(v)] *)
Definition run_type_of (v : value) : result (option string) :=
  match v with
  | VStr s => Ok (run_types s)
  | VNum _ => Ok None
  | VArr _ => Raise TypeError                      (* unhashable *)
  end.

(** [_triangle_to_dense(v)] for a value of the store. *)
Definition triangle_of_value (v : value) : result Matrix :=
  match v with
  | VArr a => _triangle_to_dense a
  | VNum _ => Raise TypeError                     (* len() of a scalar *)
  | VStr _ => unsupported "text in a triangular field"
  end.

(** [f(fchk.get(k))] when the key is present. *)
Definition optional {A} (fchk : gmap string value) (k : string)
    (f : value -> result A) : result (option A) :=
  match fchk !! k with
  | Some v => a ← f v; Ok (Some a)
  | None => Ok None
  end.

Record Simple : Type := MkSimple {
  s_title : value;
  s_energy : value;
  s_lot : string;
  s_obasis_name : string;
  s_atcoords : array2;
  s_atnums : value;
  s_atcorenums : value;
  s_atmasses : option value;
  s_atgradient : option array2;
  s_athessian : option Matrix;
  s_atfrozen : option frozen;
  s_run_type : option string;
}.

Section Loader.

(** The constant [amu] of [iodata.utils]. *)
Variable amu : float.

(** [v * amu] *)
Definition times_amu (v : value) : result value :=
  match v with
  | VArr a => Ok (VArr (RealArr (map (fun x => PrimFloat.mul x amu) (arr_floats a))))
  | VNum (NReal x) => Ok (VNum (NReal (PrimFloat.mul x amu)))
  | VNum (NInt z) =>
      if fits_int64 z then Ok (VNum (NReal (PrimFloat.mul (float_of_int64 z) amu)))
      else unsupported "a large integer weight"
  | VStr _ => Raise TypeError
  end.

(** Part A of [load_one]: "Load a bunch of simple things". *)
Definition load_simple (fchk : gmap string value) : result Simple :=
  title ← getkey fchk "title";
  energy ← getkey fchk "Total Energy";
  lot ← getkey fchk "lot" ≫= str_lower;
  obasis_name ← getkey fchk "obasis_name" ≫= str_lower;
  atcoords ← getkey fchk "Current cartesian coordinates" ≫= reshape_xyz;
  atnums ← getkey fchk "Atomic numbers";
  atcorenums ← getkey fchk "Nuclear charges";
  atmasses ← optional fchk "Real atomic weights" times_amu;
  atgradient ← optional fchk "Cartesian Gradient" reshape_xyz;
  athessian ← optional fchk "Cartesian Force Constants" triangle_of_value;
  atfrozen ← optional fchk "MicOpt" (fun v => Ok (eq_minus2 v));
  run_type ← getkey fchk "command" ≫= run_type_of;
  Ok (MkSimple title energy lot obasis_name atcoords atnums atcorenums
        atmasses atgradient athessian atfrozen run_type).

(** [abs] on an int64. *)
Definition abs64 (z : Z) : Z := if z =? - 2 ^ 63 then z else Z.abs z.

(** The loop [for i, n in enumerate(nprims)] of part B. *)
Fixpoint load_shells (shell_types shell_map : list Z)
    (exponents ccoeffs_level1 : list float) (ccoeffs_level2 : option (list float))
    (i : nat) (nprims : list Z) (counter : Z) : result (list Shell) :=
  match nprims with
  | [] => Ok []
  | n :: nprims' =>
      st ← getitem shell_types i;
      center ← getitem shell_map i;
      let e := Py.slice exponents counter (wrap64 (counter + n)) in
      let c1 := Py.slice ccoeffs_level1 counter (wrap64 (counter + n)) in
      shell ←
        (if st =? -1
         then match ccoeffs_level2 with
              | None => Raise TypeError
              | Some l2 =>
                  let c2 := Py.slice l2 counter (wrap64 (counter + n)) in
                  if (length c1 =? length c2)%nat     (* np.stack *)
                  then Ok (MkShell center [0; 1] ["c"; "c"] e
                             (zip_with (fun a b => [a; b]) c1 c2))
                  else Raise ValueError
              end
         else Ok (MkShell center [abs64 st] [if st <? 0 then "p" else "c"] e
                    (map (fun a => [a]) c1)));
      shells ← load_shells shell_types shell_map exponents ccoeffs_level1
                 ccoeffs_level2 (S i) nprims' (wrap64 (counter + n));
      Ok (shell :: shells)
  end.

(** Part B of [load_one]: "Load the orbital basis set". *)
Definition load_obasis (fchk : gmap string value) : result (list Shell) :=
  shell_types ← getkey fchk "Shell types" ≫= as_int_array "Shell types";
  shell_map ← getkey fchk "Shell to atom map" ≫= as_int_array "Shell to atom map";
  let shell_map := map (fun z => wrap64 (z - 1)) shell_map in
  nprims ← getkey fchk "Number of primitives per shell"
             ≫= as_int_array "Number of primitives per shell";
  exponents ← getkey fchk "Primitive exponents" ≫= as_real_array "Primitive exponents";
  ccoeffs_level1 ← getkey fchk "Contraction coefficients"
                     ≫= as_real_array "Contraction coefficients";
  ccoeffs_level2 ← optional fchk "P(S=P) Contraction coefficients"
                     (as_real_array "P(S=P) Contraction coefficients");
  load_shells shell_types shell_map exponents ccoeffs_level1 ccoeffs_level2
    0%nat nprims 0.

(** [_load_dm(label, fchk, result, key)] *)
Definition _load_dm (label : string) (fchk : gmap string value)
    (out : gmap string Matrix) (key : string) : result (gmap string Matrix) :=
  match fchk !! label with
  | Some v => m ← triangle_of_value v; Ok (<[key := m]> out)
  | None => Ok out
  end.

(** The loop [for lot in 'MP2', 'MP3', 'CC', 'CI'] of part C. *)
Fixpoint load_post_scf (lots : list string) (fchk : gmap string value)
    (one_rdms : gmap string Matrix) : result (gmap string Matrix) :=
  match lots with
  | [] => Ok one_rdms
  | lot :: lots' =>
      one_rdms ← _load_dm ("Total " ++ lot ++ " Density")%string fchk one_rdms "post_scf";
      one_rdms ← _load_dm ("Spin " ++ lot ++ " Density")%string fchk one_rdms "post_scf_spin";
      load_post_scf lots' fchk one_rdms
  end.

(** Part C of [load_one]: "Load density matrices". *)
Definition load_rdms (fchk : gmap string value) : result (gmap string Matrix) :=
  one_rdms ← _load_dm "Total SCF Density" fchk ∅ "scf";
  one_rdms ← _load_dm "Spin SCF Density" fchk one_rdms "scf_spin";
  load_post_scf ["MP2"; "MP3"; "CC"; "CI"] fchk one_rdms.

(** [if one_rdms: result['one_rdms'] = one_rdms] *)
Definition nonempty_rdms (one_rdms : gmap string Matrix) : option (gmap string Matrix) :=
  if decide (one_rdms = ∅) then None else Some one_rdms.

(** [v.shape[0]] *)
Definition shape0_of (v : value) : result nat :=
  match v with
  | VArr a => Ok (arr_size a)
  | _ => Raise AttributeError
  end.

(** [np.copy(v.reshape(nbasis_indep, nbasis).T)] *)
Definition reshape_T (v nbasis_indep nbasis : value) : result array2 :=
  match v with
  | VArr a =>
      d0 ← as_int "Number of independent functions" nbasis_indep;
      d1 ← as_int "Number of basis functions" nbasis;
      m ← reshape2 a d0 d1;
      Ok (transpose m)
  | _ => Raise AttributeError
  end.

(** [np.zeros(n)] *)
Definition zeros (n : Z) : result (list float) :=
  if n <? 0 then Raise ValueError else Ok (replicate (Z.to_nat n) 0%float).

(** The electron-count checks of part D. *)
Definition check_electrons (nalpha nbeta : Z) : result unit :=
  if (nalpha <? 0) || (nbeta <? 0) || (nalpha + nbeta <=? 0)
  then Raise (LitError "The number of electrons is not positive.")
  else if nalpha <? nbeta
       then Raise ValueError
       else Ok ().

(** The occupation numbers of the restricted branch. *)
Definition restricted_occs (nbasis_indep nalpha nbeta : Z) : result (list float) :=
  mo_occs ← zeros nbasis_indep;
  let mo_occs := slice_fill mo_occs 0 nalpha 1%float in
  let mo_occs := slice_fill mo_occs 0 nbeta 2%float in
  Ok mo_occs.

(** The occupation numbers of the unrestricted branch. *)
Definition unrestricted_occs (nbasis_indep nalpha nbeta : Z) : result (list float) :=
  mo_occs ← zeros (2 * nbasis_indep);
  let mo_occs := slice_fill mo_occs 0 nalpha 1%float in
  let mo_occs := slice_fill mo_occs nbasis_indep (nbasis_indep + nbeta) 1%float in
  Ok mo_occs.

(** [result['one_rdms'].pop('scf')] *)
Definition pop_scf (one_rdms : option (gmap string Matrix))
    : result (option (gmap string Matrix)) :=
  match one_rdms with
  | None => Raise (KeyError "one_rdms")
  | Some d =>
      match d !! "scf" with
      | None => Raise (KeyError "scf")
      | Some _ => Ok (Some (delete "scf" d))
      end
  end.

(** What part D reads before it branches on the presence of beta
    orbitals. *)
Record Orbitals : Type := MkOrbitals {
  o_nbasis_indep : Z;
  o_nalpha : Z;
  o_nbeta : Z;
  o_norba : nat;
  o_coeffs : array2;
  o_energies : ndarray;
}.

(** [fchk.get("Number of independant functions",
             fchk.get("Number of independent functions", nbasis))] *)
Definition nbasis_indep_of (fchk : gmap string value) (nbasis : value) : value :=
  default (default nbasis (fchk !! "Number of independent functions"))
          (fchk !! "Number of independant functions").

(** Part D of [load_one], "Load the wavefunction", up to the branch. *)
Definition load_orbitals (fchk : gmap string value) (nbasis : value) : result Orbitals :=
  let nbasis_indep := nbasis_indep_of fchk nbasis in
  nalpha ← getkey fchk "Number of alpha electrons";
  nbeta ← getkey fchk "Number of beta electrons";
  nalpha ← as_int "Number of alpha electrons" nalpha;
  nbeta ← as_int "Number of beta electrons" nbeta;
  _ ← check_electrons nalpha nbeta;
  norba ← getkey fchk "Alpha Orbital Energies" ≫= shape0_of;
  coeffs ← (v ← getkey fchk "Alpha MO coefficients"; reshape_T v nbasis_indep nbasis);
  mo_energies ← getkey fchk "Alpha Orbital Energies";
  n ← as_int "Number of independent functions" nbasis_indep;
  match mo_energies with
  | VArr e => Ok (MkOrbitals n nalpha nbeta norba coeffs e)
  | _ => Raise AttributeError
  end.

(** Part D, the branch [if 'Beta Orbital Energies' in fchk].  [one_rdms]
    is the entry [result['one_rdms']] as part C left it; the second
    component of the value is that entry afterwards. *)
Definition load_mo (fchk : gmap string value) (nbasis : value)
    (one_rdms : option (gmap string Matrix))
    : result (MolecularOrbitals * option (gmap string Matrix)) :=
  o ← load_orbitals fchk nbasis;
  match fchk !! "Beta Orbital Energies" with
  | Some energies_b =>
      (* unrestricted *)
      norbb ← shape0_of energies_b;
      coeffs_b ← (v ← getkey fchk "Beta MO coefficients";
                  reshape_T v (nbasis_indep_of fchk nbasis) nbasis);
      coeffs ← hstack (o_coeffs o) coeffs_b;
      mo_occs ← unrestricted_occs (o_nbasis_indep o) (o_nalpha o) (o_nbeta o);
      match energies_b with
      | VArr eb =>
          Ok (MkMO "unrestricted" (o_norba o) norbb mo_occs coeffs
                (arr_concat (o_energies o) eb), one_rdms)
      | _ => Raise AttributeError
      end
  | None =>
      (* restricted closed-shell and open-shell *)
      mo_occs ← restricted_occs (o_nbasis_indep o) (o_nalpha o) (o_nbeta o);
      one_rdms ← (if negb (o_nalpha o =? o_nbeta o) then pop_scf one_rdms else Ok one_rdms);
      Ok (MkMO "restricted" (o_norba o) (o_norba o) mo_occs (o_coeffs o) (o_energies o),
          one_rdms)
  end.

(** The moments of part E. *)
Definition load_moments (fchk : gmap string value) : result (option Moments) :=
  let dip := fchk !! "Dipole Moment" in
  quad ← match fchk !! "Quadrupole Moment" with
         | None => Ok None
         | Some (VArr a) => q ← take_indices a QUADRUPOLE_LOAD_MAP; Ok (Some q)
         | Some _ => Raise TypeError
         end;
  Ok (match dip, quad with
      | None, None => None
      | _, _ => Some (MkMoments dip quad)
      end).

(** The atomic charges of part E. *)
Definition load_atcharges (fchk : gmap string value) : option (gmap string value) :=
  let add (label key : string) (d : gmap string value) :=
    match fchk !! label with
    | Some v => <[key := v]> d
    | None => d
    end in
  let atcharges :=
    add "NPA Charges" "npa" (add "ESP Charges" "esp" (add "Mulliken Charges" "mulliken" ∅)) in
  if decide (atcharges = ∅) then None else Some atcharges.

(** [load_one] from the field store on. *)
Definition assemble (fchk : gmap string value) : result LoadOne :=
  a ← load_simple fchk;
  shells ← load_obasis fchk;
  nbasis ← getkey fchk "Number of basis functions";
  one_rdms ← load_rdms fchk;
  '(mo, one_rdms) ← load_mo fchk nbasis (nonempty_rdms one_rdms);
  extra ← optional fchk "Polarizability" triangle_of_value;
  moments ← load_moments fchk;
  Ok (MkLoadOne (s_title a) (s_energy a) (s_lot a) (s_obasis_name a) (s_atcoords a)
        (s_atnums a) (s_atcorenums a) (s_atmasses a) (s_atgradient a) (s_athessian a)
        (s_atfrozen a) (s_run_type a) shells one_rdms mo extra moments
        (load_atcharges fchk)).

Definition LOAD_ONE_LABELS : list string :=
  [ "Number of electrons"; "Number of basis functions";
    "Number of independant functions";
    "Number of independent functions";
    "Number of alpha electrons"; "Number of beta electrons";
    "Atomic numbers"; "Current cartesian coordinates";
    "Real atomic weights";
    "Shell types"; "Shell to atom map"; "Shell to atom map";
    "Number of primitives per shell"; "Primitive exponents";
    "Contraction coefficients"; "P(S=P) Contraction coefficients";
    "Alpha Orbital Energies"; "Alpha MO coefficients";
    "Beta Orbital Energies"; "Beta MO coefficients";
    "Total Energy"; "Nuclear charges";
    "Total SCF Density"; "Spin SCF Density";
    "Total MP2 Density"; "Spin MP2 Density";
    "Total MP3 Density"; "Spin MP3 Density";
    "Total CC Density"; "Spin CC Density";
    "Total CI Density"; "Spin CI Density";
    "Mulliken Charges"; "ESP Charges"; "NPA Charges";
    "Polarizability"; "Dipole Moment"; "Quadrupole Moment";
    "Cartesian Gradient"; "Cartesian Force Constants"; "MicOpt" ].

Variable fnmatch : string -> string -> bool.
Variable float_of_string : string -> option float.

Definition load_one : LitM LoadOne :=
  fchk ← _load_fchk_low fnmatch float_of_string (Some LOAD_ONE_LABELS);
  lift (assemble fchk).

End Loader.

(** ** The trajectory extractor *)

Record Extra : Type := MkExtra {
  ipoint : nat;
  npoint : nat;
  istep : nat;
  nstep : Z;
  reaction_coordinate : option num;
}.

Record Frame : Type := MkFrame {
  f_title : value;
  f_atnums : value;
  f_atcorenums : value;
  f_energy : num;
  f_atcoords : array2;
  f_atgradient : array2;
  f_extra : Extra;
}.

(** A generator run to its end: the values it yielded, then how it
    stopped (normally, or with an exception). *)
Definition Generated (A : Type) : Type := list A * result unit.

Definition arr_nums (a : ndarray) : list num :=
  match a with
  | IntArr l => map NInt l
  | RealArr l => map NReal l
  end.

Definition arr_chunks (n k : nat) (a : ndarray) : list ndarray :=
  match a with
  | IntArr l => map IntArr (chunks n k l)
  | RealArr l => map RealArr (chunks n k l)
  end.

(** [v.reshape(-1, natom, 3)], as the list of its [natom] by 3 blocks. *)
Definition reshape_steps (v : value) (natom : nat) : result (list array2) :=
  match v with
  | VArr a =>
      let k := (natom * 3)%nat in
      if (k =? 0)%nat then Raise ValueError
      else if (arr_size a mod k =? 0)%nat
           then Ok (map (Array2 natom 3) (arr_chunks (arr_size a / k) k a))
           else Raise ValueError
  | _ => Raise AttributeError
  end.

(** ["{} {:7d} <what>".format(prefix, ipoint + 1)] *)
Definition point_label (prefix : string) (ipoint : nat) (what : string) : string :=
  (prefix ++ " " ++ Py.rjust 7 (Py.str_of_nat (ipoint + 1)) ++ " " ++ what)%string.

(** [zip] of four sequences. *)
Fixpoint zip4 {A B C D} (l1 : list A) (l2 : list B) (l3 : list C) (l4 : list D)
    : list (A * B * C * D) :=
  match l1, l2, l3, l4 with
  | a :: l1', b :: l2', c :: l3', d :: l4' => (a, b, c, d) :: zip4 l1' l2' l3' l4'
  | _, _, _, _ => []
  end.

(** [results_geoms[::2]] and [results_geoms[1::2]] *)
Definition strided (v : value) : result (list num * list num) :=
  match v with
  | VArr a => Ok (Py.every_second (arr_nums a), Py.every_second (drop 1 (arr_nums a)))
  | VNum _ => Raise TypeError
  | VStr _ => unsupported "text in a trajectory field"
  end.

(** The list [trajectory] of one point. *)
Definition point_trajectory (prefix : string) (fchk : gmap string value)
    (natom ipoint : nat) : result (list (num * num * array2 * array2)) :=
  results_geoms ← getkey fchk (point_label prefix ipoint "Results for each geome");
  '(energies, recors) ← strided results_geoms;
  geometries ← (v ← getkey fchk (point_label prefix ipoint "Geometries");
                reshape_steps v natom);
  gradients ← (v ← getkey fchk (point_label prefix ipoint "Gradient at each geome");
               reshape_steps v natom);
  Ok (zip4 energies recors geometries gradients).

(** The dictionary [data] of one step. *)
Definition make_frame (prefix : string) (fchk : gmap string value)
    (ipoint npoint istep : nat) (nstep : Z)
    (step : num * num * array2 * array2) : result Frame :=
  let '(energy, recor, atcoords, gradients) := step in
  title ← getkey fchk "title";
  atnums ← getkey fchk "Atomic numbers";
  atcorenums ← getkey fchk "Nuclear charges";
  Ok (MkFrame title atnums atcorenums energy atcoords gradients
        (MkExtra ipoint npoint istep nstep
           (if String.eqb prefix "IRC point" then Some recor else None))).

(** The loop [for istep, ... in enumerate(trajectory)]. *)
Fixpoint yield_steps (prefix : string) (fchk : gmap string value)
    (ipoint npoint : nat) (nstep : Z) (istep : nat)
    (trajectory : list (num * num * array2 * array2)) : Generated Frame :=
  match trajectory with
  | [] => ([], Ok ())
  | step :: trajectory' =>
      match make_frame prefix fchk ipoint npoint istep nstep step with
      | Raise e => ([], Raise e)
      | Ok data =>
          let '(frames, r) :=
            yield_steps prefix fchk ipoint npoint nstep (S istep) trajectory' in
          (data :: frames, r)
      end
  end.

(** The loop [for ipoint, nstep in enumerate(nsteps)]. *)
Fixpoint yield_points (prefix : string) (fchk : gmap string value)
    (natom npoint ipoint : nat) (nsteps : list Z) : Generated Frame :=
  match nsteps with
  | [] => ([], Ok ())
  | nstep :: nsteps' =>
      match point_trajectory prefix fchk natom ipoint with
      | Raise e => ([], Raise e)
      | Ok trajectory =>
          if negb (Z.of_nat (length trajectory) =? nstep)
          then ([], Raise AssertionError)         (* assert len(trajectory) == nstep *)
          else
            match yield_steps prefix fchk ipoint npoint nstep 0 trajectory with
            | (frames, Ok _) =>
                let '(frames', r) :=
                  yield_points prefix fchk natom npoint (S ipoint) nsteps' in
                (frames ++ frames', r)
            | (frames, Raise e) => (frames, Raise e)
            end
      end
  end.

Definition trajectory_error : string :=
  "Could not find IRC or Optimization trajectory in FCHK file.".

(** The kind of calculation: the prefix of the labels and [nsteps]. *)
Definition trajectory_kind (fchk : gmap string value) : result (string * value) :=
  match fchk !! "IRC Number of geometries" with
  | Some nsteps => Ok ("IRC point", nsteps)
  | None =>
      match fchk !! "Optimization Number of geometries" with
      | Some nsteps => Ok ("Opt point", nsteps)
      | None => Raise (LitError trajectory_error)
      end
  end.

(** [v.size] *)
Definition size_of (v : value) : result nat :=
  match v with
  | VArr a => Ok (arr_size a)
  | _ => Raise AttributeError
  end.

(** The sequence iterated by [enumerate(nsteps)]. *)
Definition iterate_nsteps (nsteps : value) : result (list Z) :=
  match nsteps with
  | VArr (IntArr l) => Ok l
  | VArr (RealArr _) => unsupported "real step counts"
  | VNum _ => Raise TypeError
  | VStr _ => unsupported "text as step counts"
  end.

(** The body of [load_many] from the field store on. *)
Definition extract (fchk : gmap string value) : Generated Frame :=
  match
    '(prefix, nsteps) ← trajectory_kind fchk;
    natom ← getkey fchk "Atomic numbers" ≫= size_of;
    nsteps ← iterate_nsteps nsteps;
    Ok (prefix, natom, nsteps)
  with
  | Raise e => ([], Raise e)
  | Ok (prefix, natom, nsteps) =>
      yield_points prefix fchk natom (length nsteps) 0 nsteps
  end.

Definition LOAD_MANY_LABELS : list string :=
  [ "Atomic numbers"; "Current cartesian coordinates"; "Nuclear charges";
    "IRC *"; "Optimization *"; "Opt point *" ].

(** [load_many] is a generator function.  A [StopIteration] that leaves
    the body of a generator (here only the one of [next(lit)] in the
    header of [_load_fchk_low], on a file of fewer than two lines) is
    replaced by [RuntimeError]; every other exception passes through. *)
Definition generator_exn (e : exn) : exn :=
  match e with
  | StopIteration => RuntimeError
  | _ => e
  end.

Definition load_many (fnmatch : string -> string -> bool)
    (float_of_string : string -> option float)
    (lit : list string) : Generated Frame * list string :=
  match _load_fchk_low fnmatch float_of_string (Some LOAD_MANY_LABELS) lit with
  | (Ok fchk, lit') => (extract fchk, lit')
  | (Raise e, lit') => (([], Raise (generator_exn e)), lit')
  end.

(** ** The serializer's helpers

    A file open for writing is the sequence of the fields written to it;
    the column layout of a field (widths, wrapping of the values) is not
    part of the embedding. *)

Inductive field : Type :=
| IntScalar (name : string) (val : Z)
| RealScalar (name : string) (val : float)
| IntArray (name : string) (val : list Z)
| RealArray (name : string) (val : list float).

Definition TextIO : Type := list field.

Definition _dump_integer_scalars (name : string) (val : option Z) (f : TextIO) : TextIO :=
  match val with
  | Some v => f ++ [IntScalar name v]
  | None => f
  end.

Definition _dump_real_scalars (name : string) (val : option float) (f : TextIO) : TextIO :=
  match val with
  | Some v => f ++ [RealScalar name v]
  | None => f
  end.

Definition _dump_integer_arrays (name : string) (val : option (list Z)) (f : TextIO) : TextIO :=
  match val with
  | Some l => if (length l =? 0)%nat then f else f ++ [IntArray name l]
  | None => f
  end.

Definition _dump_real_arrays (name : string) (val : option (list float)) (f : TextIO) : TextIO :=
  match val with
  | Some l => if (length l =? 0)%nat then f else f ++ [RealArray name l]
  | None => f
  end.

(** [m[:, a:b]] for natural bounds. *)
Definition columns (m : array2) (a b : nat) : array2 :=
  let '(Array2 r c a0) := m in
  Array2 r (Nat.min b c - a)
    match a0 with
    | IntArr l => IntArr (concat (map (fun row => slice_nat row a b) (chunks r c l)))
    | RealArr l => RealArr (concat (map (fun row => slice_nat row a b) (chunks r c l)))
    end.

(** [_split_and_get_coefficients]; [m.transpose().flatten()] is the
    array of the items of the transposed matrix, and [np.array([])] an
    empty array of float64. *)
Definition _split_and_get_coefficients (coeffs : option array2) : ndarray * ndarray :=
  match coeffs with
  | None => (RealArr [], RealArr [])
  | Some m =>
      let nrow := shape0 m in
      let ncol := shape1 m in
      if (nrow =? ncol)%nat
      then (items (transpose (columns m 0 nrow)), RealArr [])
      else (items (transpose (columns m 0 nrow)),
            items (transpose (columns m nrow ncol)))
  end.

(** [coeffs.size] *)
Definition coeffs_size (shell : Shell) : nat := length (concat (coeffs shell)).

(** [_get_TypeShell]; the local variable [kind] is [None] until it is
    assigned. *)
Definition _get_TypeShell (shell : Shell) : result Z :=
  kind ← (if (length (angmoms shell) =? 1)%nat
          then kind ← getitem (angmoms shell) 0;
               kinds0 ← getitem (kinds shell) 0;
               Ok (Some (if String.eqb kinds0 "p" && (1 <? kind)
                         then kind * -1 else kind))
          else Ok None);
  let kind :=
    if (length (angmoms shell) =? 2)%nat
    then if (2 * length (exponents shell) =? coeffs_size shell)%nat
         then Some (-1)
         else kind
    else kind in
  match kind with
  | Some k => Ok k
  | None => Raise (UnboundLocalError "kind")
  end.

(** A molecular basis as the serializer sees it: its shells, and the
    property [nbasis] that the class computes from them. *)
Record MolecularBasis : Type := MkBasis {
  shells : list Shell;
  nbasis : Z;
}.

(** The lists that the first loop of [_dump_basisInfo] fills. *)
Record BasisLists : Type := MkLists {
  largestDegreeContraction : nat;
  shellTypes : list Z;
  numberPrimitivesPerShell : list Z;
  shellAtomMap : list Z;
  primitiveExp : list float;
  contractionCoeff : list float;
  spcontractionCoeff : list float;
  coordinatesShell : list (list float);
  totalprim : Z;
}.

Definition empty_lists : BasisLists := MkLists 0 [] [] [] [] [] [] [] 0.

(** The loop [for j in range(nprim)] for one shell of type [shell_type]. *)
Fixpoint dump_primitives (shell : Shell) (shell_type : Z) (js : list nat)
    (st : BasisLists) : result BasisLists :=
  match js with
  | [] => Ok st
  | j :: js' =>
      e ← getitem (exponents shell) j;
      c0 ← get2 (coeffs shell) j 0;
      sp ← (if shell_type =? -1 then get2 (coeffs shell) j 1 else Ok 0%float);
      dump_primitives shell shell_type js'
        (MkLists (largestDegreeContraction st) (shellTypes st)
           (numberPrimitivesPerShell st) (shellAtomMap st)
           (primitiveExp st ++ [e]) (contractionCoeff st ++ [c0])
           (spcontractionCoeff st ++ [sp]) (coordinatesShell st)
           (totalprim st + 1))
  end.

(** The loop [for i in range(nshell)] that fills the lists. *)
Fixpoint dump_shells (coords : list (list float)) (todo : list Shell)
    (st : BasisLists) : result BasisLists :=
  match todo with
  | [] => Ok st
  | shell :: todo' =>
      let nprim := length (exponents shell) in
      let largest := if (largestDegreeContraction st <? nprim)%nat
                     then nprim else largestDegreeContraction st in
      let center := icenter shell in
      xyz ← Py.index coords center;
      shell_type ← _get_TypeShell shell;
      st ← dump_primitives shell shell_type (seq 0 nprim)
             (MkLists largest (shellTypes st ++ [shell_type])
                (numberPrimitivesPerShell st ++ [Z.of_nat nprim])
                (shellAtomMap st ++ [center + 1])
                (primitiveExp st) (contractionCoeff st) (spcontractionCoeff st)
                (coordinatesShell st ++ [xyz]) (totalprim st));
      dump_shells coords todo' st
  end.

(** The second loop: the number of shells whose type equals [code]. *)
Definition count_type (code : Z) (shellTypes : list Z) : Z :=
  fold_left (fun n t => if t =? code then n + 1 else n) shellTypes 0.

(** [np.amax(np.abs(np.array(l)))] *)
Definition amax_abs (l : list Z) : result Z :=
  match l with
  | [] => Raise ValueError
  | x :: l' => Ok (fold_left Z.max (map abs64 l') (abs64 x))
  end.

Definition _dump_basisInfo (basis : MolecularBasis) (coords : list (list float))
    (f : TextIO) : result TextIO :=
  let numberContractedShells := Z.of_nat (length (shells basis)) in
  st ← dump_shells coords (shells basis) empty_lists;
  let pureDshells := count_type 2 (shellTypes st) in
  let pureFshells := count_type 3 (shellTypes st) in
  highestAngularMoment ← amax_abs (shellTypes st);
  let f := _dump_integer_scalars "Number of basis functions" (Some (nbasis basis)) f in
  let f := _dump_integer_scalars "Number of independent functions" (Some (nbasis basis)) f in
  let f := _dump_integer_scalars "Number of contracted shells" (Some numberContractedShells) f in
  let f := _dump_integer_scalars "Number of primitive shells" (Some (totalprim st)) f in
  let f := _dump_integer_scalars "Pure/Cartesian d shells" (Some pureDshells) f in
  let f := _dump_integer_scalars "Pure/Cartesian f shells" (Some pureFshells) f in
  let f := _dump_integer_scalars "Highest angular momentum" (Some highestAngularMoment) f in
  let f := _dump_integer_scalars "Largest degree of contraction"
             (Some (Z.of_nat (largestDegreeContraction st))) f in
  let f := _dump_integer_arrays "Shell types" (Some (shellTypes st)) f in
  let f := _dump_integer_arrays "Number of primitives per shell"
             (Some (numberPrimitivesPerShell st)) f in
  let f := _dump_integer_arrays "Shell to atom map" (Some (shellAtomMap st)) f in
  let f := _dump_real_arrays "Primitive exponents" (Some (primitiveExp st)) f in
  let f := _dump_real_arrays "Contraction coefficients" (Some (contractionCoeff st)) f in
  let f := if existsb (fun t => t =? -1) (shellTypes st)
           then _dump_real_arrays "P(S=P) Contraction coefficients"
                  (Some (spcontractionCoeff st)) f
           else f in
  Ok (_dump_real_arrays "Coordinates of each shell" (Some (concat (coordinatesShell st))) f).

(** The loop [for i in level] of [_dump_rdms]: the last level found in
    [lot] stays in [namelevel]. *)
Definition find_level (lot : string) (namelevel : option string) : option string :=
  fold_left (fun nl i => if Py.contains i lot then Some i else nl)
            ["MP2"; "MP3"; "CC"; "CI"] namelevel.

(** The chain [if key == "scf" ... else] that chooses the title. *)
Definition rdm_title (key : string) (namelevel : option string) : result string :=
  if String.eqb key "scf" then Ok "Total SCF Density"
  else if String.eqb key "scf_spin" then Ok "Spin SCF Density"
  else if String.eqb key "post_scf" then
    match namelevel with
    | Some n => Ok ("Total " ++ n ++ " Density")%string
    | None => Raise (UnboundLocalError "namelevel")
    end
  else if String.eqb key "post_scf_spin" then
    match namelevel with
    | Some n => Ok ("Spin " ++ n ++ " Density")%string
    | None => Raise (UnboundLocalError "namelevel")
    end
  else Ok "Total SCF Density".

(** The loop [for key in one_rdms]; what was written before an exception
    stays in the file. *)
Fixpoint dump_rdm_keys (lot : string) (one_rdms : list (string * Matrix))
    (namelevel : option string) (f : TextIO) : result unit * TextIO :=
  match one_rdms with
  | [] => (Ok (), f)
  | (key, matrix) :: one_rdms' =>
      match _get_TriangleMat matrix with
      | Raise e => (Raise e, f)
      | Ok mat =>
          let namelevel := find_level lot namelevel in
          match rdm_title key namelevel with
          | Raise e => (Raise e, f)
          | Ok title =>
              dump_rdm_keys lot one_rdms' namelevel
                (_dump_real_arrays title (Some (arr_floats mat)) f)
          end
      end
  end.

(** [_dump_rdms]; [lot_tmp] is [None] when the record has no level of
    theory. *)
Definition _dump_rdms (one_rdms : list (string * Matrix)) (lot_tmp : option string)
    (f : TextIO) : result unit * TextIO :=
  let lot_tmp := default "None" lot_tmp in
  let lot := Py.upper lot_tmp in
  dump_rdm_keys lot one_rdms None f.

(** ** The field reader as the specification words it

    "Unmatched array fields are still fully consumed (same length-driven
    continuation logic)": a second reader, written from that sentence,
    in which an array field whose label matches no pattern is read by the
    loop of a matched one and its values are dropped.  It is compared with
    [_load_fchk_field] below. *)

Fixpoint spec_load_fchk_field (fnmatch : string -> string -> bool)
    (float_of_string : string -> option float) (fuel : nat)
    (label_patterns : option (list string))
    (lit : list string) : result (string * value) * list string :=
  match fuel, lit with
  | O, _ => (Raise StopIteration, lit)
  | _, [] => (Raise StopIteration, [])
  | S fuel', line :: lit' =>
      let again := spec_load_fchk_field fnmatch float_of_string fuel' label_patterns in
      match classify fnmatch None line with
      | Skip => again lit'
      | Scalar label dt w1 =>
          if label_matches fnmatch label label_patterns
          then match scalar_of_string float_of_string dt w1 with
               | Some v => (Ok (label, VNum v), lit')
               | None => lit_error ("Could not interpret: " ++ w1)%string lit'
               end
          else again lit'
      | Array label dt w1 w2 =>
          match (if negb (String.eqb w1 "N=")
                 then lit_error "Expected N= not found."
                 else read_array float_of_string dt w2) lit' with
          | (Ok a, lit'') =>
              if label_matches fnmatch label label_patterns
              then (Ok (label, VArr a), lit'')
              else again lit''
          | (Raise e, lit'') => (Raise e, lit'')
          end
      end
  end.

(** ** Concrete inputs for the examples *)

(** A reading of decimal tokens for the examples: the integers of
    magnitude below 2^53, which [float] reads exactly. *)
Definition float_of_small_int (w : string) : option float :=
  z ← Py.int w;
  if Z.abs z <? 2 ^ 53 then Some (float_of_int64 z) else None.

(** A header line: the label in the first 43 columns, then the rest. *)
Definition field_line (label rest : string) : string :=
  (Py.ljust 43 label ++ rest)%string.

(** A small checkpoint file of one atom and three s shells;
    [nalpha] and [nbeta] are the tokens of the electron counts and
    [densities] the lines of the density fields. *)
Definition sample_file (nalpha nbeta : string) (densities : list string) : list string :=
  [ "sample";
    "SP        RHF                                                  STO-3G";
    field_line "Number of atoms" "I                1";
    field_line "Number of alpha electrons" ("I     " ++ nalpha)%string;
    field_line "Number of beta electrons" ("I     " ++ nbeta)%string;
    field_line "Number of basis functions" "I                3";
    field_line "Atomic numbers" "I   N=           1";
    "           5";
    field_line "Nuclear charges" "R   N=           1";
    "  5";
    field_line "Current cartesian coordinates" "R   N=           3";
    "  0  0  0";
    field_line "Shell types" "I   N=           3";
    "           0           0           0";
    field_line "Number of primitives per shell" "I   N=           3";
    "           1           1           1";
    field_line "Shell to atom map" "I   N=           3";
    "           1           1           1";
    field_line "Primitive exponents" "R   N=           3";
    "  3  2  1";
    field_line "Contraction coefficients" "R   N=           3";
    "  1  1  1";
    field_line "Total Energy" "R     -24";
    field_line "Alpha Orbital Energies" "R   N=           3";
    "  -7  -1  0";
    field_line "Alpha MO coefficients" "R   N=           9";
    "  1  0  0  0  1";
    "  0  0  0  1" ] ++ densities.

Definition scf_density_lines : list string :=
  [ field_line "Total SCF Density" "R   N=           6";
    "  2  0  2  0  0";
    "  1" ].


(** The sample file with a linearly dependent basis: of its three basis
    functions the field [indep] declares two independent ones, and the
    file holds two alpha orbitals, two alpha electrons and one beta
    electron; [tail] are the lines of further fields. *)
Definition sample_dependent (indep : string) (tail : list string) : list string :=
  [ "sample";
    "SP        RHF                                                  STO-3G";
    field_line "Number of atoms" "I                1";
    field_line "Number of alpha electrons" "I                2";
    field_line "Number of beta electrons" "I                1";
    field_line "Number of basis functions" "I                3";
    field_line indep "I                2";
    field_line "Atomic numbers" "I   N=           1";
    "           5";
    field_line "Nuclear charges" "R   N=           1";
    "  5";
    field_line "Current cartesian coordinates" "R   N=           3";
    "  0  0  0";
    field_line "Shell types" "I   N=           3";
    "           0           0           0";
    field_line "Number of primitives per shell" "I   N=           3";
    "           1           1           1";
    field_line "Shell to atom map" "I   N=           3";
    "           1           1           1";
    field_line "Primitive exponents" "R   N=           3";
    "  3  2  1";
    field_line "Contraction coefficients" "R   N=           3";
    "  1  1  1";
    field_line "Total Energy" "R     -24";
    field_line "Alpha Orbital Energies" "R   N=           2";
    "  -7  -1";
    field_line "Alpha MO coefficients" "R   N=           6";
    "  1  0  0  0  1";
    "  0" ] ++ tail.

(** The fields of two beta orbitals, for the file above. *)
Definition dependent_beta_lines : list string :=
  [ field_line "Beta Orbital Energies" "R   N=           2";
    "  -6  -1";
    field_line "Beta MO coefficients" "R   N=           6";
    "  1  0  0  0  1";
    "  0" ].

(** A trajectory file of one atom: two points of declared step counts
    [n1] and [n2] that hold three and two steps. *)
Definition sample_trajectory (n1 n2 : string) : list string :=
  [ "sample trajectory";
    "FOpt      RHF                                                  STO-3G";
    field_line "Atomic numbers" "I   N=           1";
    "           1";
    field_line "Nuclear charges" "R   N=           1";
    "  1";
    field_line "Optimization Number of geometries" "I   N=           2";
    ("  " ++ n1 ++ "  " ++ n2)%string;
    field_line "Opt point       1 Results for each geome" "R   N=           6";
    "  -3  0  -4  0  -5";
    "  0";
    field_line "Opt point       1 Geometries" "R   N=           9";
    "  0  0  0  0  0";
    "  1  0  0  2";
    field_line "Opt point       1 Gradient at each geome" "R   N=           9";
    "  0  0  3  0  0";
    "  2  0  0  1";
    field_line "Opt point       2 Results for each geome" "R   N=           4";
    "  -6  0  -7  0";
    field_line "Opt point       2 Geometries" "R   N=           6";
    "  0  0  3  0  0";
    "  4";
    field_line "Opt point       2 Gradient at each geome" "R   N=           6";
    "  0  0  1  0  0";
    "  0" ].

(** A trajectory file of one atom and one point of declared step count
    3, whose geometries and gradients hold three blocks and whose results
    hold two pairs only. *)
Definition short_results_trajectory : list string :=
  [ "short results";
    "FOpt      RHF                                                  STO-3G";
    field_line "Atomic numbers" "I   N=           1";
    "           1";
    field_line "Nuclear charges" "R   N=           1";
    "  1";
    field_line "Optimization Number of geometries" "I   N=           1";
    "  3";
    field_line "Opt point       1 Results for each geome" "R   N=           4";
    "  -3  0  -4  0";
    field_line "Opt point       1 Geometries" "R   N=           9";
    "  0  0  0  0  0";
    "  1  0  0  2";
    field_line "Opt point       1 Gradient at each geome" "R   N=           9";
    "  0  0  3  0  0";
    "  2  0  0  1" ].

Definition frame_meta (fr : Frame) : nat * nat * nat * Z :=
  (ipoint (f_extra fr), npoint (f_extra fr), istep (f_extra fr), nstep (f_extra fr)).


(** The value of [iodata.utils.amu] used in the examples. *)
Definition sample_amu : float := 0x1.c7b8dcf542a68p+10%float.

(** The field store read from a file, for the examples. *)
Definition store_of (labels : list string) (lit : list string) : gmap string value :=
  match _load_fchk_low glob float_of_small_int (Some labels) lit with
  | (Ok fchk, _) => fchk
  | (Raise _, _) => ∅
  end.

Definition ok_or {A} (d : A) (r : result A) : A :=
  match r with
  | Ok a => a
  | Raise _ => d
  end.

(** A basis of one pure d shell on one atom. *)
Definition pure_d_basis : MolecularBasis :=
  MkBasis [MkShell 0 [2] ["p"] [1]%float [[1]]%float] 5.

(** The entry [M[r][c]], when it exists. *)
Definition entry (M : Matrix) (r c : nat) : option float :=
  row ← M !! r; row !! c.

Definition square (n : nat) (M : Matrix) : Prop :=
  length M = n /\ Forall (fun row => length row = n) M.

Definition symmetric (M : Matrix) : Prop :=
  forall r c, entry M r c = entry M c r.

(** Rows 0 .. i of the lower triangle, row after row; [i0] is the index
    of the first row of [rows]. *)
Fixpoint lower_triangle (i0 : nat) (rows : list (list float)) : list float :=
  match rows with
  | [] => []
  | row :: rows' => take (S i0) row ++ lower_triangle (S i0) rows'
  end.

(** [M[r][c]], or 0.0 outside the matrix. *)
Definition at_ (M : Matrix) (r c : nat) : float := default 0%float (entry M r c).

(** The [n] by [n] matrix of entries [f r c]. *)
Definition tab (n : nat) (f : nat -> nat -> float) : Matrix :=
  map (fun r => map (f r) (seq 0 n)) (seq 0 n).

(** numpy's rounding of a real number: to the nearest integer, a tie to
    the even one. *)
Definition round_half_even (x : R) : Z :=
  let k := Int_part x in
  let d := (x - IZR k)%R in
  if Rlt_dec d (1 / 2) then k
  else if Rlt_dec (1 / 2) d then k + 1
  else if Z.even k then k else k + 1.

(** [np.round((np.sqrt(1 + 8 * L) - 1) / 2)] over the real numbers. *)
Definition nrow_real (L : nat) : Z :=
  round_half_even ((R_sqrt.sqrt (IZR (1 + 8 * Z.of_nat L)) - 1) / 2).

(** The same expression in binary64 arithmetic, rounded to an integer
    by adding and subtracting 2^52. *)
Definition nrow_binary64 (L : nat) : float :=
  let x := PrimFloat.div
             (PrimFloat.sub (PrimFloat.sqrt (float_of_int64 (1 + 8 * Z.of_nat L))) 1%float)
             2%float in
  PrimFloat.sub (PrimFloat.add x 4503599627370496%float) 4503599627370496%float.

(** A symmetric matrix of size 3. *)
Definition sample_matrix : Matrix :=
  [ [1; 2; 4]; [2; 3; 5]; [4; 5; 6] ]%float.

(** A line without a type code after column 43, as a continuation line
    of numbers is. *)
Definition no_type_code (line : string) : bool :=
  match Py.split (Py.suffix 43 line) with
  | [] => true
  | w :: _ => match type_code w with None => true | Some _ => false end
  end.

(** The exception of a computation that raised. *)
Definition raised {A} (r : result A) : option exn :=
  match r with
  | Ok _ => None
  | Raise e => Some e
  end.

(** An unmatched array of seven values before two matched fields. *)
Definition interleaved_labels : option (list string) :=
  Some ["Atomic numbers"; "Number of*"].

Definition matched_tail : list string :=
  [ field_line "Atomic numbers" "I   N=           3";
    "           8           1           1";
    field_line "Number of electrons" "I               10" ].

(** An unmatched array of one value whose continuation line has, after
    its value, the shape of a header. *)
Definition desync_labels : option (list string) := Some ["*electrons"].

Definition desync_stream : list string :=
  [ field_line "Foo" "I   N=           1";
    field_line "1 electrons" "I     5";
    field_line "Number of electrons" "I    10" ].

(** The metadata of a frame: point, number of points, step, declared
    number of steps of the point. *)
Definition meta (ipoint npoint istep : nat) (nstep : Z) : nat * nat * nat * Z :=
  (ipoint, npoint, istep, nstep).

(** Point-major, step-minor order: for each point in turn, the steps
    0 .. nstep - 1 of that point. *)
Fixpoint point_major (npoint ipoint : nat) (nsteps : list Z) : list (nat * nat * nat * Z) :=
  match nsteps with
  | [] => []
  | nstep :: nsteps' =>
      map (fun istep => meta ipoint npoint istep nstep) (seq 0 (Z.to_nat nstep))
        ++ point_major npoint (S ipoint) nsteps'
  end.

(** The kind of trajectory that a file declares, with the step counts of
    its points: those of the field 'IRC Number of geometries', with the
    labels of an IRC, when the file has this field; else those of the
    field 'Optimization Number of geometries', with the labels of an
    optimization. *)
Definition declared_steps (fchk : gmap string value) (prefix : string)
    (nsteps : list Z) : Prop :=
  (fchk !! "IRC Number of geometries" = Some (VArr (IntArr nsteps)) /\
   prefix = "IRC point") \/
  (fchk !! "IRC Number of geometries" = None /\
   fchk !! "Optimization Number of geometries" = Some (VArr (IntArr nsteps)) /\
   prefix = "Opt point").

(** The number of paired steps that the fields of point [ip] hold, for
    [natom] atoms: the results hold a pair (energy, reaction coordinate)
    per step, the geometries and the gradients a block of [3 natom]
    numbers per step; the steps are paired up to the shortest of the
    three.  The fields have to be arrays, the last two of whole blocks. *)
Definition paired_steps (fchk : gmap string value) (prefix : string)
    (natom ip : nat) : option nat :=
  match fchk !! point_label prefix ip "Results for each geome",
        fchk !! point_label prefix ip "Geometries",
        fchk !! point_label prefix ip "Gradient at each geome" with
  | Some (VArr results), Some (VArr geometries), Some (VArr gradients) =>
      if ((0 <? natom) && (arr_size geometries mod (natom * 3) =? 0)
          && (arr_size gradients mod (natom * 3) =? 0))%nat
      then Some (Nat.min (arr_size results / 2)
                   (Nat.min (arr_size geometries / (natom * 3))
                            (arr_size gradients / (natom * 3))))
      else None
  | _, _, _ => None
  end.

(** Point [ip] of the file holds as many paired steps as it declares. *)
Definition consistent (fchk : gmap string value) (prefix : string) (natom : nat)
    (ip : nat) (nstep : Z) : Prop :=
  exists n, paired_steps fchk prefix natom ip = Some n /\ Z.of_nat n = nstep.

(** The independent-function count that a file declares: the value of
    its field 'Number of independant functions' (so spelled) when it has
    one, else of its field 'Number of independent functions', else,
    without both, its number of basis functions. *)
Definition independent_count (fchk : gmap string value) (n : Z) : Prop :=
  match fchk !! "Number of independant functions",
        fchk !! "Number of independent functions" with
  | Some v, _ => v = VNum (NInt n)
  | None, Some v => v = VNum (NInt n)
  | None, None => fchk !! "Number of basis functions" = Some (VNum (NInt n))
  end.


(** The invariant of a shell (data model of the codec): one or two
    angular momenta, a kind tag per momentum, one coefficient row per
    exponent and one coefficient column per momentum; a shell of two
    momenta is the SP shell, of momenta 0 and 1. *)
Definition shell_invariant (shell : Shell) : Prop :=
  (length (angmoms shell) = 1%nat \/ angmoms shell = [0; 1]) /\
  length (kinds shell) = length (angmoms shell) /\
  length (coeffs shell) = length (exponents shell) /\
  Forall (fun row => length row = length (angmoms shell)) (coeffs shell).

(** ** Further definitions for the statements *)

(** The exceptions that leave the field reader. *)
Definition reader_exn (e : exn) : Prop :=
  e = StopIteration \/ e = IndexError \/ e = ValueError \/
  e = LitError "Expected N= not found." \/
  exists word, e = LitError ("Could not interpret: " ++ word)%string.

(** A text that does not begin with white space. *)
Definition no_leading_space (s : list ascii) : Prop :=
  match s with
  | [] => True
  | c :: _ => Py.is_space c = false
  end.

(** The tokens of an array all read in its type. *)
Definition tokens_parse (float_of_string : string -> option float) (dt : dtype)
    (tokens : list string) : Prop :=
  match dt with
  | DInt => Forall (fun word => is_Some (int64_of_string word)) tokens
  | DReal => Forall (fun word => is_Some (float_of_string word)) tokens
  end.

(** A file of two fields, one of them requested in the example. *)
Definition small_file : list string :=
  [ "  a title ";
    "SP RHF";
    field_line "Number of electrons" "I               10";
    field_line "Charge" "I                0" ].

(** The position of the entry [(r, c)], [c <= r], in triangular storage. *)
Definition triangle_index (r c : nat) : nat := (r * (r + 1) / 2 + c)%nat.

(** The symmetric matrix of size [n] whose lower triangle is [t]. *)
Definition dense_of (n : nat) (t : list float) : Matrix :=
  tab n (fun r c => default 0%float (t !! triangle_index (Nat.max r c) (Nat.min r c))).

(** The fields of the beta orbitals, for the sample file. *)
Definition beta_orbital_lines : list string :=
  [ field_line "Beta Orbital Energies" "R   N=           3";
    "  -6  -1  0";
    field_line "Beta MO coefficients" "R   N=           9";
    "  1  0  0  0  1";
    "  0  0  0  1" ].

(** A file whose second line names no basis set. *)
Definition two_word_file : list string :=
  [ "sample";
    "SP        RHF";
    field_line "Total Energy" "R     -24" ].

(** The density that the loop over the levels leaves under a key: the
    one of the last level that has a field. *)
Definition last_level (fchk : gmap string value) (prefix : string)
    (lots : list string) (init : option Matrix) : option Matrix :=
  fold_left (fun acc lot =>
               match fchk !! (prefix ++ lot ++ " Density")%string with
               | Some v => match triangle_of_value v with
                           | Ok m => Some m
                           | Raise _ => None
                           end
               | None => acc
               end) lots init.

(** A store with the densities of two levels of theory. *)
Definition two_level_fields : gmap string value :=
  <["Total CC Density" := VArr (RealArr [2]%float)]>
    (<["Total MP2 Density" := VArr (RealArr [1]%float)]> ∅).

(** The [i]-th block of [size] elements of an array. *)
Definition arr_block (a : ndarray) (size i : nat) : ndarray :=
  match a with
  | IntArr l => IntArr (take size (drop (i * size) l))
  | RealArr l => RealArr (take size (drop (i * size) l))
  end.

(** The steps of the first point of the sample trajectory. *)
Definition sample_point : list (num * num * array2 * array2) :=
  ok_or [] (point_trajectory "Opt point"
              (store_of LOAD_MANY_LABELS (sample_trajectory "3" "2")) 1 0).

(** A trajectory file without the field of the step counts. *)
Definition no_trajectory_file : list string :=
  [ "sample";
    "SP        RHF                                                  STO-3G";
    field_line "Atomic numbers" "I   N=           1";
    "           1" ].

(** A shell as [load_one] builds them, on one of [ncenter] atoms: one
    Cartesian momentum [l >= 0] or one pure momentum [l >= 2] with one
    column of coefficients, or the SP shell with two columns; one row of
    coefficients per exponent. *)
Definition loadable_shell (ncenter : nat) (shell : Shell) : Prop :=
  0 <= icenter shell < Z.of_nat ncenter /\
  length (coeffs shell) = length (exponents shell) /\
  ((exists l, angmoms shell = [l] /\ l < 2 ^ 63 /\
              ((kinds shell = ["c"] /\ 0 <= l) \/ (kinds shell = ["p"] /\ 2 <= l)) /\
              Forall (fun row => length row = 1%nat) (coeffs shell)) \/
   (angmoms shell = [0; 1] /\ kinds shell = ["c"; "c"] /\
    Forall (fun row => length row = 2%nat) (coeffs shell))).

(** The column [k] of the coefficients of a shell. *)
Definition coeff_column (k : nat) (shell : Shell) : list float :=
  map (fun row => default 0%float (row !! k)) (coeffs shell).

(** The type code of a loadable shell. *)
Definition shell_code (shell : Shell) : Z :=
  match angmoms shell, kinds shell with
  | [l], [k] => if String.eqb k "p" && (1 <? l) then - l else l
  | _, _ => -1
  end.

(** The column of P coefficients that the serializer writes for a shell. *)
Definition sp_column (shell : Shell) : list float :=
  if shell_code shell =? -1 then coeff_column 1 shell
  else replicate (length (coeffs shell)) 0%float.

(** An SP shell and a pure d shell on one atom. *)
Definition sample_shells : list Shell :=
  [ MkShell 0 [0; 1] ["c"; "c"] [2; 1]%float [[1; 3]; [2; 4]]%float;
    MkShell 0 [2] ["p"] [5]%float [[6]]%float ].

(** A store with a quadrupole moment of seven values. *)
Definition long_quadrupole_fields : gmap string value :=
  <["Quadrupole Moment" := VArr (RealArr [1; 2; 3; 4; 5; 6; 7]%float)]> ∅.

(** The titles of the density fields of a checkpoint file by the key of
    the density, for the level of theory [level] after the SCF. *)
Definition DENSITY_TITLES (level : string) : list (string * string) :=
  [ ("scf", "Total SCF Density");
    ("scf_spin", "Spin SCF Density");
    ("post_scf", "Total " ++ level ++ " Density")%string;
    ("post_scf_spin", "Spin " ++ level ++ " Density")%string ].

(** The title of the density [key]; a key that is not in the table is
    written under the title of the SCF density. *)
Definition density_title (key level : string) : string :=
  match List.find (fun kt => String.eqb kt.1 key) (DENSITY_TITLES level) with
  | Some kt => kt.2
  | None => "Total SCF Density"
  end.

(** The density fields of a file: for each matrix in turn that is not
    empty, one array of real numbers under the title of its key, whose
    values are the lower triangle of the matrix row after row; nothing
    for an empty matrix. *)
Definition written_rdms (one_rdms : list (string * Matrix)) (level : string) : TextIO :=
  flat_map (fun km =>
              match lower_triangle 0 km.2 with
              | [] => []
              | vals => [RealArray (density_title km.1 level) vals]
              end) one_rdms.

(** Densities of a coupled-cluster calculation. *)
Definition sample_rdms : list (string * Matrix) :=
  [ ("scf", [[1]]%float); ("post_scf", sample_matrix); ("post_scf_spin", []) ].

(** A matrix of two rows and three columns. *)
Definition wide_matrix : Matrix := [ [1; 2; 3]; [4; 5; 6] ]%float.

(** A matrix of three rows and two columns. *)
Definition tall_matrix : Matrix := [ [1; 4]; [2; 5]; [3; 6] ]%float.

(** * Properties *)

(** ** Field reader and field store *)

(** A matched array is read over its continuation lines, up to the
    declared number of values. *)
Example matched_array_read :
  _load_fchk_field glob float_of_small_int None
      (field_line "Shell types" "I   N=           7"
       :: ["           0           0           1           0           1          -2";
           "           0"] ++ matched_tail)
    = (Ok ("Shell types", VArr (IntArr [0; 0; 1; 0; 1; -2; 0])), matched_tail).
Proof. reflexivity. Qed.

(** An array cut short by the end of the file is dropped: the
    StopIteration of the reader ends the loop of the store. *)
Example truncated_array_dropped :
  match _load_fchk_low glob float_of_small_int None
          [ "title"; "SP RHF";
            field_line "Number of electrons" "I               10";
            field_line "Atomic numbers" "I   N=           3";
            "           8           1" ] with
  | (Ok fchk, lit) =>
      fchk !! "Number of electrons" = Some (VNum (NInt 10)) /\
      fchk !! "Atomic numbers" = None /\
      lit = []
  | (Raise _, _) => False
  end.
Proof. vm_compute. repeat split. Qed.

Section ReaderFacts.

Variable fnmatch : string -> string -> bool.
Variable float_of_string : string -> option float.
Variable label_patterns : option (list string).

Abbreviation field := (_load_fchk_field fnmatch float_of_string label_patterns).
Abbreviation loop := (fun fuel => store_loop fnmatch float_of_string fuel label_patterns).

Lemma read_values_cursor {A} (parse : string -> option A) (n : nat) :
  forall words lit r lit',
  read_values parse n words lit = (r, lit') ->
  (length lit' <= length lit)%nat /\ (raised r = Some StopIteration -> lit' = []).
Proof.
  induction n as [|n IH]; intros words lit r lit' H; simpl in H.
  - injection H as <- <-. split; [lia | discriminate].
  - unfold mbind, LitM_bind in H.
    destruct words as [|word words].
    + unfold next in H. destruct lit as [|line lit].
      * injection H as <- <-. split; [simpl; lia | reflexivity].
      * simpl in H. destruct (Py.split line) as [|word words].
        { injection H as <- <-. split; [simpl; lia | discriminate]. }
        destruct (parse word).
        { destruct (read_values parse n words lit) as [[vs|e] lit1] eqn:E;
            injection H as <- <-; apply IH in E; destruct E as [E1 E2];
            split; simpl; try lia; try discriminate; exact E2. }
        { injection H as <- <-. split; [simpl; lia | discriminate]. }
    + simpl in H. destruct (parse word).
      * destruct (read_values parse n words lit) as [[vs|e] lit1] eqn:E;
          injection H as <- <-; apply IH in E; destruct E as [E1 E2];
          split; simpl; try lia; try discriminate; exact E2.
      * injection H as <- <-. split; [lia | discriminate].
Qed.

Lemma read_array_cursor (dt : dtype) (w : string) (lit lit' : list string) r :
  read_array float_of_string dt w lit = (r, lit') ->
  (length lit' <= length lit)%nat /\ (raised r = Some StopIteration -> lit' = []).
Proof.
  unfold read_array. intros H.
  destruct (Py.int w) as [len|]; [|injection H as <- <-; split; [lia|discriminate]].
  destruct ((len <? 0) || (MAX_LENGTH <? len));
    [injection H as <- <-; split; [lia|discriminate]|].
  destruct dt; unfold mbind, LitM_bind in H.
  - destruct (read_values int64_of_string (Z.to_nat len) [] lit) as [[l|e] lit1] eqn:E;
      injection H as <- <-; apply read_values_cursor in E; destruct E as [E1 E2];
      split; try lia; try discriminate; exact E2.
  - destruct (read_values float_of_string (Z.to_nat len) [] lit) as [[l|e] lit1] eqn:E;
      injection H as <- <-; apply read_values_cursor in E; destruct E as [E1 E2];
      split; try lia; try discriminate; exact E2.
Qed.

(** A field read consumes at least one line, and the iterator is
    exhausted when the read ends in StopIteration. *)
Lemma field_cursor (lit : list string) :
  forall r lit',
  field lit = (r, lit') ->
  (is_ok r = true -> (length lit' < length lit)%nat) /\
  (length lit' <= length lit)%nat /\
  (raised r = Some StopIteration -> lit' = []).
Proof.
  induction lit as [|line lit IH]; intros r lit' H; simpl in H.
  - injection H as <- <-. repeat split; [discriminate | lia].
  - destruct (classify fnmatch label_patterns line) as [|label dt w1|label dt w1 w2].
    + apply IH in H. destruct H as (H1 & H2 & H3).
      repeat split; simpl; [intros Hok; specialize (H1 Hok); lia | lia | exact H3].
    + destruct (scalar_of_string float_of_string dt w1);
        injection H as <- <-; repeat split; simpl; try lia; discriminate.
    + destruct (negb (String.eqb w1 "N=")).
      * injection H as <- <-. repeat split; simpl; try lia; discriminate.
      * unfold mbind, LitM_bind in H.
        destruct (read_array float_of_string dt w2 lit) as [[a|e] lit1] eqn:E;
          injection H as <- <-; apply read_array_cursor in E; destruct E as [E1 E2];
          repeat split; simpl; try lia; try discriminate; exact E2.
Qed.

Lemma field_skip (line : string) (lit : list string) :
  classify fnmatch label_patterns line = Skip ->
  field (line :: lit) = field lit.
Proof. intros H. simpl. rewrite H. reflexivity. Qed.

Lemma field_skip_many (skipped rest : list string) :
  Forall (fun line => classify fnmatch label_patterns line = Skip) skipped ->
  field (skipped ++ rest) = field rest.
Proof.
  induction 1 as [|line skipped Hline _ IH]; [reflexivity|].
  simpl app. rewrite field_skip by exact Hline. exact IH.
Qed.

(** The bound on the rounds of the store loop is never reached. *)
Lemma store_loop_fuel (fuel1 : nat) :
  forall fuel2 lit result,
  (length lit < fuel1)%nat -> (length lit < fuel2)%nat ->
  loop fuel1 result lit = loop fuel2 result lit.
Proof.
  induction fuel1 as [|fuel1 IH]; intros fuel2 lit result H1 H2; [lia|].
  destruct fuel2 as [|fuel2]; [lia|].
  simpl. destruct (field lit) as [[[label v]|e] lit1] eqn:E; [|reflexivity].
  apply field_cursor in E. destruct E as (E1 & _ & _). specialize (E1 eq_refl).
  apply IH; lia.
Qed.

Lemma store_loop_drains (fuel : nat) :
  forall lit result result' lit',
  (length lit < fuel)%nat ->
  loop fuel result lit = (Ok result', lit') ->
  lit' = [].
Proof.
  induction fuel as [|fuel IH]; intros lit result result' lit' Hfuel H; [lia|].
  simpl in H. destruct (field lit) as [[[label v]|e] lit1] eqn:E.
  - apply field_cursor in E. destruct E as (E1 & _ & _). specialize (E1 eq_refl).
    eapply IH; [|exact H]. lia.
  - apply field_cursor in E. destruct E as (_ & _ & E3).
    destruct e; try discriminate. injection H as _ <-. apply E3. reflexivity.
Qed.

Lemma read_fields_skip (skipped rest : list string) (result : gmap string value) :
  Forall (fun line => classify fnmatch label_patterns line = Skip) skipped ->
  read_fields fnmatch float_of_string label_patterns result (skipped ++ rest)
    = read_fields fnmatch float_of_string label_patterns result rest.
Proof.
  intros Hskip. unfold read_fields.
  transitivity (loop (S (length (skipped ++ rest))) result rest).
  - cbn [store_loop]. rewrite field_skip_many by exact Hskip.
    destruct (field rest) as [[[label v]|e] lit1] eqn:E; [|reflexivity].
    reflexivity.
  - apply store_loop_fuel; rewrite ?length_app; lia.
Qed.

Lemma load_fchk_low_drains (lit lit' : list string) (result : gmap string value) :
  _load_fchk_low fnmatch float_of_string label_patterns lit = (Ok result, lit') ->
  lit' = [].
Proof.
  unfold _load_fchk_low, mbind, LitM_bind, next. intros H.
  destruct lit as [|title lit]; [discriminate|].
  destruct lit as [|line lit]; [discriminate|].
  destruct (Py.split line) as [|w1 [|w2 [|w3 [|w4 ws]]]]; simpl in H; try discriminate.
  - unfold read_fields in H. eapply store_loop_drains; [|exact H]. lia.
  - unfold read_fields in H. eapply store_loop_drains; [|exact H]. lia.
Qed.

End ReaderFacts.

Lemma unmatched_header_skipped (fnmatch : string -> string -> bool)
    (label_patterns : option (list string)) (header : string) :
  label_matches fnmatch (Py.strip (Py.prefix 43 header)) label_patterns = false ->
  classify fnmatch label_patterns header = Skip.
Proof.
  intros H. unfold classify. rewrite H.
  destruct (Py.split (Py.suffix 43 header)) as [|w0 ws]; [reflexivity|].
  destruct (type_code w0); reflexivity.
Qed.

Lemma no_type_code_skipped (fnmatch : string -> string -> bool)
    (label_patterns : option (list string)) (line : string) :
  no_type_code line = true ->
  classify fnmatch label_patterns line = Skip.
Proof.
  unfold no_type_code, classify.
  destruct (Py.split (Py.suffix 43 line)) as [|w0 ws]; [reflexivity|].
  destruct (type_code w0); [discriminate | reflexivity].
Qed.

(** C1 (as amended): an array field whose label matches no requested
    pattern is not read by the length-driven loop.  Its header line is
    skipped, and every following line is examined as a header line in
    turn; a line that carries no type code I or R after column 43, as a
    continuation line of numbers does, is skipped too.  So when the
    continuation lines of the unmatched array are such lines, whatever
    their number and the declared length, the reader returns the next
    matching field exactly as if the unmatched field were absent, and the
    store built from any cursor position is the same.  Whenever the store
    builder returns, the source is at end-of-input. *)
Theorem unmatched_field_skipped (fnmatch : string -> string -> bool)
    (float_of_string : string -> option float)
    (label_patterns : option (list string))
    (header : string) (data rest : list string) :
  label_matches fnmatch (Py.strip (Py.prefix 43 header)) label_patterns = false ->
  Forall (fun line => no_type_code line = true) data ->
  _load_fchk_field fnmatch float_of_string label_patterns (header :: data ++ rest)
    = _load_fchk_field fnmatch float_of_string label_patterns rest /\
  (forall result,
     read_fields fnmatch float_of_string label_patterns result (header :: data ++ rest)
       = read_fields fnmatch float_of_string label_patterns result rest) /\
  (forall lit result lit',
     _load_fchk_low fnmatch float_of_string label_patterns lit = (Ok result, lit') ->
     lit' = []).
Proof.
  intros Hheader Hdata.
  assert (Hskip : Forall (fun line => classify fnmatch label_patterns line = Skip)
                         (header :: data)).
  { constructor; [apply unmatched_header_skipped; exact Hheader|].
    eapply Forall_impl; [exact Hdata|]. intros line. apply no_type_code_skipped. }
  split; [|split].
  - apply (field_skip_many _ _ _ (header :: data) rest Hskip).
  - intros result. apply (read_fields_skip _ _ _ (header :: data) rest result Hskip).
  - intros lit result lit'. apply load_fchk_low_drains.
Qed.

(** An unmatched array of declared length 7 on two continuation lines,
    followed by a matched array and a matched scalar. *)
Lemma unmatched_field_skipped_witness :
  _load_fchk_field glob float_of_small_int interleaved_labels
      (field_line "Shell types" "I   N=           7"
       :: ["           0           0           1           0           1          -2";
           "           0"] ++ matched_tail)
    = (Ok ("Atomic numbers", VArr (IntArr [8; 1; 1])),
       [field_line "Number of electrons" "I               10"]) /\
  (forall result,
     read_fields glob float_of_small_int interleaved_labels result
         (field_line "Shell types" "I   N=           7"
          :: ["           0           0           1           0           1          -2";
              "           0"] ++ matched_tail)
       = read_fields glob float_of_small_int interleaved_labels result matched_tail) /\
  (forall lit result lit',
     _load_fchk_low glob float_of_small_int interleaved_labels lit = (Ok result, lit') ->
     lit' = []).
Proof.
  destruct (unmatched_field_skipped glob float_of_small_int interleaved_labels
              (field_line "Shell types" "I   N=           7")
              ["           0           0           1           0           1          -2";
               "           0"]
              matched_tail eq_refl
              ltac:(repeat constructor)) as (Hfield & Hstore & Hdrain).
  split; [|split; [exact Hstore | exact Hdrain]].
  rewrite Hfield. reflexivity.
Defined.

(** C1, the claim as written fails on [desync_stream]: read with every
    label matched, the array 'Foo' takes its one value from the second
    line and the next field starts on the third; read with the patterns
    ['*electrons'] by the length-driven skipping the claim describes, the
    next matching field is 'Number of electrons' = 10; the code instead
    examines the second line as a header and returns the field
    '1 electrons' = 5 from inside the data of the unmatched array. *)
Lemma unmatched_array_desync :
  _load_fchk_field glob float_of_small_int None desync_stream
    = (Ok ("Foo", VArr (IntArr [1])), [field_line "Number of electrons" "I    10"]) /\
  spec_load_fchk_field glob float_of_small_int 3 desync_labels desync_stream
    = (Ok ("Number of electrons", VNum (NInt 10)), []) /\
  _load_fchk_field glob float_of_small_int desync_labels desync_stream
    = (Ok ("1 electrons", VNum (NInt 5)), [field_line "Number of electrons" "I    10"]) /\
  _load_fchk_field glob float_of_small_int desync_labels desync_stream
    <> spec_load_fchk_field glob float_of_small_int 3 desync_labels desync_stream.
Proof.
  split; [reflexivity|]. split; [reflexivity|]. split; [reflexivity|].
  intros H. vm_compute in H. discriminate.
Qed.

(** ** Triangular storage *)

Section TriangleFacts.

Local Open Scope nat_scope.

Lemma tabulate_eq {A} (l : list A) (n : nat) (g : nat -> A) :
  length l = n ->
  (forall i x, l !! i = Some x -> x = g i) ->
  l = map g (seq 0 n).
Proof.
  intros Hlen Hnth. apply list_eq. intros i.
  rewrite list_lookup_fmap.
  destruct (decide (i < n)) as [Hi|Hi].
  - rewrite lookup_seq_lt by exact Hi. simpl.
    destruct (lookup_lt_is_Some_2 l i ltac:(lia)) as [x Hx].
    rewrite Hx. f_equal. apply Hnth. exact Hx.
  - rewrite lookup_seq_ge by lia. simpl. apply lookup_ge_None. lia.
Qed.

Lemma lookup_tabulate {A} (n : nat) (g : nat -> A) (i : nat) :
  i < n -> map g (seq 0 n) !! i = Some (g i).
Proof.
  intros Hi. rewrite list_lookup_fmap, lookup_seq_lt by exact Hi. reflexivity.
Qed.

Lemma tab_length (n : nat) (f : nat -> nat -> float) : length (tab n f) = n.
Proof. unfold tab. rewrite length_map, length_seq. reflexivity. Qed.

Lemma tab_row (n : nat) (f : nat -> nat -> float) (r : nat) :
  r < n -> tab n f !! r = Some (map (f r) (seq 0 n)).
Proof. intros Hr. unfold tab. apply (lookup_tabulate n (fun r => map (f r) (seq 0 n)) r Hr). Qed.

Lemma tab_ext (n : nat) (f g : nat -> nat -> float) :
  (forall r c, r < n -> c < n -> f r c = g r c) -> tab n f = tab n g.
Proof.
  intros Hfg. unfold tab. apply map_ext_in. intros r Hr. apply in_seq in Hr.
  apply map_ext_in. intros c Hc. apply in_seq in Hc. apply Hfg; lia.
Qed.

Lemma square_tab (n : nat) (M : Matrix) : square n M -> M = tab n (at_ M).
Proof.
  intros [Hlen Hrows]. unfold tab. apply tabulate_eq; [exact Hlen|].
  intros r row Hrow.
  apply tabulate_eq.
  - rewrite Forall_forall in Hrows. apply Hrows.
    eapply list_elem_of_lookup_2. exact Hrow.
  - intros c x Hx. unfold at_, entry. rewrite Hrow. simpl. rewrite Hx. reflexivity.
Qed.

(** *** Flattening *)

Lemma lower_triangle_length (rows : list (list float)) (n : nat) :
  forall i0,
  Forall (fun row => length row = n) rows ->
  i0 + length rows <= n ->
  2 * length (lower_triangle i0 rows) = length rows * (2 * i0 + length rows + 1).
Proof.
  induction rows as [|row rows IH]; intros i0 Hrows Hn; simpl; [lia|].
  inversion Hrows as [|? ? Hrow Hrows']; subst.
  rewrite length_app, length_take. simpl in Hn.
  specialize (IH (S i0) Hrows' ltac:(lia)). nia.
Qed.

Lemma square_triangle_length (n : nat) (M : Matrix) :
  square n M -> length (lower_triangle 0 M) = n * (n + 1) / 2.
Proof.
  intros [Hlen Hrows].
  pose proof (lower_triangle_length M n 0 Hrows ltac:(lia)) as H.
  rewrite Hlen in H. apply Nat.div_unique_exact; lia.
Qed.

Lemma setitem_ok {A} (a : list A) (k : nat) (x : A) :
  k < length a -> setitem a k x = Ok (<[k := x]> a).
Proof.
  intros Hk. unfold setitem. rewrite (proj2 (Nat.ltb_lt _ _) Hk). reflexivity.
Qed.

(** The inner loop copies the entries [row[j0 .. ]] up to the diagonal
    into [newmat] from position [k] on. *)
Lemma triangle_row_copies (matrix : Matrix) (i : nat) (row : list float) (m : nat) :
  matrix !! i = Some row ->
  forall j0 k newmat,
  j0 + m <= length row ->
  k + (Nat.min (j0 + m) (S i) - j0) <= length newmat ->
  triangle_row matrix i (seq j0 m) k newmat
    = Ok (k + (Nat.min (j0 + m) (S i) - j0),
          take k newmat ++ take (Nat.min (j0 + m) (S i) - j0) (drop j0 row)
            ++ drop (k + (Nat.min (j0 + m) (S i) - j0)) newmat).
Proof.
  intros Hrow. induction m as [|m IH]; intros j0 k newmat Hj Hk; simpl.
  - replace (Nat.min (j0 + 0) (S i) - j0) with 0 by lia.
    rewrite Nat.add_0_r. simpl. rewrite take_drop. reflexivity.
  - destruct (j0 <=? i) eqn:Ej.
    + apply Nat.leb_le in Ej.
      destruct (lookup_lt_is_Some_2 row j0 ltac:(lia)) as [x Hx].
      unfold get2. rewrite Hrow, Hx. simpl.
      rewrite setitem_ok by lia. simpl.
      rewrite IH by (rewrite ?length_insert; lia).
      replace (Nat.min (j0 + S m) (S i) - j0)
        with (S (Nat.min (S j0 + m) (S i) - S j0)) by lia.
      set (c := Nat.min (S j0 + m) (S i) - S j0).
      f_equal. f_equal; [lia|].
      rewrite (drop_S row x j0 Hx). simpl.
      rewrite (take_S_r (<[k:=x]> newmat) k x)
        by (apply list_lookup_insert_eq; lia).
      rewrite take_insert_ge by lia.
      rewrite <- app_assoc. simpl. f_equal. f_equal. f_equal.
      rewrite drop_insert_lt by lia. f_equal. lia.
    + apply Nat.leb_gt in Ej.
      rewrite IH by lia.
      replace (Nat.min (j0 + S m) (S i) - j0) with 0 by lia.
      replace (Nat.min (S j0 + m) (S i) - S j0) with 0 by lia.
      reflexivity.
Qed.

Lemma splice_take {A} (a b c : list A) (k s : nat) :
  length a = k -> length b = s -> take (k + s) (a ++ b ++ c) = a ++ b.
Proof.
  intros Ha Hb. rewrite app_assoc. apply take_app_length'.
  rewrite length_app. lia.
Qed.

Lemma splice_drop {A} (a b c : list A) (k s t : nat) :
  length a = k -> length b = s -> drop (k + s + t) (a ++ b ++ c) = drop t c.
Proof.
  intros Ha Hb. rewrite app_assoc.
  rewrite drop_app_ge by (rewrite length_app; lia).
  rewrite length_app. f_equal. lia.
Qed.

(** The outer loop copies the lower triangle of the rows from [i0] on. *)
Lemma triangle_rows_copies (n : nat) (M : Matrix) :
  square n M ->
  forall rows i0 k newmat,
  drop i0 M = rows ->
  k + length (lower_triangle i0 rows) <= length newmat ->
  triangle_rows M n (seq i0 (length rows)) k newmat
    = Ok (k + length (lower_triangle i0 rows),
          take k newmat ++ lower_triangle i0 rows
            ++ drop (k + length (lower_triangle i0 rows)) newmat).
Proof.
  intros [Hlen Hrows].
  induction rows as [|row rows IH]; intros i0 k newmat Hdrop Hk; simpl.
  - rewrite Nat.add_0_r. rewrite take_drop. reflexivity.
  - assert (Hrow : M !! i0 = Some row).
    { rewrite <- (Nat.add_0_r i0), <- lookup_drop, Hdrop. reflexivity. }
    assert (Hi0 : i0 < n).
    { rewrite <- Hlen. eapply lookup_lt_Some. exact Hrow. }
    assert (Hrown : length row = n).
    { rewrite Forall_forall in Hrows. apply Hrows.
      eapply list_elem_of_lookup_2. exact Hrow. }
    assert (Hdrop' : drop (S i0) M = rows).
    { replace (S i0) with (i0 + 1) by lia. rewrite <- drop_drop, Hdrop. reflexivity. }
    simpl in Hk. rewrite length_app, length_take in Hk.
    rewrite (triangle_row_copies M i0 row n Hrow 0 k newmat) by lia.
    replace (Nat.min (0 + n) (S i0) - 0) with (S i0) by lia.
    simpl mbind. cbn beta iota. rewrite drop_0.
    rewrite IH; [|exact Hdrop'|].
    + rewrite length_app, length_take.
      replace (S i0 `min` length row) with (S i0) by lia.
      f_equal. f_equal; [lia|].
      rewrite splice_take by (rewrite length_take; lia).
      rewrite <- !app_assoc. f_equal. f_equal. f_equal.
      rewrite splice_drop by (rewrite length_take; lia).
      rewrite drop_drop. f_equal. lia.
    + rewrite !length_app, !length_take, length_drop. lia.
Qed.

Lemma get_TriangleMat_square (n : nat) (M : Matrix) :
  square n M ->
  _get_TriangleMat M = Ok (RealArr (lower_triangle 0 M)).
Proof.
  intros Hsq. unfold _get_TriangleMat.
  pose proof (square_triangle_length n M Hsq) as HL.
  pose proof (triangle_rows_copies n M Hsq M 0 0) as Hloop.
  destruct Hsq as [Hlen Hrows]. rewrite Hlen in *.
  set (newsize := n * (n + 1) / 2) in *.
  rewrite Hloop by (rewrite ?drop_0, ?length_replicate; try reflexivity; lia).
  simpl. f_equal. f_equal.
  rewrite drop_ge by (rewrite length_replicate; lia).
  apply app_nil_r.
Qed.

(** *** Expansion *)

Lemma nrow_of_length_triangular (n L : nat) :
  2 * L = n * (n + 1) -> nrow_of_length L = n.
Proof.
  intros HL. unfold nrow_of_length.
  assert (H : (1 + 8 * Z.of_nat L = (2 * Z.of_nat n + 1) * (2 * Z.of_nat n + 1))%Z) by nia.
  rewrite H, Z.sqrt_square by lia.
  replace ((2 * Z.of_nat n + 1) / 2)%Z with (Z.of_nat n); [apply Nat2Z.id|].
  apply (Z.div_unique_pos _ 2 _ 1); lia.
Qed.

Lemma zeros2_tab (n : nat) : zeros2 n n = tab n (fun _ _ => 0%float).
Proof.
  unfold zeros2, tab. apply tabulate_eq; [apply length_replicate|].
  intros r row Hrow. apply lookup_replicate in Hrow. destruct Hrow as [-> _].
  apply tabulate_eq; [apply length_replicate|].
  intros c x Hx. apply lookup_replicate in Hx. tauto.
Qed.

Lemma broadcast_to_exact {A} (k : nat) (src : list A) :
  length src = k -> broadcast_to k src = Ok src.
Proof. intros H. unfold broadcast_to. rewrite (proj2 (Nat.eqb_eq _ _) H). reflexivity. Qed.

Lemma assign_row_tab (n : nat) (f : nat -> nat -> float) (i : nat) (src : list float) :
  i < n -> length src = S i ->
  assign_row (tab n f) i src
    = Ok (tab n (fun r c => if (r =? i) && (c <=? i)
                            then default 0%float (src !! c) else f r c)).
Proof.
  intros Hi Hsrc. unfold assign_row.
  rewrite broadcast_to_exact by exact Hsrc. simpl.
  rewrite tab_row by exact Hi. f_equal.
  unfold tab at 2. apply tabulate_eq; [rewrite length_insert; apply tab_length|].
  intros r row Hrow.
  destruct (decide (r = i)) as [->|Hr].
  - rewrite list_lookup_insert_eq in Hrow by (rewrite tab_length; exact Hi).
    injection Hrow as <-.
    apply tabulate_eq.
    + rewrite length_app, length_drop, length_map, length_seq. lia.
    + intros c x Hx. rewrite Nat.eqb_refl. simpl.
      destruct (c <=? i) eqn:Ec.
      * apply Nat.leb_le in Ec. rewrite lookup_app_l in Hx by lia.
        rewrite Hx. reflexivity.
      * apply Nat.leb_gt in Ec. rewrite lookup_app_r in Hx by lia.
        rewrite lookup_drop in Hx.
        replace (S i + (c - length src)) with c in Hx by lia.
        assert (Hc : c < n).
        { apply lookup_lt_Some in Hx. rewrite length_map, length_seq in Hx. exact Hx. }
        rewrite lookup_tabulate in Hx by exact Hc. congruence.
  - rewrite list_lookup_insert_ne in Hrow by congruence.
    assert (Hrn : r < n).
    { apply lookup_lt_Some in Hrow. rewrite tab_length in Hrow. exact Hrow. }
    rewrite tab_row in Hrow by exact Hrn. injection Hrow as <-.
    apply map_ext. intros c. rewrite (proj2 (Nat.eqb_neq r i) Hr). reflexivity.
Qed.

Lemma assign_col_tab (n : nat) (f : nat -> nat -> float) (i : nat) (src : list float) :
  i < n -> length src = S i ->
  assign_col (tab n f) i src
    = Ok (tab n (fun r c => if (c =? i) && (r <=? i)
                            then default 0%float (src !! r) else f r c)).
Proof.
  intros Hi Hsrc. unfold assign_col.
  rewrite broadcast_to_exact by exact Hsrc. simpl. f_equal.
  unfold tab at 2. apply tabulate_eq; [rewrite length_imap; apply tab_length|].
  intros r row Hrow. rewrite list_lookup_imap in Hrow.
  assert (Hrn : r < n).
  { destruct (tab n f !! r) eqn:E; [|discriminate].
    apply lookup_lt_Some in E. rewrite tab_length in E. exact E. }
  rewrite tab_row in Hrow by exact Hrn. simpl in Hrow. injection Hrow as <-.
  destruct (src !! r) as [y|] eqn:Ey.
  - assert (Hri : r <= i).
    { apply lookup_lt_Some in Ey. lia. }
    apply tabulate_eq; [rewrite length_insert, length_map, length_seq; reflexivity|].
    intros c x Hx. rewrite (proj2 (Nat.leb_le r i) Hri), andb_true_r.
    destruct (decide (c = i)) as [->|Hc].
    + rewrite list_lookup_insert_eq in Hx by (rewrite length_map, length_seq; exact Hi).
      rewrite Nat.eqb_refl. simpl. congruence.
    + rewrite list_lookup_insert_ne in Hx by congruence.
      assert (Hcn : c < n).
      { apply lookup_lt_Some in Hx. rewrite length_map, length_seq in Hx. exact Hx. }
      rewrite lookup_tabulate in Hx by exact Hcn.
      rewrite (proj2 (Nat.eqb_neq c i) Hc). simpl. congruence.
  - apply lookup_ge_None in Ey.
    apply map_ext. intros c.
    rewrite (proj2 (Nat.leb_gt r i) ltac:(lia)), andb_false_r. reflexivity.
Qed.

Lemma lower_triangle_app (a b : list (list float)) :
  forall i0,
  lower_triangle i0 (a ++ b) = lower_triangle i0 a ++ lower_triangle (i0 + length a) b.
Proof.
  induction a as [|row a IH]; intros i0; simpl.
  - rewrite Nat.add_0_r. reflexivity.
  - rewrite IH, <- app_assoc. do 3 f_equal. lia.
Qed.

(** Row [i] of the matrix occupies the elements [begin, begin + i] of
    its triangular storage, where [begin] counts the elements of the rows
    before it. *)
Lemma lower_triangle_row (n : nat) (M : Matrix) (i : nat) (row : list float) :
  square n M -> M !! i = Some row ->
  slice_nat (lower_triangle 0 M)
      (length (lower_triangle 0 (take i M)))
      (length (lower_triangle 0 (take i M)) + i + 1)
    = take (S i) row /\
  length (lower_triangle 0 (take (S i) M))
    = length (lower_triangle 0 (take i M)) + i + 1 /\
  length row = n /\ i < n.
Proof.
  intros [Hlen Hrows] Hrow.
  assert (Hi : i < n) by (rewrite <- Hlen; eapply lookup_lt_Some; exact Hrow).
  assert (Hrown : length row = n).
  { rewrite Forall_forall in Hrows. apply Hrows.
    eapply list_elem_of_lookup_2. exact Hrow. }
  assert (Htake : length (take i M) = i) by (rewrite length_take; lia).
  split; [|split; [|split; assumption]].
  - rewrite <- (take_drop_middle M i row Hrow) at 1.
    rewrite lower_triangle_app, Htake. simpl.
    unfold slice_nat. rewrite drop_app_length.
    replace (length (lower_triangle 0 (take i M)) + i + 1
             - length (lower_triangle 0 (take i M))) with (S i) by lia.
    apply take_app_length'. rewrite length_take. lia.
  - rewrite (take_S_r M i row Hrow), lower_triangle_app, Htake.
    cbn [lower_triangle]. rewrite app_nil_r, length_app, length_take. lia.
Qed.

Lemma symmetric_at (M : Matrix) (r c : nat) :
  symmetric M -> at_ M r c = at_ M c r.
Proof. intros Hsym. unfold at_. rewrite (Hsym r c). reflexivity. Qed.

(** The loop of [_triangle_to_dense] over the rows [i0 .. i0 + m - 1]
    writes the entries of [M] whose larger index lies in that range. *)
Lemma fill_rows_tab (n : nat) (M : Matrix) :
  square n M -> symmetric M ->
  forall m i0 f,
  i0 + m <= n ->
  fill_rows (lower_triangle 0 M) (seq i0 m)
      (length (lower_triangle 0 (take i0 M))) (tab n f)
    = Ok (tab n (fun r c => if (i0 <=? Nat.max r c) && (Nat.max r c <? i0 + m)
                            then at_ M r c else f r c)).
Proof.
  intros Hsq Hsym. induction m as [|m IH]; intros i0 f Hm; simpl.
  - f_equal. apply tab_ext. intros r c _ _.
    destruct (i0 <=? Nat.max r c) eqn:E1, (Nat.max r c <? i0 + 0) eqn:E2;
      try reflexivity.
    apply Nat.leb_le in E1. apply Nat.ltb_lt in E2. lia.
  - destruct (lookup_lt_is_Some_2 M i0 ltac:(destruct Hsq; lia)) as [row Hrow].
    destruct (lower_triangle_row n M i0 row Hsq Hrow) as (Hslice & Hnext & Hrown & Hi0).
    rewrite Hslice.
    rewrite assign_row_tab by (rewrite ?length_take; lia). simpl.
    rewrite assign_col_tab by (rewrite ?length_take; lia). simpl.
    rewrite <- Hnext. rewrite IH by lia.
    f_equal. apply tab_ext. intros r c Hr Hc.
    assert (Hsrc : forall k, k <= i0 ->
              default 0%float (take (S i0) row !! k) = at_ M i0 k).
    { intros k Hk. rewrite lookup_take_lt by lia.
      unfold at_, entry. rewrite Hrow. reflexivity. }
    repeat match goal with
    | |- context [(?a <=? ?b)] => destruct (Nat.leb_spec a b)
    | |- context [(?a <? ?b)] => destruct (Nat.ltb_spec a b)
    | |- context [(?a =? ?b)] => destruct (Nat.eqb_spec a b)
    end; simpl; try reflexivity; try lia; subst;
      rewrite Hsrc by lia; try reflexivity.
    apply symmetric_at. exact Hsym.
Qed.

(** C2: for a symmetric [n] by [n] matrix [M], [_get_TriangleMat] gives
    the rows 0 .. i of the lower triangle in order, [n (n + 1) / 2]
    elements; from that length [_triangle_to_dense] recovers [n], reads
    row i from the elements [begin, begin + i] into the row and the column
    i, and returns [M]. *)
Theorem triangle_round_trip (n : nat) (M : Matrix) :
  square n M -> symmetric M ->
  exists triangle,
    _get_TriangleMat M = Ok (RealArr triangle) /\
    triangle = lower_triangle 0 M /\
    length triangle = n * (n + 1) / 2 /\
    nrow_of_length (length triangle) = n /\
    _triangle_to_dense (RealArr triangle) = Ok M.
Proof.
  intros Hsq Hsym. exists (lower_triangle 0 M).
  pose proof (square_triangle_length n M Hsq) as HL.
  assert (H2L : 2 * length (lower_triangle 0 M) = n * (n + 1)).
  { destruct Hsq as [Hlen Hrows].
    pose proof (lower_triangle_length M n 0 Hrows ltac:(lia)) as H.
    rewrite Hlen in H. lia. }
  pose proof (nrow_of_length_triangular n _ H2L) as Hnrow.
  split; [apply (get_TriangleMat_square n); exact Hsq|].
  split; [reflexivity|]. split; [exact HL|]. split; [exact Hnrow|].
  unfold _triangle_to_dense. simpl arr_floats. rewrite Hnrow, zeros2_tab.
  pose proof (fill_rows_tab n M Hsq Hsym n 0 (fun _ _ => 0%float) ltac:(lia)) as Hfill.
  simpl in Hfill. rewrite Hfill. f_equal.
  transitivity (tab n (at_ M)); [|symmetry; apply square_tab; exact Hsq].
  apply tab_ext. intros r c Hr Hc.
  destruct (Nat.ltb_spec (Nat.max r c) n); [reflexivity | lia].
Qed.

End TriangleFacts.

(** The round trip of [sample_matrix]. *)
Lemma triangle_round_trip_witness :
  _get_TriangleMat sample_matrix = Ok (RealArr [1; 2; 3; 4; 5; 6]%float) /\
  _triangle_to_dense (RealArr [1; 2; 3; 4; 5; 6]%float) = Ok sample_matrix.
Proof.
  destruct (triangle_round_trip 3 sample_matrix) as (t & Hflat & -> & _ & _ & Hdense).
  - split; [reflexivity | repeat constructor].
  - intros [|[|[|r]]] [|[|[|c]]]; reflexivity.
  - split; [exact Hflat | exact Hdense].
Defined.

(** On the lengths below 3000 the binary64 computation of the number of
    rows gives the integer of [nrow_of_length]. *)
Example nrow_binary64_agrees :
  forallb (fun L => PrimFloat.eqb (nrow_binary64 L)
                      (float_of_int64 (Z.of_nat (nrow_of_length L))))
          (seq 0 3000) = true.
Proof. vm_compute. reflexivity. Qed.

(** The number of rows in exact arithmetic. *)

Lemma round_below (x : R) (k : Z) :
  (IZR k <= x < IZR k + 1 / 2)%R -> round_half_even x = k.
Proof.
  intros Hx. unfold round_half_even.
  assert (Hk : k = Int_part x) by (apply Int_part_spec; lra).
  rewrite <- Hk. destruct (Rlt_dec (x - IZR k) (1 / 2)); [reflexivity | lra].
Qed.

Lemma round_above (x : R) (k : Z) :
  (IZR k - 1 / 2 < x < IZR k)%R -> round_half_even x = k.
Proof.
  intros Hx. unfold round_half_even.
  assert (Hk : k - 1 = Int_part x).
  { apply Int_part_spec. rewrite minus_IZR. lra. }
  rewrite <- Hk. rewrite minus_IZR.
  destruct (Rlt_dec (x - (IZR k - 1)) (1 / 2)); [lra|].
  destruct (Rlt_dec (1 / 2) (x - (IZR k - 1))); [lia | lra].
Qed.

Lemma sqrt_between (m s : Z) :
  0 <= s -> s * s <= m < (s + 1) * (s + 1) ->
  (IZR s <= R_sqrt.sqrt (IZR m) < IZR s + 1)%R.
Proof.
  intros Hs [Hlo Hhi].
  assert (Hs' : (0 <= IZR s)%R) by (apply IZR_le; exact Hs).
  split.
  - rewrite <- (sqrt_square (IZR s)) at 1 by exact Hs'.
    apply sqrt_le_1_alt. rewrite <- mult_IZR. apply IZR_le. exact Hlo.
  - rewrite <- (sqrt_square (IZR s + 1)) by lra.
    apply sqrt_lt_1_alt. split.
    + apply IZR_le. nia.
    + rewrite <- plus_IZR, <- mult_IZR. apply IZR_lt. exact Hhi.
Qed.

(** The integer computed by [nrow_of_length] is the rounded real
    expression, for every length. *)
Lemma nrow_of_length_real (L : nat) :
  nrow_real L = Z.of_nat (nrow_of_length L).
Proof.
  unfold nrow_real, nrow_of_length.
  set (m := 1 + 8 * Z.of_nat L).
  assert (Hm : 0 <= m) by lia.
  pose proof (Z.sqrt_spec m Hm) as Hspec. cbv zeta in Hspec.
  pose proof (Z.sqrt_nonneg m) as Hs.
  set (s := Z.sqrt m) in *.
  replace (Z.succ s * Z.succ s) with ((s + 1) * (s + 1)) in Hspec by lia.
  pose proof (sqrt_between m s Hs Hspec) as Hsqrt.
  rewrite Z2Nat.id by (apply Z.div_pos; lia).
  pose proof (Z.div_mod s 2 ltac:(lia)) as Hdiv.
  pose proof (Z.mod_pos_bound s 2 ltac:(lia)) as Hmod.
  set (k := s / 2) in *.
  destruct (Z.eq_dec (s mod 2) 0) as [Heven|Hodd].
  - (* s = 2k: the square root is not the even integer s, as m is odd *)
    assert (Hsk : s = 2 * k) by lia.
    assert (Hne : IZR s <> R_sqrt.sqrt (IZR m)).
    { intros Heq.
      assert (Hsq : (IZR s * IZR s = IZR m)%R).
      { rewrite Heq. apply sqrt_sqrt. apply IZR_le. exact Hm. }
      rewrite <- mult_IZR in Hsq. apply eq_IZR in Hsq. unfold m in Hsq. nia. }
    apply round_above. rewrite Hsk in *. rewrite mult_IZR in *. lra.
  - assert (Hsk : s = 2 * k + 1) by lia.
    apply round_below. rewrite Hsk in *. rewrite plus_IZR, mult_IZR in *. lra.
Qed.

(** ** Quadrupole components *)

(** C6 (as amended): with the index map [0,3,4,1,5,2] read as numpy reads
    it (output k is input map[k]), the permutation applied on load takes
    the file order (xx,yy,zz,xy,xz,yz) to (xx,xy,xz,yy,yz,zz);
    [_sort_quadrupole] takes (xx,xy,xz,yy,yz,zz) to (xx,yy,zz,xy,xz,yz);
    each is the inverse of the other, so composing them in either order
    gives back the six components. *)
Theorem quadrupole_permutations (xx yy zz xy xz yz : float) :
  take_indices (RealArr [xx; yy; zz; xy; xz; yz]) QUADRUPOLE_LOAD_MAP
    = Ok (RealArr [xx; xy; xz; yy; yz; zz]) /\
  _sort_quadrupole (RealArr [xx; xy; xz; yy; yz; zz])
    = Ok (RealArr [xx; yy; zz; xy; xz; yz]) /\
  (take_indices (RealArr [xx; yy; zz; xy; xz; yz]) QUADRUPOLE_LOAD_MAP
     ≫= _sort_quadrupole) = Ok (RealArr [xx; yy; zz; xy; xz; yz]) /\
  (_sort_quadrupole (RealArr [xx; xy; xz; yy; yz; zz])
     ≫= fun q => take_indices q QUADRUPOLE_LOAD_MAP)
    = Ok (RealArr [xx; xy; xz; yy; yz; zz]).
Proof. repeat split; reflexivity. Qed.

(** C6, the claim as written fails at its own example: on load the input
    [1,2,3,4,5,6] becomes [1,4,5,2,6,3], not [1,4,6,2,3,5]. *)
Lemma quadrupole_load_example :
  take_indices (RealArr [1; 2; 3; 4; 5; 6]%float) QUADRUPOLE_LOAD_MAP
    = Ok (RealArr [1; 4; 5; 2; 6; 3]%float) /\
  take_indices (RealArr [1; 2; 3; 4; 5; 6]%float) QUADRUPOLE_LOAD_MAP
    <> Ok (RealArr [1; 4; 6; 2; 3; 5]%float).
Proof.
  split; [reflexivity|].
  intros H.
  apply (f_equal (fun r => match r with
                           | Ok (RealArr (_ :: _ :: x :: _)) => PrimFloat.eqb x 5%float
                           | _ => false
                           end)) in H.
  vm_compute in H. discriminate.
Qed.

(** ** Shell type codes *)

Lemma coeffs_size_rows (rows : list (list float)) (k : nat) :
  Forall (fun row => length row = k) rows ->
  length (concat rows) = (length rows * k)%nat.
Proof.
  induction 1 as [|row rows Hrow _ IH]; simpl; [reflexivity|].
  rewrite length_app, IH, Hrow. reflexivity.
Qed.

(** C10: under the invariant of a shell [_get_TypeShell] returns a code:
    for one momentum [l] of kind [k], [-l] when [k] is 'p' and [l > 1],
    and [l] otherwise; for the SP shell, [-1].  The variable [kind] is
    never read unassigned. *)
Theorem get_TypeShell_total (shell : Shell) :
  shell_invariant shell ->
  (forall l k, angmoms shell = [l] -> kinds shell = [k] ->
     _get_TypeShell shell
       = Ok (if String.eqb k "p" && (1 <? l) then - l else l)) /\
  (length (angmoms shell) = 2%nat ->
     (2 * length (exponents shell))%nat = coeffs_size shell /\
     _get_TypeShell shell = Ok (-1)) /\
  (exists code, _get_TypeShell shell = Ok code).
Proof.
  intros (Hmom & Hkinds & Hrows & Hcols).
  assert (Hone : forall l k, angmoms shell = [l] -> kinds shell = [k] ->
            _get_TypeShell shell
              = Ok (if String.eqb k "p" && (1 <? l) then - l else l)).
  { intros l k Hl Hk. unfold _get_TypeShell. rewrite Hl, Hk. simpl.
    destruct (String.eqb k "p" && (1 <? l)); [f_equal; lia | reflexivity]. }
  assert (Htwo : length (angmoms shell) = 2%nat ->
            (2 * length (exponents shell))%nat = coeffs_size shell /\
            _get_TypeShell shell = Ok (-1)).
  { intros H2.
    assert (Hsize : (2 * length (exponents shell))%nat = coeffs_size shell).
    { unfold coeffs_size. rewrite (coeffs_size_rows _ _ Hcols), H2, Hrows. lia. }
    split; [exact Hsize|].
    unfold _get_TypeShell. rewrite H2. simpl.
    apply Nat.eqb_eq in Hsize. simpl in Hsize. rewrite Hsize. reflexivity. }
  split; [exact Hone|]. split; [exact Htwo|].
  destruct Hmom as [H1 | H01].
  - destruct (angmoms shell) as [|l [|]] eqn:El; try discriminate.
    destruct (kinds shell) as [|k [|]] eqn:Ek; try discriminate.
    eexists. apply (Hone l k); reflexivity.
  - exists (-1). apply Htwo. rewrite H01. reflexivity.
Qed.

(** The SP shell and a pure d shell satisfy the hypothesis of
    [get_TypeShell_total]. *)
Lemma get_TypeShell_total_witness :
  _get_TypeShell (MkShell 0 [0; 1] ["c"; "c"] [2; 1]%float [[1; 1]; [1; 1]]%float)
    = Ok (-1) /\
  _get_TypeShell (MkShell 0 [2] ["p"] [1]%float [[1]]%float) = Ok (-2).
Proof.
  split.
  - apply (get_TypeShell_total
             (MkShell 0 [0; 1] ["c"; "c"] [2; 1]%float [[1; 1]; [1; 1]]%float)).
    + repeat split; simpl; auto using Forall_cons, Forall_nil.
    + reflexivity.
  - apply (proj1 (get_TypeShell_total (MkShell 0 [2] ["p"] [1]%float [[1]]%float)
                    ltac:(repeat split; simpl; auto using Forall_cons, Forall_nil))
                 2 "p"); reflexivity.
Defined.

(** ** The basis summary of the serializer *)

(** C7, at a basis whose only shell is a pure d shell (code -2): the field
    "Pure/Cartesian d shells" is written with the value 0, although one
    shell has the code of a pure d shell.  The counter [pureDshells] counts
    the shells of code 2. *)
Theorem pure_d_shell_not_counted :
  map _get_TypeShell (shells pure_d_basis) = [Ok (-2)] /\
  exists f,
    _dump_basisInfo pure_d_basis [[0; 0; 0]%float] [] = Ok f /\
    f !! 4%nat = Some (IntScalar "Pure/Cartesian d shells" 0) /\
    f !! 8%nat = Some (IntArray "Shell types" [-2]).
Proof.
  split; [reflexivity|].
  eexists. split; [reflexivity|]. split; reflexivity.
Qed.

(** ** Density labels of the serializer *)

(** C8, at a record with a post-SCF density whose level of theory names
    none of MP2, MP3, CC, CI, or has no level of theory: [_dump_rdms]
    stops with UnboundLocalError on [namelevel] and writes nothing. *)
Theorem post_scf_without_level_fails :
  _dump_rdms [("post_scf", [[1]]%float)] (Some "hf") []
    = (Raise (UnboundLocalError "namelevel"), []) /\
  _dump_rdms [("post_scf_spin", [[1]]%float)] None []
    = (Raise (UnboundLocalError "namelevel"), []) /\
  _dump_rdms [("post_scf", [[1]]%float)] (Some "ccsd") []
    = (Ok (), [RealArray "Total CC Density" [1]%float]).
Proof. repeat split; reflexivity. Qed.

(** ** The single-frame assembler *)

Tactic Notation "bind_ok" hyp(H) "as" ident(x) ident(Hx) :=
  match type of H with
  | (mbind _ ?m) = _ => destruct m as [x|] eqn:Hx; simpl in H; [|discriminate H]
  end.

Lemma slice_fill_length {A} (l : list A) (b e : Z) (x : A) :
  length (slice_fill l b e x) = length l.
Proof.
  unfold slice_fill.
  set (n := Z.of_nat (length l)).
  assert (Hc : forall i, 0 <= Py.clamp n i <= n).
  { intros i. unfold Py.clamp. destruct (i <? 0) eqn:E; lia. }
  pose proof (Hc b). pose proof (Hc e).
  destruct (Z.to_nat (Py.clamp n b) <? Z.to_nat (Py.clamp n e))%nat eqn:E; [|reflexivity].
  apply Nat.ltb_lt in E.
  rewrite !length_app, length_take, length_replicate, length_drop. lia.
Qed.

Lemma slice_fill_lookup {A} (l : list A) (e : Z) (x : A) (i : nat) :
  0 <= e -> (i < length l)%nat ->
  slice_fill l 0 e x !! i = if Z.of_nat i <? e then Some x else l !! i.
Proof.
  intros He Hi. unfold slice_fill.
  set (n := Z.of_nat (length l)).
  assert (H0 : Py.clamp n 0 = 0) by (unfold Py.clamp; simpl; lia).
  assert (He' : Py.clamp n e = Z.min e n).
  { unfold Py.clamp. destruct (e <? 0) eqn:E; lia. }
  rewrite H0, He'. change (Z.to_nat 0) with 0%nat. rewrite take_0, app_nil_l.
  destruct (0 <? Z.to_nat (Z.min e n))%nat eqn:E.
  - apply Nat.ltb_lt in E. rewrite Nat.sub_0_r.
    destruct (Z.of_nat i <? e) eqn:Ei.
    + apply Z.ltb_lt in Ei. rewrite lookup_app_l by (rewrite length_replicate; lia).
      apply lookup_replicate_2. lia.
    + apply Z.ltb_ge in Ei.
      rewrite lookup_app_r by (rewrite length_replicate; lia).
      rewrite length_replicate, lookup_drop. f_equal. lia.
  - apply Nat.ltb_ge in E.
    destruct (Z.of_nat i <? e) eqn:Ei; [|reflexivity].
    apply Z.ltb_lt in Ei. lia.
Qed.

Lemma restricted_occs_spec (n a b : Z) :
  0 <= n -> 0 <= b <= a ->
  exists mo_occs,
    restricted_occs n a b = Ok mo_occs /\
    length mo_occs = Z.to_nat n /\
    forall i, (i < Z.to_nat n)%nat ->
      mo_occs !! i = Some (if Z.of_nat i <? b then 2%float
                           else if Z.of_nat i <? a then 1%float
                           else 0%float).
Proof.
  intros Hn Hab. unfold restricted_occs, zeros.
  destruct (n <? 0) eqn:E; [apply Z.ltb_lt in E; lia|]. simpl.
  eexists. split; [reflexivity|]. split.
  - rewrite !slice_fill_length, length_replicate. reflexivity.
  - intros i Hi.
    rewrite slice_fill_lookup by (rewrite ?slice_fill_length, ?length_replicate; lia).
    destruct (Z.of_nat i <? b); [reflexivity|].
    rewrite slice_fill_lookup by (rewrite ?length_replicate; lia).
    destruct (Z.of_nat i <? a); [reflexivity|].
    apply lookup_replicate_2. lia.
Qed.

Lemma getkey_ok (fchk : gmap string value) (k : string) (v : value) :
  getkey fchk k = Ok v <-> fchk !! k = Some v.
Proof. unfold getkey. destruct (fchk !! k); split; congruence. Qed.

Lemma as_int_ok (what : string) (v : value) (z : Z) :
  as_int what v = Ok z -> v = VNum (NInt z).
Proof. destruct v as [|[]|]; simpl; unfold unsupported; congruence. Qed.

Lemma check_electrons_ok (a b : Z) :
  check_electrons a b = Ok () <-> 0 <= b <= a /\ 0 < a + b.
Proof.
  unfold check_electrons.
  destruct (a <? 0) eqn:Ea, (b <? 0) eqn:Eb, (a + b <=? 0) eqn:Es, (a <? b) eqn:El;
    simpl; split; try discriminate; try reflexivity; lia.
Qed.

Lemma reshape2_nonneg (a : ndarray) (d0 d1 : Z) (m : array2) :
  reshape2 a d0 d1 = Ok m -> 0 <= d0.
Proof.
  unfold reshape2. destruct (d0 <? 0) eqn:E; simpl; [discriminate|]. lia.
Qed.


Lemma load_orbitals_inv (fchk : gmap string value) (nbasis : value) (o : Orbitals) :
  load_orbitals fchk nbasis = Ok o ->
  fchk !! "Number of alpha electrons" = Some (VNum (NInt (o_nalpha o))) /\
  fchk !! "Number of beta electrons" = Some (VNum (NInt (o_nbeta o))) /\
  check_electrons (o_nalpha o) (o_nbeta o) = Ok () /\
  nbasis_indep_of fchk nbasis = VNum (NInt (o_nbasis_indep o)) /\
  0 <= o_nbasis_indep o.
Proof.
  unfold load_orbitals. intros H.
  bind_ok H as va Hva. bind_ok H as vb Hvb. bind_ok H as a Ha. bind_ok H as b Hb.
  bind_ok H as u Hu. bind_ok H as norba Hnorba. bind_ok H as c Hc.
  bind_ok H as ve Hve. bind_ok H as n Hn.
  destruct ve as [| |e]; try discriminate. injection H as <-. simpl.
  apply getkey_ok in Hva, Hvb. apply as_int_ok in Ha, Hb, Hn. subst va vb.
  destruct u.
  repeat split; try assumption.
  bind_ok Hc as v Hv. unfold reshape_T in Hc. destruct v; try discriminate.
  rewrite Hn in Hc. simpl in Hc. bind_ok Hc as d1 Hd1. bind_ok Hc as m Hm.
  eapply reshape2_nonneg; eassumption.
Qed.

(** The count that part D takes is the one the file declares. *)
Lemma independent_count_value (fchk : gmap string value) (nbasis : value) (n : Z) :
  fchk !! "Number of basis functions" = Some nbasis ->
  independent_count fchk n ->
  nbasis_indep_of fchk nbasis = VNum (NInt n).
Proof.
  unfold independent_count, nbasis_indep_of. intros Hnb H.
  destruct (fchk !! "Number of independant functions") as [v|]; simpl; [exact H|].
  destruct (fchk !! "Number of independent functions") as [v|]; simpl; [exact H|].
  congruence.
Qed.



Section LoaderFacts.

Variable amu : float.
Variable fnmatch : string -> string -> bool.
Variable float_of_string : string -> option float.

Lemma load_one_store (lit lit' : list string) (fchk : gmap string value) :
  _load_fchk_low fnmatch float_of_string (Some LOAD_ONE_LABELS) lit = (Ok fchk, lit') ->
  load_one amu fnmatch float_of_string lit = (assemble amu fchk, lit').
Proof. intros H. unfold load_one, mbind, LitM_bind. rewrite H. reflexivity. Qed.

(** C5: when a file has no field 'Beta Orbital Energies', declares
    [a >= b > 0] alpha and beta electrons and is loaded, the record holds
    restricted orbitals whose occupation array has the length of the
    independent-function count [n] that the file declares (in its field
    'Number of independant functions' or, without it, 'Number of
    independent functions', or, without both, as its number of basis
    functions); its entries are 2.0 below index [b], 1.0 from [b] up to
    [a], and 0.0 after. *)
Theorem restricted_occupations (lit lit' : list string) (fchk : gmap string value)
    (r : LoadOne) (n a b : Z) :
  _load_fchk_low fnmatch float_of_string (Some LOAD_ONE_LABELS) lit = (Ok fchk, lit') ->
  load_one amu fnmatch float_of_string lit = (Ok r, lit') ->
  fchk !! "Beta Orbital Energies" = None ->
  fchk !! "Number of alpha electrons" = Some (VNum (NInt a)) ->
  fchk !! "Number of beta electrons" = Some (VNum (NInt b)) ->
  independent_count fchk n ->
  0 < b <= a ->
  mo_kind (r_mo r) = "restricted" /\
  length (occs (r_mo r)) = Z.to_nat n /\
  forall i, (i < Z.to_nat n)%nat ->
    occs (r_mo r) !! i = Some (if Z.of_nat i <? b then 2%float
                               else if Z.of_nat i <? a then 1%float
                               else 0%float).
Proof.
  intros Hstore Hload Hbeta Ha Hb Hcount Hab.
  rewrite (load_one_store _ _ _ Hstore) in Hload. injection Hload as Hload.
  unfold assemble in Hload.
  bind_ok Hload as s Hs. bind_ok Hload as sh Hsh. bind_ok Hload as nbasis Hnb.
  bind_ok Hload as rd Hrd. bind_ok Hload as mo Hmo. destruct mo as [mo rd'].
  bind_ok Hload as ex Hex. bind_ok Hload as mom Hmom.
  injection Hload as <-. simpl.
  apply getkey_ok in Hnb.
  pose proof (independent_count_value _ _ _ Hnb Hcount) as Hn.
  unfold load_mo in Hmo. bind_ok Hmo as o Ho. rewrite Hbeta in Hmo.
  bind_ok Hmo as mo_occs Hoccs. bind_ok Hmo as rd'' Hpop. injection Hmo as <- <-. simpl.
  destruct (load_orbitals_inv _ _ _ Ho) as (Ha' & Hb' & _ & Hn' & Hn0).
  rewrite Ha in Ha'. rewrite Hb in Hb'. rewrite Hn in Hn'.
  injection Ha' as ->. injection Hb' as ->. injection Hn' as ->.
  destruct (restricted_occs_spec (o_nbasis_indep o) (o_nalpha o) (o_nbeta o))
    as (occs' & Hoccs' & Hlen & Hnth); [lia | lia |].
  rewrite Hoccs in Hoccs'. injection Hoccs' as <-.
  split; [reflexivity|]. split; assumption.
Qed.


(** C3 (as amended): once the fields are read and parts A to C of
    [load_one] have passed, electron counts with [a < 0], [b < 0] or
    [a + b <= 0] make [load_one] fail through [lit.error], the exception of
    the parse errors, with the message "The number of electrons is not
    positive."; counts that pass this check with [a < b] make it raise
    ValueError; counts with [0 <= b <= a] and [0 < a + b] pass both
    checks. *)
Theorem electron_count_errors (lit lit' : list string) (fchk : gmap string value)
    (a b : Z) :
  _load_fchk_low fnmatch float_of_string (Some LOAD_ONE_LABELS) lit = (Ok fchk, lit') ->
  is_ok (load_simple amu fchk) = true ->
  is_ok (load_obasis fchk) = true ->
  is_ok (getkey fchk "Number of basis functions") = true ->
  is_ok (load_rdms fchk) = true ->
  fchk !! "Number of alpha electrons" = Some (VNum (NInt a)) ->
  fchk !! "Number of beta electrons" = Some (VNum (NInt b)) ->
  (a < 0 \/ b < 0 \/ a + b <= 0 ->
     load_one amu fnmatch float_of_string lit
       = (Raise (LitError "The number of electrons is not positive."), lit')) /\
  (0 <= a -> 0 <= b -> 0 < a + b -> a < b ->
     load_one amu fnmatch float_of_string lit = (Raise ValueError, lit')) /\
  (0 <= b <= a -> 0 < a + b -> check_electrons a b = Ok ()).
Proof.
  intros Hstore HA HB Hnb HC Ha Hb.
  rewrite (load_one_store _ _ _ Hstore).
  assert (Hasm : assemble amu fchk
                 = match check_electrons a b with
                   | Raise e => Raise e
                   | Ok _ => assemble amu fchk
                   end).
  { destruct (check_electrons a b) eqn:Hchk; [reflexivity|].
    unfold assemble.
    destruct (load_simple amu fchk); [|discriminate]. simpl.
    destruct (load_obasis fchk); [|discriminate]. simpl.
    destruct (getkey fchk "Number of basis functions"); [|discriminate]. simpl.
    destruct (load_rdms fchk); [|discriminate]. simpl.
    unfold load_mo, load_orbitals, getkey. rewrite Ha, Hb. simpl.
    rewrite Hchk. reflexivity. }
  split; [|split].
  - intros Hneg. rewrite Hasm. unfold check_electrons.
    destruct (a <? 0) eqn:E1, (b <? 0) eqn:E2, (a + b <=? 0) eqn:E3;
      simpl; try reflexivity; lia.
  - intros H0a H0b Hsum Hlt. rewrite Hasm. unfold check_electrons.
    destruct (a <? 0) eqn:E1, (b <? 0) eqn:E2, (a + b <=? 0) eqn:E3,
             (a <? b) eqn:E4; simpl; try reflexivity; lia.
  - intros Hba Hsum. apply check_electrons_ok. lia.
Qed.

Lemma load_rdms_no_scf (fchk : gmap string value) (rdms : gmap string Matrix) :
  load_rdms fchk = Ok rdms ->
  fchk !! "Total SCF Density" = None ->
  rdms !! "scf" = None.
Proof.
  intros H Hscf.
  assert (H0 : _load_dm "Total SCF Density" fchk ∅ "scf" = Ok ∅).
  { unfold _load_dm. rewrite Hscf. reflexivity. }
  unfold load_rdms in H. rewrite H0 in H. simpl in H.
  assert (Hstep : forall label key out out',
            _load_dm label fchk out key = Ok out' -> key <> "scf" ->
            out !! "scf" = None -> out' !! "scf" = None).
  { intros label key out out' Hdm Hkey Hout. unfold _load_dm in Hdm.
    destruct (fchk !! label); [|congruence].
    bind_ok Hdm as m Hm. injection Hdm as <-.
    rewrite lookup_insert_ne; auto. }
  bind_ok H as d1 Hd1.
  apply Hstep in Hd1; [|discriminate|apply lookup_empty].
  simpl in H.
  repeat match type of H with
  | (mbind _ (_load_dm ?l fchk ?d ?k)) = _ =>
      let d' := fresh "d" in let Hd := fresh "Hd" in
      destruct (_load_dm l fchk d k) as [d'|] eqn:Hd; simpl in H; [|discriminate H];
      apply Hstep in Hd; [|discriminate|assumption]
  end.
  congruence.
Qed.


End LoaderFacts.


Ltac vm_refl :=
  match goal with
  | |- _ = ?b => vm_cast_no_check (@eq_refl _ b)
  end.

(** The sample file with 3 alpha and 2 beta electrons, which declares 3
    basis functions and no count of independent functions, is loaded
    with occupations [2, 2, 1]; the file of 3 basis functions that
    declares 2 independent functions, 2 alpha electrons and 1 beta
    electron is loaded with occupations [2, 1]. *)
Lemma restricted_occupations_witness :
  match load_one sample_amu glob float_of_small_int
          (sample_file "3" "2" scf_density_lines) with
  | (Ok r, _) =>
      occs (r_mo r) = [2; 2; 1]%float /\
      mo_kind (r_mo r) = "restricted" /\
      length (occs (r_mo r)) = Z.to_nat 3 /\
      forall i, (i < Z.to_nat 3)%nat ->
        occs (r_mo r) !! i = Some (if Z.of_nat i <? 2 then 2%float
                                   else if Z.of_nat i <? 3 then 1%float
                                   else 0%float)
  | (Raise _, _) => False
  end /\
  match load_one sample_amu glob float_of_small_int
          (sample_dependent "Number of independant functions" scf_density_lines) with
  | (Ok r, _) =>
      occs (r_mo r) = [2; 1]%float /\
      mo_kind (r_mo r) = "restricted" /\
      length (occs (r_mo r)) = Z.to_nat 2 /\
      forall i, (i < Z.to_nat 2)%nat ->
        occs (r_mo r) !! i = Some (if Z.of_nat i <? 1 then 2%float
                                   else if Z.of_nat i <? 2 then 1%float
                                   else 0%float)
  | (Raise _, _) => False
  end.
Proof.
  split.
  - destruct (load_one sample_amu glob float_of_small_int
                (sample_file "3" "2" scf_density_lines)) as [[r|e] lit'] eqn:Hload.
    + split.
      * apply (f_equal (fun x => match fst x with
                                 | Ok r => occs (r_mo r)
                                 | Raise _ => []
                                 end)) in Hload.
        vm_compute in Hload. symmetry. exact Hload.
      * assert (Hlit : lit' = []).
        { apply (f_equal snd) in Hload. vm_compute in Hload. congruence. }
        subst lit'.
        apply (restricted_occupations sample_amu glob float_of_small_int
                 (sample_file "3" "2" scf_density_lines) []
                 (store_of LOAD_ONE_LABELS (sample_file "3" "2" scf_density_lines))
                 r 3 3 2 ltac:(vm_refl) Hload ltac:(vm_refl)
                 ltac:(vm_refl) ltac:(vm_refl) ltac:(vm_compute; reflexivity)
                 ltac:(lia)).
    + apply (f_equal (fun x => is_ok (fst x))) in Hload.
      vm_compute in Hload. discriminate.
  - destruct (load_one sample_amu glob float_of_small_int
                (sample_dependent "Number of independant functions" scf_density_lines))
      as [[r|e] lit'] eqn:Hload.
    + split.
      * apply (f_equal (fun x => match fst x with
                                 | Ok r => occs (r_mo r)
                                 | Raise _ => []
                                 end)) in Hload.
        vm_compute in Hload. symmetry. exact Hload.
      * assert (Hlit : lit' = []).
        { apply (f_equal snd) in Hload. vm_compute in Hload. congruence. }
        subst lit'.
        apply (restricted_occupations sample_amu glob float_of_small_int
                 (sample_dependent "Number of independant functions" scf_density_lines)
                 []
                 (store_of LOAD_ONE_LABELS
                    (sample_dependent "Number of independant functions"
                       scf_density_lines))
                 r 2 2 1 ltac:(vm_refl) Hload ltac:(vm_refl)
                 ltac:(vm_refl) ltac:(vm_refl) ltac:(vm_compute; reflexivity)
                 ltac:(lia)).
    + apply (f_equal (fun x => is_ok (fst x))) in Hload.
      vm_compute in Hload. discriminate.
Defined.

(** The counts (-1, 0) and (0, 0) end in [lit.error], (2, 3) in
    ValueError, and (3, 2) passes the checks. *)
Lemma electron_count_errors_witness :
  fst (load_one sample_amu glob float_of_small_int (sample_file "-1" "0" []))
    = Raise (LitError "The number of electrons is not positive.") /\
  fst (load_one sample_amu glob float_of_small_int (sample_file "0" "0" []))
    = Raise (LitError "The number of electrons is not positive.") /\
  fst (load_one sample_amu glob float_of_small_int (sample_file "2" "3" []))
    = Raise ValueError /\
  check_electrons 3 2 = Ok ().
Proof.
  split; [|split; [|split]].
  - rewrite (proj1 (electron_count_errors sample_amu glob float_of_small_int
               (sample_file "-1" "0" []) []
               (store_of LOAD_ONE_LABELS (sample_file "-1" "0" [])) (-1) 0
               ltac:(vm_refl) ltac:(vm_refl) ltac:(vm_refl) ltac:(vm_refl)
               ltac:(vm_refl) ltac:(vm_refl) ltac:(vm_refl))); [reflexivity | lia].
  - rewrite (proj1 (electron_count_errors sample_amu glob float_of_small_int
               (sample_file "0" "0" []) []
               (store_of LOAD_ONE_LABELS (sample_file "0" "0" [])) 0 0
               ltac:(vm_refl) ltac:(vm_refl) ltac:(vm_refl) ltac:(vm_refl)
               ltac:(vm_refl) ltac:(vm_refl) ltac:(vm_refl))); [reflexivity | lia].
  - rewrite (proj1 (proj2 (electron_count_errors sample_amu glob float_of_small_int
               (sample_file "2" "3" []) []
               (store_of LOAD_ONE_LABELS (sample_file "2" "3" [])) 2 3
               ltac:(vm_refl) ltac:(vm_refl) ltac:(vm_refl) ltac:(vm_refl)
               ltac:(vm_refl) ltac:(vm_refl) ltac:(vm_refl)))); [reflexivity | lia ..].
  - apply (proj2 (proj2 (electron_count_errors sample_amu glob float_of_small_int
               (sample_file "3" "2" scf_density_lines) []
               (store_of LOAD_ONE_LABELS (sample_file "3" "2" scf_density_lines)) 3 2
               ltac:(vm_refl) ltac:(vm_refl) ltac:(vm_refl) ltac:(vm_refl)
               ltac:(vm_refl) ltac:(vm_refl) ltac:(vm_refl)))); lia.
Defined.



(** C3, the claim as written fails at the counts (-1, 0): the exception
    that [load_one] raises is the one [lit.error] raises, the same kind
    as for a malformed header, not one distinct from the parse errors. *)
Lemma electron_count_error_is_lit_error :
  fst (_load_fchk_low glob float_of_small_int (Some LOAD_ONE_LABELS) ["sample"; "SP"])
    = Raise (LitError header_error) /\
  fst (load_one sample_amu glob float_of_small_int (sample_file "-1" "0" []))
    = Raise (LitError "The number of electrons is not positive.") /\
  ~ (exists e,
       fst (load_one sample_amu glob float_of_small_int (sample_file "-1" "0" []))
         = Raise e /\
       is_lit_error e = false).
Proof.
  assert (H : fst (load_one sample_amu glob float_of_small_int (sample_file "-1" "0" []))
              = Raise (LitError "The number of electrons is not positive."))
    by vm_refl.
  split; [vm_refl|]. split; [exact H|].
  intros (e & He & Hkind). rewrite H in He. injection He as <-. discriminate.
Qed.

(** ** The trajectory extractor *)

Lemma every_second_lookup {A} (l : list A) (k : nat) :
  Py.every_second l !! k = l !! (2 * k)%nat.
Proof.
  revert l. induction k as [|k IH]; intros l.
  - destruct l as [|x [|y l]]; reflexivity.
  - destruct l as [|x [|y l]]; try reflexivity.
    simpl Py.every_second. rewrite lookup_cons_ne_0 by lia. simpl Nat.pred.
    rewrite IH. replace (2 * S k)%nat with (S (S (2 * k))) by lia. reflexivity.
Qed.

Lemma every_second_length {A} (l : list A) :
  length (Py.every_second l) = ((length l + 1) / 2)%nat.
Proof.
  assert (H : forall n (l : list A), (length l <= n)%nat ->
            length (Py.every_second l) = ((length l + 1) / 2)%nat).
  { induction n as [|n IH]; intros l' Hl.
    - destruct l'; [reflexivity | simpl in Hl; lia].
    - destruct l' as [|x [|y l']]; try reflexivity.
      simpl Py.every_second. simpl length. rewrite IH by (simpl in Hl; lia).
      replace (S (S (length l')) + 1)%nat with ((length l' + 1) + 1 * 2)%nat by lia.
      rewrite Nat.div_add by lia. lia. }
  apply (H (length l)). lia.
Qed.

Lemma zip4_lookup {A B C D} (l1 : list A) (l2 : list B) (l3 : list C) (l4 : list D)
    (k : nat) (a : A) (b : B) (c : C) (d : D) :
  zip4 l1 l2 l3 l4 !! k = Some (a, b, c, d) <->
  l1 !! k = Some a /\ l2 !! k = Some b /\ l3 !! k = Some c /\ l4 !! k = Some d.
Proof.
  revert l2 l3 l4 k.
  induction l1 as [|a1 l1 IH]; intros l2 l3 l4 k.
  - simpl. split; [discriminate | intros [H _]; discriminate].
  - destruct l2 as [|b1 l2]; [simpl; split; [discriminate | intros (_ & H & _); discriminate]|].
    destruct l3 as [|c1 l3];
      [simpl; split; [discriminate | intros (_ & _ & H & _); discriminate]|].
    destruct l4 as [|d1 l4];
      [simpl; split; [discriminate | intros (_ & _ & _ & H); discriminate]|].
    destruct k as [|k]; simpl.
    + split; [intros H; injection H as -> -> -> ->; auto|].
      intros (H1 & H2 & H3 & H4). congruence.
    + apply IH.
Qed.

Lemma zip4_length {A B C D} (l1 : list A) (l2 : list B) (l3 : list C) (l4 : list D) :
  length (zip4 l1 l2 l3 l4)
    = Nat.min (Nat.min (length l1) (length l2)) (Nat.min (length l3) (length l4)).
Proof.
  revert l2 l3 l4. induction l1 as [|a1 l1 IH]; intros l2 l3 l4; [reflexivity|].
  destruct l2 as [|b1 l2]; [reflexivity|].
  destruct l3 as [|c1 l3]; [simpl; lia|].
  destruct l4 as [|d1 l4]; [simpl; lia|].
  simpl. rewrite IH. lia.
Qed.

Lemma chunks_length {A} (n k : nat) (l : list A) : length (chunks n k l) = n.
Proof. revert l. induction n as [|n IH]; intros l; simpl; [|rewrite IH]; reflexivity. Qed.

Lemma chunks_lookup {A} (n k : nat) (l : list A) (i : nat) :
  (i < n)%nat -> chunks n k l !! i = Some (take k (drop (i * k) l)).
Proof.
  revert l i. induction n as [|n IH]; intros l i Hi; [lia|].
  destruct i as [|i]; simpl; [reflexivity|].
  rewrite IH by lia. rewrite drop_drop. reflexivity.
Qed.

(** The blocks of a field of whole blocks. *)
Lemma reshape_steps_length (a : ndarray) (natom : nat) :
  (0 < natom)%nat ->
  (arr_size a mod (natom * 3) = 0)%nat ->
  exists blocks,
    reshape_steps (VArr a) natom = Ok blocks /\
    length blocks = (arr_size a / (natom * 3))%nat.
Proof.
  intros Hnatom Hmod. unfold reshape_steps.
  destruct (Nat.eqb_spec (natom * 3) 0) as [E|_]; [lia|].
  rewrite Hmod. simpl. eexists. split; [reflexivity|].
  destruct a; simpl; rewrite !length_map, chunks_length; reflexivity.
Qed.

(** The results taken in pairs. *)
Lemma strided_length (l : list num) (geoms grads : list array2) :
  length (zip4 (Py.every_second l) (Py.every_second (drop 1 l)) geoms grads)
    = Nat.min (length l / 2) (Nat.min (length geoms) (length grads)).
Proof.
  rewrite zip4_length, !every_second_length, length_drop.
  set (n := length l).
  assert (Hle : (n / 2 <= (n + 1) / 2)%nat) by (apply Nat.Div0.div_le_mono; lia).
  destruct n as [|n']; [simpl; lia|].
  replace (S n' - 1 + 1)%nat with (S n') by lia. lia.
Qed.

(** The trajectory of a point has the steps that its fields hold. *)
Lemma paired_steps_trajectory (fchk : gmap string value) (prefix : string)
    (natom ip n : nat) :
  paired_steps fchk prefix natom ip = Some n ->
  exists trajectory,
    point_trajectory prefix fchk natom ip = Ok trajectory /\
    length trajectory = n.
Proof.
  unfold paired_steps, point_trajectory, getkey.
  destruct (fchk !! point_label prefix ip "Results for each geome")
    as [[| |results]|]; try discriminate.
  destruct (fchk !! point_label prefix ip "Geometries")
    as [[| |geometries]|]; try discriminate.
  destruct (fchk !! point_label prefix ip "Gradient at each geome")
    as [[| |gradients]|]; try discriminate.
  destruct (Nat.ltb_spec 0 natom) as [Hnatom|_]; [|discriminate].
  destruct (Nat.eqb_spec (arr_size geometries mod (natom * 3)) 0) as [Hgeo|_];
    [|discriminate].
  destruct (Nat.eqb_spec (arr_size gradients mod (natom * 3)) 0) as [Hgra|_];
    [|discriminate].
  cbn [andb]. intros H. injection H as <-.
  destruct (reshape_steps_length geometries natom Hnatom Hgeo) as (geoms & Hgeoms & Hlg).
  destruct (reshape_steps_length gradients natom Hnatom Hgra) as (grads & Hgrads & Hld).
  cbn [mbind result_bind strided]. rewrite Hgeoms, Hgrads. cbn [mbind result_bind].
  eexists. split; [reflexivity|].
  rewrite strided_length, Hlg, Hld. f_equal.
  destruct results; simpl; rewrite length_map; reflexivity.
Qed.

Section TrajectoryFacts.

Variable fchk : gmap string value.
Variable prefix : string.
Variables title atnums atcorenums : value.
Hypothesis Htitle : fchk !! "title" = Some title.
Hypothesis Hatnums : fchk !! "Atomic numbers" = Some atnums.
Hypothesis Hatcorenums : fchk !! "Nuclear charges" = Some atcorenums.

Lemma make_frame_ok (ip np istep : nat) (nstep : Z) (step : num * num * array2 * array2) :
  exists data,
    make_frame prefix fchk ip np istep nstep step = Ok data /\
    frame_meta data = (ip, np, istep, nstep).
Proof.
  destruct step as [[[energy recor] atcoords] gradients].
  unfold make_frame, getkey. rewrite Htitle, Hatnums, Hatcorenums. simpl.
  eexists. split; reflexivity.
Qed.

Lemma yield_steps_ok (ip np : nat) (nstep : Z) (trajectory : list (num * num * array2 * array2)) :
  forall istep,
  exists frames,
    yield_steps prefix fchk ip np nstep istep trajectory = (frames, Ok ()) /\
    map frame_meta frames
      = map (fun k => meta ip np k nstep) (seq istep (length trajectory)).
Proof.
  induction trajectory as [|step trajectory IH]; intros istep; simpl.
  - exists []. split; reflexivity.
  - destruct (make_frame_ok ip np istep nstep step) as (data & -> & Hmeta).
    destruct (IH (S istep)) as (frames & -> & Hframes).
    exists (data :: frames). split; [reflexivity|].
    simpl. rewrite Hmeta, Hframes. reflexivity.
Qed.

Variable natom : nat.
Variable npoint : nat.

Lemma yield_points_ok (nsteps : list Z) :
  forall ip,
  (forall k nstep, nsteps !! k = Some nstep -> consistent fchk prefix natom (ip + k) nstep) ->
  exists frames,
    yield_points prefix fchk natom npoint ip nsteps = (frames, Ok ()) /\
    map frame_meta frames = point_major npoint ip nsteps.
Proof.
  induction nsteps as [|nstep nsteps IH]; intros ip Hall; simpl.
  - exists []. split; reflexivity.
  - destruct (Hall 0%nat nstep eq_refl) as (n & Hn & Hlen).
    rewrite Nat.add_0_r in Hn.
    destruct (paired_steps_trajectory _ _ _ _ _ Hn) as (trajectory & Htraj & <-).
    rewrite Htraj. rewrite (proj2 (Z.eqb_eq _ _) Hlen). simpl.
    destruct (yield_steps_ok ip npoint nstep trajectory 0) as (frames & -> & Hframes).
    destruct (IH (S ip)) as (frames' & -> & Hframes').
    { intros k nstep' Hk. replace (S ip + k)%nat with (ip + S k)%nat by lia.
      apply Hall. exact Hk. }
    exists (frames ++ frames'). split; [reflexivity|].
    rewrite map_app, Hframes, Hframes'. f_equal. f_equal. f_equal. lia.
Qed.

Lemma yield_points_mismatch (nsteps : list Z) :
  forall ip k nstep n,
  nsteps !! k = Some nstep ->
  (forall j nstep_j, (j < k)%nat -> nsteps !! j = Some nstep_j ->
     consistent fchk prefix natom (ip + j) nstep_j) ->
  paired_steps fchk prefix natom (ip + k) = Some n ->
  Z.of_nat n <> nstep ->
  exists frames,
    yield_points prefix fchk natom npoint ip nsteps = (frames, Raise AssertionError) /\
    map frame_meta frames = point_major npoint ip (take k nsteps).
Proof.
  induction nsteps as [|nstep0 nsteps IH]; intros ip k nstep n Hk Hbefore Hn Hlen.
  - discriminate.
  - destruct k as [|k]; simpl.
    + injection Hk as ->. rewrite Nat.add_0_r in Hn.
      destruct (paired_steps_trajectory _ _ _ _ _ Hn) as (trajectory & Htraj & <-).
      rewrite Htraj. rewrite (proj2 (Z.eqb_neq _ _) Hlen). simpl.
      exists []. split; reflexivity.
    + destruct (Hbefore 0%nat nstep0 ltac:(lia) eq_refl) as (n0 & Hn0 & Hlen0).
      rewrite Nat.add_0_r in Hn0.
      destruct (paired_steps_trajectory _ _ _ _ _ Hn0) as (traj0 & Htraj0 & <-).
      rewrite Htraj0. rewrite (proj2 (Z.eqb_eq _ _) Hlen0). simpl.
      destruct (yield_steps_ok ip npoint nstep0 traj0 0) as (frames & -> & Hframes).
      destruct (IH (S ip) k nstep n) as (frames' & -> & Hframes').
      * exact Hk.
      * intros j nstep_j Hj Hjk. replace (S ip + j)%nat with (ip + S j)%nat by lia.
        apply Hbefore; [lia | exact Hjk].
      * replace (S ip + k)%nat with (ip + S k)%nat by lia. exact Hn.
      * exact Hlen.
      * exists (frames ++ frames'). split; [reflexivity|].
        rewrite map_app, Hframes, Hframes'. f_equal. f_equal. f_equal. lia.
Qed.

End TrajectoryFacts.

(** C4: when the fields of a trajectory file are read, with the title,
    the atomic numbers and the nuclear charges among them, [load_many]
    yields frames in point-major, step-minor order, each with the
    metadata (ipoint, npoint, istep, nstep): index of the point from 0,
    number of points, index of the step from 0, declared number of steps
    of the point.  The paired steps of a point are counted on its three
    fields: a pair of results, a block of geometries and a block of
    gradients per step, up to the shortest field.  If every point holds
    as many paired steps as the file declares for it, the generator ends
    normally after these frames; at the first point whose number of
    paired steps differs from the declared one the assertion fails
    (AssertionError, not [lit.error]), after the frames of the points
    before it.  For declared counts [3, 2] the order is
    (0,2,0,3), (0,2,1,3), (0,2,2,3), (1,2,0,2), (1,2,1,2). *)
Theorem trajectory_frames (fnmatch : string -> string -> bool)
    (float_of_string : string -> option float) (lit lit' : list string)
    (fchk : gmap string value) (prefix : string) (nsteps : list Z)
    (title atcorenums : value) (atnums : ndarray) :
  _load_fchk_low fnmatch float_of_string (Some LOAD_MANY_LABELS) lit = (Ok fchk, lit') ->
  declared_steps fchk prefix nsteps ->
  fchk !! "title" = Some title ->
  fchk !! "Atomic numbers" = Some (VArr atnums) ->
  fchk !! "Nuclear charges" = Some atcorenums ->
  ((forall k nstep, nsteps !! k = Some nstep ->
      consistent fchk prefix (arr_size atnums) k nstep) ->
   exists frames,
     load_many fnmatch float_of_string lit = ((frames, Ok ()), lit') /\
     map frame_meta frames = point_major (length nsteps) 0 nsteps) /\
  (forall k nstep n,
     nsteps !! k = Some nstep ->
     (forall j nstep_j, (j < k)%nat -> nsteps !! j = Some nstep_j ->
        consistent fchk prefix (arr_size atnums) j nstep_j) ->
     paired_steps fchk prefix (arr_size atnums) k = Some n ->
     Z.of_nat n <> nstep ->
     exists frames,
       load_many fnmatch float_of_string lit = ((frames, Raise AssertionError), lit') /\
       map frame_meta frames = point_major (length nsteps) 0 (take k nsteps)) /\
  point_major 2 0 [3; 2]
    = [meta 0 2 0 3; meta 0 2 1 3; meta 0 2 2 3; meta 1 2 0 2; meta 1 2 1 2].
Proof.
  intros Hstore Hdecl Htitle Hatnums Hcore.
  assert (Hkind : trajectory_kind fchk = Ok (prefix, VArr (IntArr nsteps))).
  { unfold trajectory_kind.
    destruct Hdecl as [[-> ->]|(-> & -> & ->)]; reflexivity. }
  assert (Hmany : load_many fnmatch float_of_string lit
                  = (yield_points prefix fchk (arr_size atnums) (length nsteps) 0 nsteps,
                     lit')).
  { unfold load_many. rewrite Hstore. unfold extract. rewrite Hkind. simpl.
    unfold getkey. rewrite Hatnums. reflexivity. }
  rewrite Hmany. split; [|split; [|reflexivity]].
  - intros Hall.
    destruct (yield_points_ok fchk prefix title (VArr atnums) atcorenums
                Htitle Hatnums Hcore (arr_size atnums) (length nsteps) nsteps 0%nat Hall)
      as (frames & -> & Hmeta).
    exists frames. split; [reflexivity | exact Hmeta].
  - intros k nstep n Hk Hbefore Hn Hlen.
    destruct (yield_points_mismatch fchk prefix title (VArr atnums) atcorenums
                Htitle Hatnums Hcore (arr_size atnums) (length nsteps) nsteps
                0%nat k nstep n Hk Hbefore Hn Hlen)
      as (frames & -> & Hmeta).
    exists frames. split; [reflexivity | exact Hmeta].
Qed.

(** The sample trajectory with declared counts [3, 2] yields the five
    frames; with declared counts [3, 3] the second point, which holds two
    steps, fails the assertion after the three frames of the first; the
    point that declares three steps and holds three geometries and
    gradients with two pairs of results fails it before any frame. *)
Lemma trajectory_frames_witness :
  (exists frames,
     load_many glob float_of_small_int (sample_trajectory "3" "2")
       = ((frames, Ok ()), []) /\
     map frame_meta frames
       = [meta 0 2 0 3; meta 0 2 1 3; meta 0 2 2 3; meta 1 2 0 2; meta 1 2 1 2]) /\
  (exists frames,
     load_many glob float_of_small_int (sample_trajectory "3" "3")
       = ((frames, Raise AssertionError), []) /\
     map frame_meta frames = [meta 0 2 0 3; meta 0 2 1 3; meta 0 2 2 3]) /\
  (exists frames,
     load_many glob float_of_small_int short_results_trajectory
       = ((frames, Raise AssertionError), []) /\
     map frame_meta frames = []).
Proof.
  split; [|split].
  - set (fchk := store_of LOAD_MANY_LABELS (sample_trajectory "3" "2")).
    apply (proj1 (trajectory_frames glob float_of_small_int
                    (sample_trajectory "3" "2") [] fchk "Opt point" [3; 2]
                    (VStr "sample trajectory") (VArr (RealArr [1]%float)) (IntArr [1])
                    ltac:(vm_refl)
                    ltac:(right; split; [vm_refl | split; [vm_refl | reflexivity]])
                    ltac:(vm_refl) ltac:(vm_refl) ltac:(vm_refl))).
    intros [|[|k]] nstep Hk; try discriminate; injection Hk as <-.
    + exists 3%nat. split; vm_refl.
    + exists 2%nat. split; vm_refl.
  - set (fchk := store_of LOAD_MANY_LABELS (sample_trajectory "3" "3")).
    apply (proj1 (proj2 (trajectory_frames glob float_of_small_int
                    (sample_trajectory "3" "3") [] fchk "Opt point" [3; 3]
                    (VStr "sample trajectory") (VArr (RealArr [1]%float)) (IntArr [1])
                    ltac:(vm_refl)
                    ltac:(right; split; [vm_refl | split; [vm_refl | reflexivity]])
                    ltac:(vm_refl) ltac:(vm_refl) ltac:(vm_refl)))
             1%nat 3 2%nat).
    + reflexivity.
    + intros [|j] nstep_j Hj Hjk; [|lia]. injection Hjk as <-.
      exists 3%nat. split; vm_refl.
    + vm_refl.
    + discriminate.
  - set (fchk := store_of LOAD_MANY_LABELS short_results_trajectory).
    apply (proj1 (proj2 (trajectory_frames glob float_of_small_int
                    short_results_trajectory [] fchk "Opt point" [3]
                    (VStr "short results") (VArr (RealArr [1]%float)) (IntArr [1])
                    ltac:(vm_refl)
                    ltac:(right; split; [vm_refl | split; [vm_refl | reflexivity]])
                    ltac:(vm_refl) ltac:(vm_refl) ltac:(vm_refl)))
             0%nat 3 2%nat).
    + reflexivity.
    + intros j nstep_j Hj. lia.
    + vm_refl.
    + discriminate.
Defined.

(** A file of one line: the StopIteration of the header leaves the
    generator as a RuntimeError, and no frame is yielded. *)
Example load_many_short_file :
  load_many glob float_of_small_int ["sample trajectory"]
    = (([], Raise RuntimeError), []).
Proof. reflexivity. Qed.

(** * Further properties of the module *)

(** ** Field reader and field store: labels, arrays, errors *)

Section StoreFacts.

Variable fnmatch : string -> string -> bool.

Variable float_of_string : string -> option float.

Variable label_patterns : option (list string).

Abbreviation field := (_load_fchk_field fnmatch float_of_string label_patterns).

Abbreviation loop := (fun fuel => store_loop fnmatch float_of_string fuel label_patterns).

Abbreviation low := (_load_fchk_low fnmatch float_of_string label_patterns).

(** What a line classified as a field header looks like. *)
Lemma classify_header (line : string) (a : line_action) :
  classify fnmatch label_patterns line = a -> a <> Skip ->
  exists code dt ws,
    Py.split (Py.suffix 43 line) = code :: ws /\
    type_code code = Some dt /\
    label_matches fnmatch (Py.strip (Py.prefix 43 line)) label_patterns = true /\
    ((exists w1, ws = [w1] /\ a = Scalar (Py.strip (Py.prefix 43 line)) dt w1) \/
     (exists w1 w2, ws = [w1; w2] /\ a = Array (Py.strip (Py.prefix 43 line)) dt w1 w2)).
Proof.
  unfold classify. intros H Ha.
  destruct (Py.split (Py.suffix 43 line)) as [|w0 ws] eqn:Hw; [congruence|].
  destruct (type_code w0) as [dt|] eqn:Hdt; [|congruence].
  destruct (label_matches fnmatch (Py.strip (Py.prefix 43 line)) label_patterns) eqn:Hm;
    [|simpl in H; congruence].
  simpl in H. exists w0, dt, ws. split; [reflexivity|]. split; [exact Hdt|].
  split; [reflexivity|].
  destruct ws as [|w1 [|w2 [|w3 ws]]]; try congruence.
  - left. exists w1. split; [reflexivity | congruence].
  - right. exists w1, w2. split; [reflexivity | congruence].
Qed.

(** The values of an array are the first [n] tokens of the lines that
    the loop consumes, and the loop takes a line only when it needs one. *)
Lemma read_values_tokens {A} (parse : string -> option A) (n : nat) :
  forall words lit vs lit',
  read_values parse n words lit = (Ok vs, lit') ->
  exists consumed,
    lit = consumed ++ lit' /\
    Forall2 (fun word v => parse word = Some v)
            (take n (words ++ concat (map Py.split consumed))) vs /\
    (n <= length (words ++ concat (map Py.split consumed)))%nat /\
    (forall pre last, consumed = pre ++ [last] ->
       (length (words ++ concat (map Py.split pre)) < n)%nat).
Proof.
  induction n as [|n IH]; intros words lit vs lit' H; simpl in H.
  - injection H as <- <-. exists []. split; [reflexivity|]. split; [constructor|].
    split; [lia|]. intros [|? ?] last Hpre; discriminate.
  - unfold mbind, LitM_bind in H.
    destruct words as [|word words].
    + unfold next in H. destruct lit as [|line lit]; [discriminate|].
      simpl in H. destruct (Py.split line) as [|word words] eqn:Hline; [discriminate|].
      destruct (parse word) as [v|] eqn:Hv; [|discriminate].
      destruct (read_values parse n words lit) as [[vs'|e] lit1] eqn:E; [|discriminate].
      injection H as <- <-.
      destruct (IH _ _ _ _ E) as (consumed & -> & Htok & Hn & Hlast).
      exists (line :: consumed). split; [reflexivity|].
      simpl. rewrite Hline. simpl. split; [constructor; assumption|].
      split; [lia|].
      intros [|line' pre] last Hpre; simpl; [lia|].
      injection Hpre as <- ->. rewrite Hline. simpl.
      specialize (Hlast pre last eq_refl). lia.
    + simpl in H. destruct (parse word) as [v|] eqn:Hv; [|discriminate].
      destruct (read_values parse n words lit) as [[vs'|e] lit1] eqn:E; [|discriminate].
      injection H as <- <-.
      destruct (IH _ _ _ _ E) as (consumed & -> & Htok & Hn & Hlast).
      exists consumed. split; [reflexivity|].
      simpl. split; [constructor; assumption|]. split; [lia|].
      intros pre last Hpre. specialize (Hlast pre last Hpre). lia.
Qed.

Lemma int64_of_string_fits (w : string) (z : Z) :
  int64_of_string w = Some z -> fits_int64 z = true.
Proof.
  unfold int64_of_string. destruct (Py.int w) as [z'|]; simpl; [|discriminate].
  destruct (fits_int64 z') eqn:E; [|discriminate]. congruence.
Qed.

Lemma read_array_tokens (dt : dtype) (w : string) (lit lit' : list string) (a : ndarray) :
  read_array float_of_string dt w lit = (Ok a, lit') ->
  exists consumed,
    lit = consumed ++ lit' /\
    Py.int w = Some (Z.of_nat (arr_size a)) /\
    (forall pre last, consumed = pre ++ [last] ->
       (length (concat (map Py.split pre)) < arr_size a)%nat) /\
    match a with
    | IntArr l =>
        dt = DInt /\
        Forall2 (fun word z => int64_of_string word = Some z)
                (take (length l) (concat (map Py.split consumed))) l
    | RealArr l =>
        dt = DReal /\
        Forall2 (fun word x => float_of_string word = Some x)
                (take (length l) (concat (map Py.split consumed))) l
    end.
Proof.
  unfold read_array. intros H.
  destruct (Py.int w) as [len|]; [|discriminate].
  destruct ((len <? 0) || (MAX_LENGTH <? len)) eqn:Hlen; [discriminate|].
  apply orb_false_elim in Hlen. destruct Hlen as [Hlen _]. apply Z.ltb_ge in Hlen.
  destruct dt; unfold mbind, LitM_bind in H.
  - destruct (read_values int64_of_string (Z.to_nat len) [] lit) as [[l|e] lit1] eqn:E;
      [|discriminate].
    injection H as <- <-. apply read_values_tokens in E.
    destruct E as (consumed & -> & Htok & Hn & Hlast). simpl in *.
    pose proof (Forall2_length _ _ _ Htok) as Hl. rewrite length_take in Hl.
    assert (Hlen' : length l = Z.to_nat len) by lia.
    exists consumed. split; [reflexivity|]. rewrite Hlen'.
    split; [f_equal; lia|]. split; [exact Hlast|]. split; [reflexivity | exact Htok].
  - destruct (read_values float_of_string (Z.to_nat len) [] lit) as [[l|e] lit1] eqn:E;
      [|discriminate].
    injection H as <- <-. apply read_values_tokens in E.
    destruct E as (consumed & -> & Htok & Hn & Hlast). simpl in *.
    pose proof (Forall2_length _ _ _ Htok) as Hl. rewrite length_take in Hl.
    assert (Hlen' : length l = Z.to_nat len) by lia.
    exists consumed. split; [reflexivity|]. rewrite Hlen'.
    split; [f_equal; lia|]. split; [exact Hlast|]. split; [reflexivity | exact Htok].
Qed.

(** The loop on tokens that are at hand. *)
Lemma read_values_words {A} (parse : string -> option A) (words : list string) :
  forall n ws lit,
  Forall2 (fun word v => parse word = Some v) words ws ->
  (length words <= n)%nat ->
  read_values parse n words lit
    = match read_values parse (n - length words) [] lit with
      | (Ok vs, lit') => (Ok (ws ++ vs), lit')
      | (Raise e, lit') => (Raise e, lit')
      end.
Proof.
  induction words as [|word words IH]; intros n ws lit Hws Hn.
  - inversion Hws; subst. simpl. rewrite Nat.sub_0_r.
    destruct (read_values parse n [] lit) as [[vs|e] lit1]; reflexivity.
  - inversion Hws as [|? v ? ws' Hv Hws']; subst. simpl in Hn.
    destruct n as [|n]; [lia|]. simpl.
    unfold mbind at 1, LitM_bind at 1. unfold mret at 1, LitM_ret at 1.
    rewrite Hv. unfold mbind, LitM_bind.
    rewrite (IH n ws' lit Hws') by lia.
    destruct (read_values parse (n - length words) [] lit) as [[vs|e] lit1]; reflexivity.
Qed.

(** The loop over lines none of which is blank. *)
Lemma read_values_lines {A} (parse : string -> option A) (data : list string) :
  forall n vs rest,
  Forall (fun line => Py.split line <> []) data ->
  Forall2 (fun word v => parse word = Some v) (concat (map Py.split data)) vs ->
  (length vs <= n)%nat ->
  read_values parse n [] (data ++ rest)
    = match read_values parse (n - length vs) [] rest with
      | (Ok vs', lit') => (Ok (vs ++ vs'), lit')
      | (Raise e, lit') => (Raise e, lit')
      end.
Proof.
  induction data as [|line data IH]; intros n vs rest Hdata Htok Hn.
  - inversion Htok; subst. simpl. rewrite Nat.sub_0_r.
    destruct (read_values parse n [] rest) as [[vs|e] lit1]; reflexivity.
  - inversion Hdata as [|? ? Hline Hdata']; subst.
    simpl in Htok. apply Forall2_app_inv_l in Htok.
    destruct Htok as (ws & vs' & Hws & Hvs' & ->).
    rewrite length_app in Hn.
    pose proof (Forall2_length _ _ _ Hws) as Hlw.
    assert (Hstep : read_values parse n [] ((line :: data) ++ rest)
                    = read_values parse n (Py.split line) (data ++ rest)).
    { destruct n as [|n].
      - destruct (Py.split line) as [|word words]; [congruence|].
        inversion Hws; subst. simpl in Hn. lia.
      - simpl. unfold mbind at 1, LitM_bind at 1. unfold next at 1.
        unfold mbind at 1, LitM_bind at 1. unfold mret at 1, LitM_ret at 1.
        destruct (Py.split line) as [|word words]; [congruence|]. reflexivity. }
    rewrite Hstep. rewrite (read_values_words parse _ n ws _ Hws) by lia.
    rewrite (IH _ vs' rest Hdata' Hvs') by lia.
    rewrite length_app.
    replace (n - length (Py.split line) - length vs')%nat
      with (n - (length ws + length vs'))%nat by lia.
    destruct (read_values parse (n - (length ws + length vs')) [] rest) as [[vs|e] lit1];
      [rewrite app_assoc|]; reflexivity.
Qed.

(** The line that a field comes from. *)
Lemma field_origin (lit : list string) :
  forall label v lit',
  field lit = (Ok (label, v), lit') ->
  exists skipped line rest,
    lit = skipped ++ line :: rest /\
    Forall (fun l => classify fnmatch label_patterns l = Skip) skipped /\
    ((exists dt w n, classify fnmatch label_patterns line = Scalar label dt w /\
                     scalar_of_string float_of_string dt w = Some n /\
                     v = VNum n /\ lit' = rest) \/
     (exists dt w a, classify fnmatch label_patterns line = Array label dt "N=" w /\
                     read_array float_of_string dt w rest = (Ok a, lit') /\
                     v = VArr a)).
Proof.
  induction lit as [|line lit IH]; intros label v lit' H; simpl in H; [discriminate|].
  destruct (classify fnmatch label_patterns line) as [|label0 dt w1|label0 dt w1 w2] eqn:Hc.
  - destruct (IH _ _ _ H) as (skipped & line' & rest & -> & Hskip & Hrest).
    exists (line :: skipped), line', rest. split; [reflexivity|].
    split; [constructor; assumption | exact Hrest].
  - destruct (scalar_of_string float_of_string dt w1) as [n|] eqn:Hs; [|discriminate].
    injection H as <- <- <-.
    exists [], line, lit. split; [reflexivity|]. split; [constructor|].
    left. exists dt, w1, n. auto.
  - destruct (String.eqb w1 "N=") eqn:Hn; simpl in H; [|discriminate].
    apply String.eqb_eq in Hn. subst w1.
    unfold mbind, LitM_bind in H.
    destruct (read_array float_of_string dt w2 lit) as [[a|e] lit1] eqn:Ha; [|discriminate].
    injection H as <- <- <-.
    exists [], line, lit. split; [reflexivity|]. split; [constructor|].
    right. exists dt, w2, a. auto.
Qed.

Lemma field_label (lit : list string) (label : string) (v : value) (lit' : list string) :
  field lit = (Ok (label, v), lit') ->
  (exists line, In line lit /\ label = Py.strip (Py.prefix 43 line)) /\
  label_matches fnmatch label label_patterns = true /\
  (forall s, v <> VStr s) /\
  exists consumed, lit = consumed ++ lit'.
Proof.
  intros H. destruct (field_origin _ _ _ _ H) as (skipped & line & rest & -> & _ & Hcase).
  assert (Hl : forall a, classify fnmatch label_patterns line = a -> a <> Skip ->
                 (forall dt w, a = Scalar label dt w \/ a = Array label dt "N=" w -> 
                 label = Py.strip (Py.prefix 43 line) /\
                 label_matches fnmatch label label_patterns = true)).
  { intros a Ha Hns dt w Hor.
    destruct (classify_header _ _ Ha Hns)
      as (code & dt' & ws & _ & _ & Hm & [(w1 & _ & E)|(w1 & w2 & _ & E)]);
      destruct Hor as [-> | ->]; try discriminate; injection E as -> _; auto. }
  destruct Hcase as [(dt & w & n & Hc & _ & -> & ->)|(dt & w & a & Hc & Ha & ->)].
  - destruct (Hl _ Hc ltac:(discriminate) dt w ltac:(auto)) as [Hlab Hm].
    split; [exists line; split; [apply in_or_app; right; left; reflexivity | exact Hlab]|].
    split; [exact Hm|]. split; [discriminate|].
    exists (skipped ++ [line]). rewrite <- app_assoc. reflexivity.
  - destruct (Hl _ Hc ltac:(discriminate) dt w ltac:(auto)) as [Hlab Hm].
    split; [exists line; split; [apply in_or_app; right; left; reflexivity | exact Hlab]|].
    split; [exact Hm|]. split; [discriminate|].
    apply read_array_tokens in Ha. destruct Ha as (consumed & -> & _).
    exists (skipped ++ line :: consumed). rewrite <- app_assoc. reflexivity.
Qed.

Lemma store_loop_never_stops (fuel : nat) :
  forall lit result r lit',
  loop fuel result lit = (r, lit') -> raised r <> Some StopIteration.
Proof.
  induction fuel as [|fuel IH]; intros lit result r lit' H; simpl in H.
  - injection H as <- _. discriminate.
  - destruct (field lit) as [[[label v]|e] lit1].
    + eapply IH. exact H.
    + destruct e; injection H as <- _; discriminate.
Qed.

Lemma store_loop_keys (fuel : nat) :
  forall lit result result' lit',
  loop fuel result lit = (Ok result', lit') ->
  forall k v, result' !! k = Some v ->
  result !! k = Some v \/
  (label_matches fnmatch k label_patterns = true /\
   (exists line, In line lit /\ k = Py.strip (Py.prefix 43 line)) /\
   forall s, v <> VStr s).
Proof.
  induction fuel as [|fuel IH]; intros lit result result' lit' H k v Hk; simpl in H.
  - injection H as <- _. left. exact Hk.
  - destruct (field lit) as [[[label v0]|e] lit1] eqn:E.
    + destruct (field_label _ _ _ _ E) as ((line & Hl & Hkl) & Hm & Hv & consumed & ->).
      destruct (IH _ _ _ _ H k v Hk) as [Hin|(Hm' & (line' & Hl' & Hkl') & Hv')].
      * destruct (decide (k = label)) as [->|Hne].
        -- rewrite lookup_insert_eq in Hin. injection Hin as <-.
           right. split; [exact Hm|]. split; [|exact Hv]. exists line. auto.
        -- left. rewrite lookup_insert_ne in Hin by congruence. exact Hin.
      * right. split; [exact Hm'|]. split; [|exact Hv']. exists line'.
        split; [apply in_or_app; right; exact Hl' | exact Hkl'].
    + destruct e; try discriminate. injection H as <- _. left. exact Hk.
Qed.

Lemma read_values_exn {A} (parse : string -> option A) (n : nat) :
  forall words lit e lit',
  read_values parse n words lit = (Raise e, lit') -> reader_exn e.
Proof.
  unfold reader_exn.
  induction n as [|n IH]; intros words lit e lit' H; simpl in H; [discriminate|].
  unfold mbind, LitM_bind in H.
  assert (Hwords : forall word words,
            match parse word with
            | Some v => vs ← read_values parse n words; mret (v :: vs)
            | None => lit_error ("Could not interpret: " ++ word)%string
            end lit = (Raise e, lit') ->
            reader_exn e).
  { clear H. intros word ws H. unfold reader_exn.
    destruct (parse word) as [v|].
    - unfold mbind, LitM_bind in H.
      destruct (read_values parse n ws lit) as [[vs|e'] lit1] eqn:E; [discriminate|].
      injection H as <- _. eapply IH. exact E.
    - injection H as <- _. right. right. right. right. eexists. reflexivity. }
  destruct words as [|word words].
  - unfold next in H. destruct lit as [|line lit].
    + injection H as <- _. auto.
    + simpl in H. destruct (Py.split line) as [|word words].
      * injection H as <- _. auto.
      * destruct (parse word) as [v|] eqn:Hv.
        -- destruct (read_values parse n words lit) as [[vs|e'] lit1] eqn:E; [discriminate|].
           injection H as <- _. eapply IH. exact E.
        -- injection H as <- _. right. right. right. right. eexists. reflexivity.
  - simpl in H. destruct (parse word) as [v|] eqn:Hv.
    + destruct (read_values parse n words lit) as [[vs|e'] lit1] eqn:E; [discriminate|].
      injection H as <- _. eapply IH. exact E.
    + injection H as <- _. right. right. right. right. eexists. reflexivity.
Qed.

Lemma read_array_exn (dt : dtype) (w : string) (lit lit' : list string) (e : exn) :
  read_array float_of_string dt w lit = (Raise e, lit') -> reader_exn e.
Proof.
  unfold read_array. intros H.
  destruct (Py.int w) as [len|]; [|injection H as <- _; unfold reader_exn; auto].
  destruct ((len <? 0) || (MAX_LENGTH <? len));
    [injection H as <- _; unfold reader_exn; auto|].
  destruct dt; unfold mbind, LitM_bind in H.
  - destruct (read_values int64_of_string (Z.to_nat len) [] lit) as [[l|e'] lit1] eqn:E;
      [discriminate|].
    injection H as <- _. eapply read_values_exn. exact E.
  - destruct (read_values float_of_string (Z.to_nat len) [] lit) as [[l|e'] lit1] eqn:E;
      [discriminate|].
    injection H as <- _. eapply read_values_exn. exact E.
Qed.

Lemma field_exn (lit : list string) :
  forall e lit', field lit = (Raise e, lit') -> reader_exn e.
Proof.
  induction lit as [|line lit IH]; intros e lit' H; simpl in H.
  - injection H as <- _. unfold reader_exn. auto.
  - destruct (classify fnmatch label_patterns line) as [|label dt w1|label dt w1 w2].
    + eapply IH. exact H.
    + destruct (scalar_of_string float_of_string dt w1); [discriminate|].
      injection H as <- _. unfold reader_exn. right. right. right. right.
      eexists. reflexivity.
    + destruct (negb (String.eqb w1 "N=")).
      * injection H as <- _. unfold reader_exn. auto.
      * unfold mbind, LitM_bind in H.
        destruct (read_array float_of_string dt w2 lit) as [[a|e'] lit1] eqn:E;
          [discriminate|].
        injection H as <- _. eapply read_array_exn. exact E.
Qed.

Lemma store_loop_exn (fuel : nat) :
  forall lit result e lit',
  loop fuel result lit = (Raise e, lit') -> reader_exn e /\ e <> StopIteration.
Proof.
  induction fuel as [|fuel IH]; intros lit result e lit' H; simpl in H; [discriminate|].
  destruct (field lit) as [[[label v]|e'] lit1] eqn:E.
  - eapply IH. exact H.
  - apply field_exn in E.
    destruct e'; try discriminate; injection H as <- _; split; try exact E; discriminate.
Qed.

Lemma reader_exn_not_header : ~ reader_exn (LitError header_error).
Proof.
  unfold reader_exn. intros [H|[H|[H|[H|[w H]]]]]; discriminate.
Qed.

End StoreFacts.

(** X1: the header check of [_load_fchk_low].  On a file of at least two
    lines the reader fails with the message about the second line exactly
    when that line does not split into two or three words; no later error
    carries this message. *)
Theorem header_word_count (fnmatch : string -> string -> bool)
    (float_of_string : string -> option float) (label_patterns : option (list string))
    (title line : string) (rest : list string) :
  fst (_load_fchk_low fnmatch float_of_string label_patterns (title :: line :: rest))
    = Raise (LitError header_error)
  <-> length (Py.split line) <> 2%nat /\ length (Py.split line) <> 3%nat.
Proof.
  unfold _load_fchk_low, mbind, LitM_bind, next.
  destruct (Py.split line) as [|w1 [|w2 [|w3 [|w4 ws]]]] eqn:Hw; simpl;
    try (split; [intros _; split; discriminate | reflexivity]).
  - split; [|intros [H _]; congruence].
    unfold read_fields.
    destruct (store_loop fnmatch float_of_string (S (length rest)) label_patterns
                (<["lot":=VStr w2]> (<["command":=VStr w1]> (<["title":=VStr (Py.strip title)]> ∅)))
                rest) as [[fchk|e] lit'] eqn:E; simpl; [discriminate|].
    intros H. injection H as ->. apply store_loop_exn in E.
    destruct E as [E _]. destruct (reader_exn_not_header E).
  - split; [|intros [_ H]; congruence].
    unfold read_fields.
    destruct (store_loop fnmatch float_of_string (S (length rest)) label_patterns
                (<["obasis_name":=VStr w3]> (<["lot":=VStr w2]> (<["command":=VStr w1]> (<["title":=VStr (Py.strip title)]> ∅))))
                rest) as [[fchk|e] lit'] eqn:E; simpl; [discriminate|].
    intros H. injection H as ->. apply store_loop_exn in E.
    destruct E as [E _]. destruct (reader_exn_not_header E).
Qed.

(** X2: StopIteration leaves [_load_fchk_low] only from the header: exactly
    on the files of fewer than two lines.  After the header, the end of
    the file, also inside the values of an array, ends the loop normally. *)
Theorem stop_iteration_only_in_header (fnmatch : string -> string -> bool)
    (float_of_string : string -> option float) (label_patterns : option (list string))
    (lit : list string) :
  raised (fst (_load_fchk_low fnmatch float_of_string label_patterns lit))
    = Some StopIteration
  <-> (length lit < 2)%nat.
Proof.
  unfold _load_fchk_low, mbind, LitM_bind, next.
  destruct lit as [|title [|line rest]]; simpl.
  - split; [lia | reflexivity].
  - split; [lia | reflexivity].
  - split; [|lia]. intros H. exfalso.
    destruct (Py.split line) as [|w1 [|w2 [|w3 [|w4 ws]]]] eqn:Hw; simpl in H;
      try discriminate; unfold read_fields in H;
      match type of H with
      | raised (fst ?x) = _ => destruct x as [r lit'] eqn:E
      end; apply store_loop_never_stops in E; apply E; exact H.
Qed.

Lemma lstrip_no_leading_space (s : list ascii) : no_leading_space (Py.lstrip s).
Proof.
  induction s as [|c s IH]; simpl; [exact I|].
  destruct (Py.is_space c) eqn:E; [exact IH | exact E].
Qed.

Lemma lstrip_fixed (s : list ascii) : no_leading_space s -> Py.lstrip s = s.
Proof. destruct s as [|c s]; simpl; [reflexivity|]. intros ->. reflexivity. Qed.

Lemma lstrip_suffix (s : list ascii) : exists pre, s = pre ++ Py.lstrip s.
Proof.
  induction s as [|c s [pre IH]]; simpl; [exists []; reflexivity|].
  destruct (Py.is_space c).
  - exists (c :: pre). simpl. f_equal. exact IH.
  - exists []. reflexivity.
Qed.

Lemma lstrip_length (s : list ascii) : (length (Py.lstrip s) <= length s)%nat.
Proof.
  destruct (lstrip_suffix s) as [pre H]. rewrite H at 2. rewrite length_app. lia.
Qed.

Lemma rstrip_no_leading_space (a : list ascii) :
  no_leading_space a -> no_leading_space (rev (Py.lstrip (rev a))).
Proof.
  intros Ha. destruct (lstrip_suffix (rev a)) as [pre H].
  apply (f_equal (@rev ascii)) in H. rewrite rev_involutive, rev_app_distr in H.
  destruct (rev (Py.lstrip (rev a))) as [|c t]; [exact I|].
  rewrite H in Ha. exact Ha.
Qed.

Lemma strip_chars_idempotent (s : list ascii) :
  Py.strip_chars (Py.strip_chars s) = Py.strip_chars s.
Proof.
  unfold Py.strip_chars.
  set (a := Py.lstrip s). set (b := Py.lstrip (rev a)).
  assert (Ha : no_leading_space a) by apply lstrip_no_leading_space.
  assert (Hb : no_leading_space b) by apply lstrip_no_leading_space.
  rewrite (lstrip_fixed (rev b)) by (apply rstrip_no_leading_space; exact Ha).
  rewrite rev_involutive, (lstrip_fixed b) by exact Hb. reflexivity.
Qed.

Lemma strip_chars_length (s : list ascii) :
  (length (Py.strip_chars s) <= length s)%nat.
Proof.
  unfold Py.strip_chars. rewrite length_rev.
  etransitivity; [apply lstrip_length|]. rewrite length_rev. apply lstrip_length.
Qed.

Lemma length_string_of_list_ascii (l : list ascii) :
  String.length (string_of_list_ascii l) = length l.
Proof. induction l as [|c l IH]; simpl; [reflexivity | f_equal; exact IH]. Qed.

Lemma strip_idempotent (s : string) : Py.strip (Py.strip s) = Py.strip s.
Proof.
  unfold Py.strip. rewrite list_ascii_of_string_of_list_ascii, strip_chars_idempotent.
  reflexivity.
Qed.

Lemma strip_prefix_length (n : nat) (s : string) :
  (String.length (Py.strip (Py.prefix n s)) <= n)%nat.
Proof.
  unfold Py.strip, Py.prefix.
  rewrite length_string_of_list_ascii, list_ascii_of_string_of_list_ascii.
  etransitivity; [apply strip_chars_length|]. rewrite length_take. lia.
Qed.

(** X3: a label returned by [_load_fchk_field] is the text of the first
    43 columns of a line of the input without its surrounding white
    space: it has at most 43 characters, stripping it again changes
    nothing, and it matches one of the requested patterns. *)
Theorem field_label_columns (fnmatch : string -> string -> bool)
    (float_of_string : string -> option float) (label_patterns : option (list string))
    (lit lit' : list string) (label : string) (v : value) :
  _load_fchk_field fnmatch float_of_string label_patterns lit = (Ok (label, v), lit') ->
  (exists line, In line lit /\ label = Py.strip (Py.prefix 43 line)) /\
  (String.length label <= 43)%nat /\
  Py.strip label = label /\
  label_matches fnmatch label label_patterns = true.
Proof.
  intros H. destruct (field_label _ _ _ _ _ _ _ H) as ((line & Hl & ->) & Hm & _).
  split; [exists line; auto|]. split; [apply strip_prefix_length|].
  split; [apply strip_idempotent | exact Hm].
Qed.

Lemma field_label_columns_witness :
  (exists line,
     In line [field_line "  Atomic  numbers " "I   N=           3";
              "           8           1           1"] /\
     "Atomic  numbers" = Py.strip (Py.prefix 43 line)) /\
  (String.length "Atomic  numbers" <= 43)%nat /\
  Py.strip "Atomic  numbers" = "Atomic  numbers" /\
  label_matches glob "Atomic  numbers" (Some ["Atomic*"]) = true.
Proof.
  apply (field_label_columns glob float_of_small_int (Some ["Atomic*"])
           [field_line "  Atomic  numbers " "I   N=           3";
            "           8           1           1"] []
           "Atomic  numbers" (VArr (IntArr [8; 1; 1]))).
  reflexivity.
Defined.

(** X4: an array field returned by [_load_fchk_field].  Its header line
    carries the type code, the word N= and the declared length; the
    array has exactly the declared number of elements, of the declared
    type; its elements are the first tokens of the lines consumed after
    the header, each read as an int64 or as a float; a further line is
    consumed only while values are missing, and what follows the last
    value on its line is dropped. *)
Theorem array_field_values (fnmatch : string -> string -> bool)
    (float_of_string : string -> option float) (label_patterns : option (list string))
    (lit lit' : list string) (label : string) (a : ndarray) :
  _load_fchk_field fnmatch float_of_string label_patterns lit
    = (Ok (label, VArr a), lit') ->
  exists skipped line data code w,
    lit = skipped ++ line :: data ++ lit' /\
    Py.split (Py.suffix 43 line) = [code; "N="; w] /\
    Py.int w = Some (Z.of_nat (arr_size a)) /\
    (forall pre last, data = pre ++ [last] ->
       (length (concat (map Py.split pre)) < arr_size a)%nat) /\
    match a with
    | IntArr l =>
        code = "I" /\
        Forall2 (fun word z => Py.int word = Some z /\ fits_int64 z = true)
                (take (length l) (concat (map Py.split data))) l
    | RealArr l =>
        code = "R" /\
        Forall2 (fun word x => float_of_string word = Some x)
                (take (length l) (concat (map Py.split data))) l
    end.
Proof.
  intros H.
  destruct (field_origin _ _ _ _ _ _ _ H) as (skipped & line & rest & -> & _ & Hcase).
  destruct Hcase as [(dt & w & n & _ & _ & Hv & _)|(dt & w & a' & Hc & Ha & Hv)];
    [discriminate|]. injection Hv as <-.
  destruct (classify_header _ _ _ _ Hc ltac:(discriminate))
    as (code & dt' & ws & Hw & Hdt & _ & [(w1 & _ & E)|(w1 & w2 & -> & E)]);
    [discriminate|]. injection E as _ <- <- <-.
  destruct (read_array_tokens float_of_string _ _ _ _ _ Ha)
    as (data & -> & Hint & Hlast & Htok).
  exists skipped, line, data, code, w.
  split; [reflexivity|]. split; [exact Hw|]. split; [exact Hint|]. split; [exact Hlast|].
  assert (Hcode : forall c, type_code code = Some c ->
            code = match c with DInt => "I" | DReal => "R" end).
  { intros c Hc'. unfold type_code in Hc'.
    destruct (String.eqb code "I") eqn:EI;
      [apply String.eqb_eq in EI; injection Hc' as <-; exact EI|].
    destruct (String.eqb code "R") eqn:ER;
      [apply String.eqb_eq in ER; injection Hc' as <-; exact ER|].
    discriminate. }
  destruct a as [l|l]; destruct Htok as [-> Htok].
  - split; [apply (Hcode DInt Hdt)|].
    eapply Forall2_impl; [exact Htok|]. intros word z Hz.
    split; [|eapply int64_of_string_fits; exact Hz].
    unfold int64_of_string in Hz. destruct (Py.int word) as [z'|]; simpl in Hz;
      [|discriminate]. destruct (fits_int64 z'); congruence.
  - split; [apply (Hcode DReal Hdt) | exact Htok].
Qed.

Lemma array_field_values_witness :
  exists skipped line data code w,
    [field_line "Atomic numbers" "I   N=           3";
     "           8           1"; "           1           7";
     field_line "Number of electrons" "I               10"]
      = skipped ++ line :: data ++ [field_line "Number of electrons" "I               10"] /\
    Py.split (Py.suffix 43 line) = [code; "N="; w] /\
    Py.int w = Some 3 /\
    (forall pre last, data = pre ++ [last] ->
       (length (concat (map Py.split pre)) < 3)%nat) /\
    code = "I" /\
    Forall2 (fun word z => Py.int word = Some z /\ fits_int64 z = true)
            (take 3 (concat (map Py.split data))) [8; 1; 1].
Proof.
  apply (array_field_values glob float_of_small_int None
           [field_line "Atomic numbers" "I   N=           3";
            "           8           1"; "           1           7";
            field_line "Number of electrons" "I               10"]
           [field_line "Number of electrons" "I               10"]
           "Atomic numbers" (IntArr [8; 1; 1])).
  reflexivity.
Defined.

Lemma all_parsed {A} (parse : string -> option A) (tokens : list string) :
  Forall (fun word => is_Some (parse word)) tokens ->
  exists vs, Forall2 (fun word v => parse word = Some v) tokens vs.
Proof.
  induction 1 as [|word tokens [v Hv] _ [vs IH]].
  - exists []. constructor.
  - exists (v :: vs). constructor; assumption.
Qed.

Section ArrayFacts.

Variable fnmatch : string -> string -> bool.

Variable float_of_string : string -> option float.

Variable label_patterns : option (list string).

(** X5: reading a well-formed array.  After a header line of a requested
    label that declares as many values as the following lines [data]
    hold, none of them blank and no more values than an array can hold,
    [_load_fchk_field] returns the values of these lines in order and
    leaves the cursor behind them. *)
Theorem array_field_read (line label w : string) (dt : dtype) (data rest : list string) :
  classify fnmatch label_patterns line = Array label dt "N=" w ->
  Py.int w = Some (Z.of_nat (length (concat (map Py.split data)))) ->
  Z.of_nat (length (concat (map Py.split data))) <= MAX_LENGTH ->
  Forall (fun l => Py.split l <> []) data ->
  (forall l, dt = DInt ->
     Forall2 (fun word z => Py.int word = Some z /\ fits_int64 z = true)
             (concat (map Py.split data)) l ->
     _load_fchk_field fnmatch float_of_string label_patterns (line :: data ++ rest)
       = (Ok (label, VArr (IntArr l)), rest)) /\
  (forall l, dt = DReal ->
     Forall2 (fun word x => float_of_string word = Some x)
             (concat (map Py.split data)) l ->
     _load_fchk_field fnmatch float_of_string label_patterns (line :: data ++ rest)
       = (Ok (label, VArr (RealArr l)), rest)).
Proof.
  intros Hc Hint Hmax Hdata.
  assert (Hgen : forall A (parse : string -> option A) (l : list A),
            Forall2 (fun word v => parse word = Some v) (concat (map Py.split data)) l ->
            read_values parse (length (concat (map Py.split data))) [] (data ++ rest)
              = (Ok l, rest)).
  { intros A parse l Htok.
    pose proof (Forall2_length _ _ _ Htok) as Hlen.
    rewrite (read_values_lines parse data _ l rest Hdata Htok) by lia.
    rewrite Hlen, Nat.sub_diag. simpl. rewrite app_nil_r. reflexivity. }
  split; intros l -> Htok; simpl; rewrite Hc; simpl;
    unfold read_array; rewrite Hint;
    (destruct (Z.ltb_spec (Z.of_nat (length (concat (map Py.split data)))) 0) as [Hneg|_];
     [lia|]);
    (destruct (Z.ltb_spec MAX_LENGTH (Z.of_nat (length (concat (map Py.split data)))))
       as [Hbig|_]; [lia|]);
    cbn [orb]; rewrite Nat2Z.id; unfold mbind, LitM_bind.
  - rewrite (Hgen Z int64_of_string l); [reflexivity|].
    eapply Forall2_impl; [exact Htok|]. intros word z [Hz Hfit].
    unfold int64_of_string. rewrite Hz. simpl. rewrite Hfit. reflexivity.
  - rewrite (Hgen float float_of_string l Htok). reflexivity.
Qed.

(** X6: an array cut short by the end of the file.  Let the lines left
    after the header of a requested array hold fewer values than it
    declares.  When the declared length is one that [np.zeros] accepts
    (at most [MAX_LENGTH]), the reader stops with StopIteration at the end
    of the file, and the store loop returns what it had stored before: the
    array is dropped without an error.  When the declared length is
    larger, [np.zeros] raises ValueError before any value is read: the
    reader and the store loop fail with it, the cursor behind the header
    line. *)
Theorem truncated_array_is_dropped (line label w : string) (dt : dtype) (n : Z)
    (data : list string) :
  classify fnmatch label_patterns line = Array label dt "N=" w ->
  Py.int w = Some n ->
  Z.of_nat (length (concat (map Py.split data))) < n ->
  Forall (fun l => Py.split l <> []) data ->
  tokens_parse float_of_string dt (concat (map Py.split data)) ->
  (n <= MAX_LENGTH ->
   _load_fchk_field fnmatch float_of_string label_patterns (line :: data)
     = (Raise StopIteration, []) /\
   forall result,
     read_fields fnmatch float_of_string label_patterns result (line :: data)
       = (Ok result, [])) /\
  (MAX_LENGTH < n ->
   _load_fchk_field fnmatch float_of_string label_patterns (line :: data)
     = (Raise ValueError, data) /\
   forall result,
     read_fields fnmatch float_of_string label_patterns result (line :: data)
       = (Raise ValueError, data)).
Proof.
  intros Hc Hint Hlt Hdata Hparse. split; [intros Hmax | intros Hmax].
  2: { assert (Hfield : _load_fchk_field fnmatch float_of_string label_patterns
                          (line :: data) = (Raise ValueError, data)).
       { simpl. rewrite Hc. simpl. unfold read_array. rewrite Hint.
         destruct (Z.ltb_spec MAX_LENGTH n) as [_|Hle]; [|lia].
         rewrite orb_true_r. reflexivity. }
       split; [exact Hfield|].
       intros result. unfold read_fields. cbn [store_loop]. rewrite Hfield.
       reflexivity. }
  assert (Hgen : forall A (parse : string -> option A),
            Forall (fun word => is_Some (parse word)) (concat (map Py.split data)) ->
            read_values parse (Z.to_nat n) [] data = (Raise StopIteration, [])).
  { intros A parse Hall. destruct (all_parsed parse _ Hall) as [vs Htok].
    pose proof (Forall2_length _ _ _ Htok) as Hlen.
    rewrite <- (app_nil_r data) at 1.
    rewrite (read_values_lines parse data _ vs [] Hdata Htok) by lia.
    destruct (Z.to_nat n - length vs)%nat as [|k] eqn:Hk; [lia|]. reflexivity. }
  assert (Hfield : _load_fchk_field fnmatch float_of_string label_patterns (line :: data)
                   = (Raise StopIteration, [])).
  { simpl. rewrite Hc. simpl. unfold read_array. rewrite Hint.
    destruct (Z.ltb_spec n 0) as [Hneg|_]; [lia|].
    destruct (Z.ltb_spec MAX_LENGTH n) as [Hbig|_]; [lia|]. cbn [orb].
    unfold mbind, LitM_bind.
    destruct dt; simpl in Hparse; rewrite (Hgen _ _ Hparse); reflexivity. }
  split; [exact Hfield|].
  intros result. unfold read_fields. cbn [store_loop]. rewrite Hfield. reflexivity.
Qed.

(** X7: the keys of the store.  [_load_fchk_low] returns only for files
    of at least two lines, and every entry of the store is the title, a
    word of the second line under 'command', 'lot' or 'obasis_name', or
    a number or an array under the label of a later line that matches a
    requested pattern.  The title, the command and the level of theory
    are always present. *)
Theorem store_entries (lit lit' : list string) (fchk : gmap string value) :
  _load_fchk_low fnmatch float_of_string label_patterns lit = (Ok fchk, lit') ->
  exists title line rest,
    lit = title :: line :: rest /\
    (forall k v, fchk !! k = Some v ->
       (k = "title" /\ v = VStr (Py.strip title)) \/
       (exists i word, ["command"; "lot"; "obasis_name"] !! i = Some k /\
                       Py.split line !! i = Some word /\ v = VStr word) \/
       (label_matches fnmatch k label_patterns = true /\
        (exists l, In l rest /\ k = Py.strip (Py.prefix 43 l)) /\
        forall s, v <> VStr s)) /\
    is_Some (fchk !! "title") /\ is_Some (fchk !! "command") /\ is_Some (fchk !! "lot").
Proof.
  unfold _load_fchk_low, mbind, LitM_bind, next. intros H.
  destruct lit as [|title [|line rest]]; try discriminate.
  exists title, line, rest. split; [reflexivity|].
  assert (Hgrow : forall fuel lit0 result result' lit1,
            store_loop fnmatch float_of_string fuel label_patterns result lit0
              = (Ok result', lit1) ->
            forall k, is_Some (result !! k) -> is_Some (result' !! k)).
  { induction fuel as [|fuel IH]; intros lit0 result result' lit1 Hl k Hk; simpl in Hl.
    - injection Hl as <- _. exact Hk.
    - destruct (_load_fchk_field fnmatch float_of_string label_patterns lit0)
        as [[[label v]|e] lit2].
      + eapply IH; [exact Hl|].
        destruct (decide (k = label)) as [->|Hne];
          [rewrite lookup_insert_eq; eauto | rewrite lookup_insert_ne by congruence; exact Hk].
      + destruct e; try discriminate. injection Hl as <- _. exact Hk. }
  destruct (Py.split line) as [|w1 [|w2 [|w3 [|w4 ws]]]] eqn:Hw; simpl in H;
    try discriminate; unfold read_fields in H.
  - split; [|repeat split; eapply Hgrow; try exact H;
               rewrite ?lookup_insert_eq; try (rewrite lookup_insert_ne by discriminate);
               rewrite ?lookup_insert_eq; try (rewrite lookup_insert_ne by discriminate);
               rewrite ?lookup_insert_eq; eauto].
    intros k v Hk.
    destruct (store_loop_keys _ _ _ _ _ _ _ _ H k v Hk) as [Hin|Hfield];
      [|right; right; exact Hfield].
    destruct (decide (k = "lot")) as [->|Hlot].
    { rewrite lookup_insert_eq in Hin. injection Hin as <-.
      right. left. exists 1%nat, w2. auto. }
    rewrite lookup_insert_ne in Hin by congruence.
    destruct (decide (k = "command")) as [->|Hcmd].
    { rewrite lookup_insert_eq in Hin. injection Hin as <-.
      right. left. exists 0%nat, w1. auto. }
    rewrite lookup_insert_ne in Hin by congruence.
    destruct (decide (k = "title")) as [->|Htitle].
    { rewrite lookup_insert_eq in Hin. injection Hin as <-. left. auto. }
    rewrite lookup_insert_ne in Hin by congruence.
    rewrite lookup_empty in Hin. discriminate.
  - split; [|repeat split; eapply Hgrow; try exact H;
               rewrite ?lookup_insert_eq; try (rewrite lookup_insert_ne by discriminate);
               rewrite ?lookup_insert_eq; try (rewrite lookup_insert_ne by discriminate);
               rewrite ?lookup_insert_eq; try (rewrite lookup_insert_ne by discriminate);
               rewrite ?lookup_insert_eq; eauto].
    intros k v Hk.
    destruct (store_loop_keys _ _ _ _ _ _ _ _ H k v Hk) as [Hin|Hfield];
      [|right; right; exact Hfield].
    destruct (decide (k = "obasis_name")) as [->|Hob].
    { rewrite lookup_insert_eq in Hin. injection Hin as <-.
      right. left. exists 2%nat, w3. auto. }
    rewrite lookup_insert_ne in Hin by congruence.
    destruct (decide (k = "lot")) as [->|Hlot].
    { rewrite lookup_insert_eq in Hin. injection Hin as <-.
      right. left. exists 1%nat, w2. auto. }
    rewrite lookup_insert_ne in Hin by congruence.
    destruct (decide (k = "command")) as [->|Hcmd].
    { rewrite lookup_insert_eq in Hin. injection Hin as <-.
      right. left. exists 0%nat, w1. auto. }
    rewrite lookup_insert_ne in Hin by congruence.
    destruct (decide (k = "title")) as [->|Htitle].
    { rewrite lookup_insert_eq in Hin. injection Hin as <-. left. auto. }
    rewrite lookup_insert_ne in Hin by congruence.
    rewrite lookup_empty in Hin. discriminate.
Qed.

(** X8: the exceptions of [_load_fchk_low].  Whatever the file, a failure
    of the reader is StopIteration (the header is incomplete), the error
    of the header check, IndexError (a blank line inside an array),
    ValueError (a declared length that is not a non-negative integer) or
    one of the two errors of [lit.error] about a field; in particular it
    is never a KeyError or a TypeError. *)
Theorem reader_exceptions (lit lit' : list string) (e : exn) :
  _load_fchk_low fnmatch float_of_string label_patterns lit = (Raise e, lit') ->
  e = LitError header_error \/ reader_exn e.
Proof.
  unfold _load_fchk_low, mbind, LitM_bind, next. intros H.
  destruct lit as [|title [|line rest]];
    try (injection H as <- _; right; unfold reader_exn; auto; fail).
  destruct (Py.split line) as [|w1 [|w2 [|w3 [|w4 ws]]]] eqn:Hw; simpl in H;
    try (injection H as <- _; left; reflexivity);
    unfold read_fields in H; right; eapply store_loop_exn; exact H.
Qed.

End ArrayFacts.

Lemma array_field_read_witness :
  _load_fchk_field glob float_of_small_int interleaved_labels
      (field_line "Atomic numbers" "I   N=           3"
       :: ["           8           1"; "           1"] ++ matched_tail)
    = (Ok ("Atomic numbers", VArr (IntArr [8; 1; 1])), matched_tail).
Proof.
  apply (proj1 (array_field_read glob float_of_small_int interleaved_labels
                  (field_line "Atomic numbers" "I   N=           3")
                  "Atomic numbers" "3" DInt
                  ["           8           1"; "           1"] matched_tail
                  eq_refl eq_refl ltac:(vm_compute; discriminate)
                  ltac:(repeat constructor; vm_compute; discriminate))
               [8; 1; 1] eq_refl).
  repeat constructor.
Defined.

Lemma truncated_array_is_dropped_witness :
  (_load_fchk_field glob float_of_small_int None
       [field_line "Atomic numbers" "I   N=           3"; "           8           1"]
     = (Raise StopIteration, []) /\
   forall result,
     read_fields glob float_of_small_int None result
         [field_line "Atomic numbers" "I   N=           3"; "           8           1"]
       = (Ok result, [])) /\
  (_load_fchk_field glob float_of_small_int None
       [field_line "Atomic numbers" "I   N= 1152921504606846976";
        "           8           1"]
     = (Raise ValueError, ["           8           1"]) /\
   forall result,
     read_fields glob float_of_small_int None result
         [field_line "Atomic numbers" "I   N= 1152921504606846976";
          "           8           1"]
       = (Raise ValueError, ["           8           1"])).
Proof.
  assert (Htokens : tokens_parse float_of_small_int DInt
                      (concat (map Py.split ["           8           1"]))).
  { unfold tokens_parse.
    change (concat (map Py.split ["           8           1"])) with ["8"; "1"].
    repeat constructor; eexists; reflexivity. }
  split.
  - apply (proj1 (truncated_array_is_dropped glob float_of_small_int None
                    (field_line "Atomic numbers" "I   N=           3")
                    "Atomic numbers" "3" DInt 3 ["           8           1"]
                    eq_refl eq_refl ltac:(vm_compute; reflexivity)
                    ltac:(repeat constructor; vm_compute; discriminate) Htokens)).
    vm_compute. discriminate.
  - apply (proj2 (truncated_array_is_dropped glob float_of_small_int None
                    (field_line "Atomic numbers" "I   N= 1152921504606846976")
                    "Atomic numbers" "1152921504606846976" DInt
                    1152921504606846976 ["           8           1"]
                    ltac:(vm_refl) ltac:(vm_refl) ltac:(vm_compute; reflexivity)
                    ltac:(repeat constructor; vm_compute; discriminate) Htokens)).
    vm_compute. reflexivity.
Defined.

Lemma store_entries_witness :
  exists title line rest,
    small_file = title :: line :: rest /\
    (forall k v, store_of ["Number*"] small_file !! k = Some v ->
       (k = "title" /\ v = VStr (Py.strip title)) \/
       (exists i word, ["command"; "lot"; "obasis_name"] !! i = Some k /\
                       Py.split line !! i = Some word /\ v = VStr word) \/
       (label_matches glob k (Some ["Number*"]) = true /\
        (exists l, In l rest /\ k = Py.strip (Py.prefix 43 l)) /\
        forall s, v <> VStr s)) /\
    is_Some (store_of ["Number*"] small_file !! "title") /\
    is_Some (store_of ["Number*"] small_file !! "command") /\
    is_Some (store_of ["Number*"] small_file !! "lot").
Proof.
  apply (store_entries glob float_of_small_int (Some ["Number*"]) small_file []
           (store_of ["Number*"] small_file)).
  vm_refl.
Defined.

Lemma reader_exceptions_witness :
  ValueError = LitError header_error \/ reader_exn ValueError.
Proof.
  apply (reader_exceptions glob float_of_small_int None
           ["title"; "SP RHF"; field_line "Atomic numbers" "I   N=           x"] []
           ValueError).
  reflexivity.
Defined.

(** ** Numeric helpers on all sizes *)

(** X9: [_sort_quadrupole] by the size of its argument.  The empty array
    gives the empty array; an array of one to five elements raises
    IndexError; on six or more elements the first six are permuted from
    (xx,xy,xz,yy,yz,zz) to (xx,yy,zz,xy,xz,yz) and the others are
    replaced by zeros. *)
Theorem sort_quadrupole_sizes (q : ndarray) :
  (arr_size q = 0%nat -> _sort_quadrupole q = Ok (RealArr [])) /\
  ((0 < arr_size q < 6)%nat -> _sort_quadrupole q = Raise IndexError) /\
  ((6 <= arr_size q)%nat ->
   exists xx xy xz yy yz zz others,
     arr_floats q = [xx; xy; xz; yy; yz; zz] ++ others /\
     _sort_quadrupole q
       = Ok (RealArr ([xx; yy; zz; xy; xz; yz] ++ replicate (length others) 0%float))).
Proof.
  assert (Hsize : arr_size q = length (arr_floats q)).
  { destruct q as [l|l]; simpl; [rewrite length_map|]; reflexivity. }
  rewrite Hsize. unfold _sort_quadrupole.
  destruct (arr_floats q) as [|x0 [|x1 [|x2 [|x3 [|x4 [|x5 others]]]]]];
    (split; [|split]); simpl; intros H; try lia; try reflexivity.
  exists x0, x1, x2, x3, x4, x5, others. split; reflexivity.
Qed.

Section DenseFacts.

Local Open Scope nat_scope.

Lemma triangle_index_S (r : nat) : triangle_index (S r) 0 = triangle_index r 0 + S r.
Proof.
  unfold triangle_index. rewrite !Nat.add_0_r.
  replace (S r * (S r + 1)) with (r * (r + 1) + S r * 2) by lia.
  rewrite Nat.div_add by lia. reflexivity.
Qed.

Lemma triangle_index_double (r : nat) : 2 * triangle_index r 0 = r * (r + 1).
Proof.
  induction r as [|r IH]; [reflexivity|]. rewrite triangle_index_S. lia.
Qed.

Lemma triangle_index_add (r c : nat) : triangle_index r c = triangle_index r 0 + c.
Proof. unfold triangle_index. lia. Qed.

Lemma dense_of_square (n : nat) (t : list float) : square n (dense_of n t).
Proof.
  unfold dense_of, square. split; [apply tab_length|].
  unfold tab. apply Forall_forall. intros row Hrow.
  apply list_elem_of_fmap in Hrow. destruct Hrow as (r & -> & _).
  rewrite length_map, length_seq. reflexivity.
Qed.

Lemma dense_of_entry (n : nat) (t : list float) (r c : nat) :
  entry (dense_of n t) r c
    = if (r <? n) && (c <? n)
      then Some (default 0%float (t !! triangle_index (Nat.max r c) (Nat.min r c)))
      else None.
Proof.
  unfold entry, dense_of.
  destruct (Nat.ltb_spec r n) as [Hr|Hr]; simpl.
  - rewrite tab_row by exact Hr. simpl.
    destruct (Nat.ltb_spec c n) as [Hc|Hc].
    + rewrite (lookup_tabulate n _ c Hc). reflexivity.
    + apply lookup_ge_None. rewrite length_map, length_seq. exact Hc.
  - rewrite (proj2 (lookup_ge_None _ _)); [reflexivity|]. rewrite tab_length. exact Hr.
Qed.

Lemma dense_of_symmetric (n : nat) (t : list float) : symmetric (dense_of n t).
Proof.
  intros r c. rewrite !dense_of_entry.
  rewrite (Nat.max_comm c r), (Nat.min_comm c r), (andb_comm (c <? n)). reflexivity.
Qed.

Lemma lower_triangle_dense_of (n : nat) (t : list float) :
  2 * length t = n * (n + 1) ->
  forall m i0, i0 + m = n ->
  lower_triangle i0 (drop i0 (dense_of n t)) = drop (triangle_index i0 0) t.
Proof.
  intros Hlen. induction m as [|m IH]; intros i0 Hi0.
  - rewrite drop_ge by (unfold dense_of; rewrite tab_length; lia).
    rewrite drop_ge; [reflexivity|].
    pose proof (triangle_index_double i0). assert (i0 = n) by lia. subst. lia.
  - assert (Hlt : i0 < n) by lia.
    rewrite (drop_S _ (map (fun c => default 0%float
                              (t !! triangle_index (Nat.max i0 c) (Nat.min i0 c)))
                           (seq 0 n)) i0)
      by (unfold dense_of; apply tab_row; exact Hlt).
    simpl. rewrite IH by lia. rewrite triangle_index_S.
    rewrite <- (take_drop (S i0) (drop (triangle_index i0 0) t)).
    rewrite drop_drop. f_equal.
    pose proof (triangle_index_double i0) as Hd.
    pose proof (triangle_index_double (S i0)) as HdS. rewrite triangle_index_S in HdS.
    assert (Hle : S i0 * (S i0 + 1) <= n * (n + 1)) by nia.
    apply list_eq. intros k.
    destruct (decide (k < S i0)) as [Hk|Hk].
    + rewrite !lookup_take_lt by lia.
      rewrite (lookup_tabulate n _ k) by lia.
      rewrite lookup_drop.
      replace (Nat.max i0 k) with i0 by lia. replace (Nat.min i0 k) with k by lia.
      rewrite triangle_index_add.
      destruct (lookup_lt_is_Some_2 t (triangle_index i0 0 + k) ltac:(lia)) as [x ->].
      reflexivity.
    + rewrite !lookup_take_ge by lia. reflexivity.
Qed.

Lemma triangle_to_dense_lower (n : nat) (M : Matrix) :
  square n M -> symmetric M ->
  _triangle_to_dense (RealArr (lower_triangle 0 M)) = Ok M.
Proof.
  intros Hsq Hsym.
  assert (H2L : 2 * length (lower_triangle 0 M) = n * (n + 1)).
  { destruct Hsq as [Hlen Hrows].
    pose proof (lower_triangle_length M n 0 Hrows ltac:(lia)) as H.
    rewrite Hlen in H. lia. }
  unfold _triangle_to_dense. simpl arr_floats.
  rewrite (nrow_of_length_triangular n _ H2L), zeros2_tab.
  pose proof (fill_rows_tab n M Hsq Hsym n 0 (fun _ _ => 0%float) ltac:(lia)) as Hfill.
  simpl in Hfill. rewrite Hfill. f_equal.
  transitivity (tab n (at_ M)); [|symmetry; apply square_tab; exact Hsq].
  apply tab_ext. intros r c Hr Hc.
  destruct (Nat.ltb_spec (Nat.max r c) n); [reflexivity | lia].
Qed.

(** X10: the expansion of triangular storage, and the round trip from
    the file side.  For an array [t] of [n (n + 1) / 2] reals
    [_triangle_to_dense] returns the [n] by [n] matrix whose entry
    [(r, c)] is the element of index [m (m + 1) / 2 + min r c] of [t],
    with [m = max r c]; the matrix is symmetric, and [_get_TriangleMat]
    gives [t] back. *)
Theorem dense_round_trip (n : nat) (t : list float) :
  2 * length t = n * (n + 1) ->
  _triangle_to_dense (RealArr t) = Ok (dense_of n t) /\
  square n (dense_of n t) /\
  symmetric (dense_of n t) /\
  (forall r c, r < n -> c < n ->
     entry (dense_of n t) r c
       = t !! (Nat.max r c * (Nat.max r c + 1) / 2 + Nat.min r c)) /\
  _get_TriangleMat (dense_of n t) = Ok (RealArr t).
Proof.
  intros Hlen.
  pose proof (dense_of_square n t) as Hsq.
  pose proof (dense_of_symmetric n t) as Hsym.
  pose proof (lower_triangle_dense_of n t Hlen n 0 ltac:(lia)) as Hlow.
  rewrite !drop_0 in Hlow.
  split; [|split; [exact Hsq|split; [exact Hsym|split]]].
  - rewrite <- Hlow at 1. apply (triangle_to_dense_lower n); assumption.
  - intros r c Hr Hc. rewrite dense_of_entry.
    rewrite (proj2 (Nat.ltb_lt _ _) Hr), (proj2 (Nat.ltb_lt _ _) Hc). cbn [andb].
    unfold triangle_index.
    pose proof (triangle_index_double (Nat.max r c)) as Hd.
    unfold triangle_index in Hd. rewrite Nat.add_0_r in Hd.
    set (T := Nat.max r c * (Nat.max r c + 1) / 2) in *.
    assert (Hle : Nat.max r c * (Nat.max r c + 1) + 2 * Nat.max r c + 2 <= n * (n + 1))
      by nia.
    destruct (lookup_lt_is_Some_2 t (T + Nat.min r c) ltac:(lia)) as [x ->].
    reflexivity.
  - rewrite (get_TriangleMat_square n _ Hsq), Hlow. reflexivity.
Qed.

End DenseFacts.

Lemma dense_round_trip_witness :
  _triangle_to_dense (RealArr [1; 2; 3; 4; 5; 6]%float) = Ok sample_matrix /\
  _get_TriangleMat sample_matrix = Ok (RealArr [1; 2; 3; 4; 5; 6]%float).
Proof.
  destruct (dense_round_trip 3 [1; 2; 3; 4; 5; 6]%float eq_refl)
    as (Hdense & _ & _ & _ & Hflat).
  split; [exact Hdense | exact Hflat].
Defined.

(** ** The single-frame assembler: orbitals and densities *)

Lemma slice_fill_lookup_range {A} (l : list A) (b e : Z) (x : A) (i : nat) :
  0 <= b -> 0 <= e -> (i < length l)%nat ->
  slice_fill l b e x !! i
    = if (b <=? Z.of_nat i) && (Z.of_nat i <? e) then Some x else l !! i.
Proof.
  intros Hb He Hi. unfold slice_fill.
  set (n := Z.of_nat (length l)).
  assert (Hb' : Py.clamp n b = Z.min b n).
  { unfold Py.clamp. destruct (b <? 0) eqn:E; lia. }
  assert (He' : Py.clamp n e = Z.min e n).
  { unfold Py.clamp. destruct (e <? 0) eqn:E; lia. }
  rewrite Hb', He'.
  destruct (Z.to_nat (Z.min b n) <? Z.to_nat (Z.min e n))%nat eqn:E.
  - apply Nat.ltb_lt in E.
    destruct (Z.leb_spec b (Z.of_nat i)) as [Hbi|Hbi]; simpl.
    + rewrite lookup_app_r by (rewrite length_take; lia).
      rewrite length_take.
      destruct (Z.ltb_spec (Z.of_nat i) e) as [Hie|Hie].
      * rewrite lookup_app_l by (rewrite length_replicate; lia).
        apply lookup_replicate_2. lia.
      * rewrite lookup_app_r by (rewrite length_replicate; lia).
        rewrite length_replicate, lookup_drop. f_equal. lia.
    + rewrite lookup_app_l by (rewrite length_take; lia).
      apply lookup_take_lt. lia.
  - apply Nat.ltb_ge in E.
    destruct (Z.leb_spec b (Z.of_nat i)) as [Hbi|Hbi]; simpl; [|reflexivity].
    destruct (Z.ltb_spec (Z.of_nat i) e) as [Hie|Hie]; [lia | reflexivity].
Qed.

Lemma unrestricted_occs_spec (n a b : Z) :
  0 <= n -> 0 <= a -> 0 <= b ->
  exists mo_occs,
    unrestricted_occs n a b = Ok mo_occs /\
    length mo_occs = Z.to_nat (2 * n) /\
    forall i, (i < Z.to_nat (2 * n))%nat ->
      mo_occs !! i = Some (if (Z.of_nat i <? a)
                              || ((n <=? Z.of_nat i) && (Z.of_nat i <? n + b))
                           then 1%float else 0%float).
Proof.
  intros Hn Ha Hb. unfold unrestricted_occs, zeros.
  destruct (2 * n <? 0) eqn:E; [apply Z.ltb_lt in E; lia|]. simpl.
  eexists. split; [reflexivity|]. split.
  - rewrite !slice_fill_length, length_replicate. reflexivity.
  - intros i Hi.
    rewrite slice_fill_lookup_range
      by (rewrite ?slice_fill_length, ?length_replicate; lia).
    rewrite slice_fill_lookup_range by (rewrite ?length_replicate; lia).
    rewrite lookup_replicate_2 by lia.
    destruct ((n <=? Z.of_nat i) && (Z.of_nat i <? n + b)); [rewrite orb_true_r; reflexivity|].
    rewrite orb_false_r.
    replace (0 <=? Z.of_nat i) with true by (symmetry; apply Z.leb_le; lia).
    simpl. destruct (Z.ltb_spec (Z.of_nat i) a); reflexivity.
Qed.

Section LoaderExtras.

Variable amu : float.

Variable fnmatch : string -> string -> bool.

Variable float_of_string : string -> option float.

(** What [load_one] returns, in terms of the parts of the assembler. *)
Lemma assemble_inv (fchk : gmap string value) (r : LoadOne) :
  assemble amu fchk = Ok r ->
  exists nbasis rdms rdms',
    fchk !! "Number of basis functions" = Some nbasis /\
    load_rdms fchk = Ok rdms /\
    load_mo fchk nbasis (nonempty_rdms rdms) = Ok (r_mo r, rdms') /\
    r_one_rdms r = rdms' /\
    is_ok (load_simple amu fchk) = true /\
    load_obasis fchk = Ok (r_obasis r).
Proof.
  unfold assemble. intros H.
  bind_ok H as s Hs. bind_ok H as sh Hsh. bind_ok H as nb Hnb.
  bind_ok H as rd Hrd. bind_ok H as mo Hmo. destruct mo as [mo rd'].
  bind_ok H as ex Hex. bind_ok H as mom Hmom.
  injection H as <-. simpl.
  apply getkey_ok in Hnb.
  exists nb, rd, rd'. repeat split; assumption.
Qed.

(** X11: the occupations of unrestricted orbitals.  When a file with a
    field 'Beta Orbital Energies' is loaded, the record holds
    unrestricted orbitals; the occupation array has twice the length of
    the independent-function count [n] that the file declares (in its
    field 'Number of independant functions' or, without it, 'Number of
    independent functions', or, without both, as its number of basis
    functions); its entry [i] is 1.0 when [i < a] or [n <= i < n + b],
    for [a] alpha and [b] beta electrons, and 0.0 otherwise; the numbers
    of alpha and beta orbitals are the sizes of the two arrays of orbital
    energies, and the density matrices are all kept. *)
Theorem unrestricted_occupations (lit lit' : list string) (fchk : gmap string value)
    (r : LoadOne) (energies_b : value) (rdms : gmap string Matrix) (n a b : Z) :
  _load_fchk_low fnmatch float_of_string (Some LOAD_ONE_LABELS) lit = (Ok fchk, lit') ->
  load_one amu fnmatch float_of_string lit = (Ok r, lit') ->
  fchk !! "Beta Orbital Energies" = Some energies_b ->
  fchk !! "Number of alpha electrons" = Some (VNum (NInt a)) ->
  fchk !! "Number of beta electrons" = Some (VNum (NInt b)) ->
  independent_count fchk n ->
  load_rdms fchk = Ok rdms ->
  mo_kind (r_mo r) = "unrestricted" /\
  length (occs (r_mo r)) = Z.to_nat (2 * n) /\
  (forall i, (i < Z.to_nat (2 * n))%nat ->
     occs (r_mo r) !! i
       = Some (if (Z.of_nat i <? a) || ((n <=? Z.of_nat i) && (Z.of_nat i <? n + b))
               then 1%float else 0%float)) /\
  (getkey fchk "Alpha Orbital Energies" ≫= shape0_of) = Ok (norba (r_mo r)) /\
  shape0_of energies_b = Ok (norbb (r_mo r)) /\
  r_one_rdms r = nonempty_rdms rdms.
Proof.
  intros Hstore Hload Hbeta Ha Hb Hcount Hrd.
  rewrite (load_one_store _ _ _ _ _ _ Hstore) in Hload. injection Hload as Hload.
  destruct (assemble_inv _ _ Hload)
    as (nbasis & rd & rd' & Hnb & Hrd' & Hmo & Hrdms & _).
  pose proof (independent_count_value _ _ _ Hnb Hcount) as Hn.
  rewrite Hrd in Hrd'. injection Hrd' as <-.
  rewrite Hrdms. clear Hrdms Hload.
  unfold load_mo in Hmo. bind_ok Hmo as o Ho. rewrite Hbeta in Hmo.
  bind_ok Hmo as nbb Hnbb. bind_ok Hmo as cb Hcb. bind_ok Hmo as c Hc.
  bind_ok Hmo as mo_occs Hoccs.
  destruct energies_b as [| |eb]; try discriminate.
  injection Hmo as Hmo <-.
  destruct (load_orbitals_inv _ _ _ Ho) as (Ha' & Hb' & Hchk & Hn' & Hn0).
  rewrite Ha in Ha'. rewrite Hb in Hb'. rewrite Hn in Hn'.
  injection Ha' as ->. injection Hb' as ->. injection Hn' as ->.
  apply check_electrons_ok in Hchk.
  destruct (unrestricted_occs_spec (o_nbasis_indep o) (o_nalpha o) (o_nbeta o))
    as (occs' & Hoccs' & Hlen & Hnth); [lia | lia | lia |].
  rewrite Hoccs in Hoccs'. injection Hoccs' as <-.
  assert (Hnorba : (getkey fchk "Alpha Orbital Energies" ≫= shape0_of) = Ok (o_norba o)).
  { unfold load_orbitals in Ho.
    bind_ok Ho as va Hva. bind_ok Ho as vb Hvb. bind_ok Ho as a' Ha'.
    bind_ok Ho as b' Hb'. bind_ok Ho as u Hu. bind_ok Ho as norba Hnorba.
    bind_ok Ho as c' Hc'. bind_ok Ho as ve Hve. bind_ok Ho as n' Hn'.
    destruct ve as [| |e]; try discriminate. injection Ho as <-. reflexivity. }
  rewrite <- Hmo. simpl.
  split; [reflexivity|]. split; [exact Hlen|]. split; [exact Hnth|].
  split; [exact Hnorba|]. split; reflexivity.
Qed.

(** X12: the SCF density of restricted open-shell orbitals.  When a file
    without 'Beta Orbital Energies' is loaded and its electron counts
    differ, the record has an entry [one_rdms] without the key 'scf',
    which the file did hold, and with the other densities; the entry
    stays when it becomes empty.  With equal counts, or with beta
    orbitals, the densities are all kept and the entry is absent when
    there is none. *)
Theorem scf_density_discarded (lit lit' : list string) (fchk : gmap string value)
    (r : LoadOne) (rdms : gmap string Matrix) (a b : Z) :
  _load_fchk_low fnmatch float_of_string (Some LOAD_ONE_LABELS) lit = (Ok fchk, lit') ->
  load_one amu fnmatch float_of_string lit = (Ok r, lit') ->
  fchk !! "Number of alpha electrons" = Some (VNum (NInt a)) ->
  fchk !! "Number of beta electrons" = Some (VNum (NInt b)) ->
  load_rdms fchk = Ok rdms ->
  (fchk !! "Beta Orbital Energies" = None -> a <> b ->
     is_Some (fchk !! "Total SCF Density") /\
     is_Some (rdms !! "scf") /\
     r_one_rdms r = Some (delete "scf" rdms)) /\
  (fchk !! "Beta Orbital Energies" = None -> a = b ->
     r_one_rdms r = nonempty_rdms rdms) /\
  (is_Some (fchk !! "Beta Orbital Energies") ->
     r_one_rdms r = nonempty_rdms rdms).
Proof.
  intros Hstore Hload Ha Hb Hrd.
  rewrite (load_one_store _ _ _ _ _ _ Hstore) in Hload. injection Hload as Hload.
  destruct (assemble_inv _ _ Hload) as (nb & rd & rd' & Hnb' & Hrd' & Hmo & Hrdms & _).
  rewrite Hrd in Hrd'. injection Hrd' as <-.
  rewrite Hrdms. clear Hrdms Hload.
  unfold load_mo in Hmo. bind_ok Hmo as o Ho.
  destruct (load_orbitals_inv _ _ _ Ho) as (Ha' & Hb' & _).
  rewrite Ha in Ha'. rewrite Hb in Hb'. injection Ha' as ->. injection Hb' as ->.
  split; [|split].
  - intros Hbeta Hne. rewrite Hbeta in Hmo.
    bind_ok Hmo as mo_occs Hoccs.
    destruct (Z.eqb_spec (o_nalpha o) (o_nbeta o)) as [Heq|_]; [contradiction|].
    simpl in Hmo. bind_ok Hmo as rd'' Hpop. injection Hmo as _ <-.
    unfold pop_scf, nonempty_rdms in Hpop.
    destruct (decide (rdms = ∅)); [discriminate|].
    destruct (rdms !! "scf") as [m|] eqn:Hscf; [|discriminate].
    injection Hpop as <-.
    split; [|split; [eauto | reflexivity]].
    destruct (fchk !! "Total SCF Density") eqn:Hf; [eauto|].
    rewrite (load_rdms_no_scf _ _ Hrd Hf) in Hscf. discriminate.
  - intros Hbeta Heq. rewrite Hbeta in Hmo.
    bind_ok Hmo as mo_occs Hoccs.
    rewrite (proj2 (Z.eqb_eq _ _) Heq) in Hmo. simpl in Hmo.
    injection Hmo as _ <-. reflexivity.
  - intros [eb Hbeta]. rewrite Hbeta in Hmo.
    bind_ok Hmo as nbb Hnbb. bind_ok Hmo as cb Hcb. bind_ok Hmo as c Hc.
    bind_ok Hmo as mo_occs Hoccs.
    destruct eb as [| |eb]; try discriminate.
    injection Hmo as _ <-. reflexivity.
Qed.

End LoaderExtras.

(** The sample file with two alpha electrons, one beta electron and
    beta orbitals, which declares 3 basis functions and no count of
    independent functions: the occupations are [1, 1, 0] and [1, 0, 0].
    The file of 3 basis functions that declares 2 independent functions,
    with the same electrons: the occupations are [1, 1] and [1, 0]. *)
Lemma unrestricted_occupations_witness :
  match load_one sample_amu glob float_of_small_int
          (sample_file "2" "1" beta_orbital_lines) with
  | (Ok r, _) =>
      occs (r_mo r) = [1; 1; 0; 1; 0; 0]%float /\
      mo_kind (r_mo r) = "unrestricted" /\
      norba (r_mo r) = 3%nat /\ norbb (r_mo r) = 3%nat /\
      r_one_rdms r = None
  | (Raise _, _) => False
  end /\
  match load_one sample_amu glob float_of_small_int
          (sample_dependent "Number of independent functions" dependent_beta_lines) with
  | (Ok r, _) =>
      occs (r_mo r) = [1; 1; 1; 0]%float /\
      mo_kind (r_mo r) = "unrestricted" /\
      length (occs (r_mo r)) = Z.to_nat (2 * 2) /\
      norba (r_mo r) = 2%nat /\ norbb (r_mo r) = 2%nat
  | (Raise _, _) => False
  end.
Proof.
  split.
  - destruct (load_one sample_amu glob float_of_small_int
                (sample_file "2" "1" beta_orbital_lines)) as [[r|e] lit'] eqn:Hload.
    + assert (Hlit : lit' = []).
      { apply (f_equal snd) in Hload. vm_compute in Hload. congruence. }
      subst lit'.
      set (fchk := store_of LOAD_ONE_LABELS (sample_file "2" "1" beta_orbital_lines)).
      destruct (unrestricted_occupations sample_amu glob float_of_small_int
                  (sample_file "2" "1" beta_orbital_lines) [] fchk
                  r (VArr (RealArr [-6; -1; 0]%float)) ∅ 3 2 1
                  ltac:(vm_refl) Hload ltac:(vm_refl) ltac:(vm_refl) ltac:(vm_refl)
                  ltac:(vm_compute; reflexivity) ltac:(vm_refl))
        as (Hkind & Hlen & Hocc & Hna & Hnb & Hrd).
      split; [|split; [exact Hkind|split; [|split]]].
      * apply (f_equal (fun x => match fst x with
                                 | Ok r => occs (r_mo r)
                                 | Raise _ => []
                                 end)) in Hload.
        vm_compute in Hload. symmetry. exact Hload.
      * assert (Hna' : (getkey fchk "Alpha Orbital Energies" ≫= shape0_of) = Ok 3%nat)
          by vm_refl.
        rewrite Hna' in Hna. congruence.
      * simpl in Hnb. congruence.
      * rewrite Hrd. reflexivity.
    + apply (f_equal (fun x => is_ok (fst x))) in Hload.
      vm_compute in Hload. discriminate.
  - destruct (load_one sample_amu glob float_of_small_int
                (sample_dependent "Number of independent functions"
                   dependent_beta_lines)) as [[r|e] lit'] eqn:Hload.
    + assert (Hlit : lit' = []).
      { apply (f_equal snd) in Hload. vm_compute in Hload. congruence. }
      subst lit'.
      set (fchk := store_of LOAD_ONE_LABELS
                     (sample_dependent "Number of independent functions"
                        dependent_beta_lines)).
      destruct (unrestricted_occupations sample_amu glob float_of_small_int
                  (sample_dependent "Number of independent functions"
                     dependent_beta_lines) [] fchk
                  r (VArr (RealArr [-6; -1]%float)) ∅ 2 2 1
                  ltac:(vm_refl) Hload ltac:(vm_refl) ltac:(vm_refl) ltac:(vm_refl)
                  ltac:(vm_compute; reflexivity) ltac:(vm_refl))
        as (Hkind & Hlen & Hocc & Hna & Hnb & Hrd).
      split; [|split; [exact Hkind|split; [exact Hlen|split]]].
      * apply (f_equal (fun x => match fst x with
                                 | Ok r => occs (r_mo r)
                                 | Raise _ => []
                                 end)) in Hload.
        vm_compute in Hload. symmetry. exact Hload.
      * assert (Hna' : (getkey fchk "Alpha Orbital Energies" ≫= shape0_of) = Ok 2%nat)
          by vm_refl.
        rewrite Hna' in Hna. congruence.
      * simpl in Hnb. congruence.
    + apply (f_equal (fun x => is_ok (fst x))) in Hload.
      vm_compute in Hload. discriminate.
Defined.

(** The sample file with 3 alpha and 2 beta electrons and an SCF density
    only: the entry of the densities is left empty. *)
Lemma scf_density_discarded_witness :
  match load_one sample_amu glob float_of_small_int
          (sample_file "3" "2" scf_density_lines) with
  | (Ok r, _) => r_one_rdms r = Some ∅
  | (Raise _, _) => False
  end.
Proof.
  destruct (load_one sample_amu glob float_of_small_int
              (sample_file "3" "2" scf_density_lines)) as [[r|e] lit'] eqn:Hload.
  - assert (Hlit : lit' = []).
    { apply (f_equal snd) in Hload. vm_compute in Hload. congruence. }
    subst lit'.
    set (fchk := store_of LOAD_ONE_LABELS (sample_file "3" "2" scf_density_lines)).
    destruct (proj1 (scf_density_discarded sample_amu glob float_of_small_int
                (sample_file "3" "2" scf_density_lines) [] fchk
                r (ok_or ∅ (load_rdms fchk)) 3 2
                ltac:(vm_refl) Hload ltac:(vm_refl) ltac:(vm_refl) ltac:(vm_refl))
                ltac:(vm_refl) ltac:(lia))
      as (_ & _ & Hrd).
    exact Hrd.
  - apply (f_equal (fun x => is_ok (fst x))) in Hload.
    vm_compute in Hload. discriminate.
Defined.

(** X13: a file whose second line has two words only.  The store then
    has no entry 'obasis_name' (no requested label reads like this key),
    and [load_one], which reads it unconditionally, returns no record. *)
Theorem two_word_header_not_loaded (amu : float) (fnmatch : string -> string -> bool)
    (float_of_string : string -> option float) (title line : string)
    (rest : list string) :
  length (Py.split line) = 2%nat ->
  label_matches fnmatch "obasis_name" (Some LOAD_ONE_LABELS) = false ->
  (forall fchk lit',
     _load_fchk_low fnmatch float_of_string (Some LOAD_ONE_LABELS) (title :: line :: rest)
       = (Ok fchk, lit') ->
     fchk !! "obasis_name" = None) /\
  is_ok (fst (load_one amu fnmatch float_of_string (title :: line :: rest))) = false.
Proof.
  intros Hlen Hmatch.
  assert (Hkey : forall fchk lit',
            _load_fchk_low fnmatch float_of_string (Some LOAD_ONE_LABELS)
              (title :: line :: rest) = (Ok fchk, lit') ->
            fchk !! "obasis_name" = None).
  { intros fchk lit' H.
    unfold _load_fchk_low, mbind, LitM_bind, next in H.
    destruct (Py.split line) as [|w1 [|w2 [|w3 ws]]]; try discriminate. simpl in H.
    unfold read_fields in H.
    destruct (fchk !! "obasis_name") as [v|] eqn:Hv; [|reflexivity].
    destruct (store_loop_keys _ _ _ _ _ _ _ _ H _ _ Hv) as [Hin|(Hm & _)].
    - rewrite !lookup_insert_ne in Hin by discriminate.
      rewrite lookup_empty in Hin. discriminate.
    - rewrite Hm in Hmatch. discriminate. }
  split; [exact Hkey|].
  unfold load_one, mbind, LitM_bind.
  destruct (_load_fchk_low fnmatch float_of_string (Some LOAD_ONE_LABELS)
              (title :: line :: rest)) as [[fchk|e] lit'] eqn:Hlow; [|reflexivity].
  specialize (Hkey fchk lit' eq_refl).
  unfold lift. simpl. unfold assemble, load_simple.
  destruct (getkey fchk "title"); [|reflexivity]. simpl.
  destruct (getkey fchk "Total Energy"); [|reflexivity]. simpl.
  destruct (getkey fchk "lot" ≫= str_lower); [|reflexivity]. simpl.
  assert (Hg : getkey fchk "obasis_name" = Raise (KeyError "obasis_name"))
    by (unfold getkey; rewrite Hkey; reflexivity).
  rewrite Hg. reflexivity.
Qed.

Lemma two_word_header_not_loaded_witness :
  is_ok (fst (load_one sample_amu glob float_of_small_int two_word_file)) = false.
Proof.
  apply (two_word_header_not_loaded sample_amu glob float_of_small_int
           "sample" "SP        RHF" [field_line "Total Energy" "R     -24"]);
    reflexivity.
Defined.

Tactic Notation "bind_step" hyp(H) "as" ident(x) ident(Hx) :=
  match type of H with
  | (mbind ?f ?m) = ?r =>
      destruct m as [x|] eqn:Hx;
      [change (f x = r) in H; cbv beta in H | simpl in H; discriminate H]
  end.

Lemma load_dm_lookup (label : string) (fchk : gmap string value)
    (d d' : gmap string Matrix) (key k : string) :
  _load_dm label fchk d key = Ok d' ->
  d' !! k = match fchk !! label with
            | Some v =>
                if decide (k = key)
                then match triangle_of_value v with
                     | Ok m => Some m
                     | Raise _ => None
                     end
                else d !! k
            | None => d !! k
            end.
Proof.
  unfold _load_dm. destruct (fchk !! label) as [v|]; [|congruence].
  intros H. bind_ok H as m Hm. injection H as <-.
  destruct (decide (k = key)) as [->|Hne];
    [apply lookup_insert_eq | apply lookup_insert_ne; congruence].
Qed.

Lemma load_dm_dense (label : string) (fchk : gmap string value)
    (d d' : gmap string Matrix) (key : string) (v : value) :
  _load_dm label fchk d key = Ok d' -> fchk !! label = Some v ->
  exists m, triangle_of_value v = Ok m.
Proof.
  unfold _load_dm. intros H Hv. rewrite Hv in H.
  destruct (triangle_of_value v) as [m|]; [eauto | discriminate].
Qed.

Lemma load_post_scf_lookup (fchk : gmap string value) (lots : list string) :
  forall d d',
  load_post_scf lots fchk d = Ok d' ->
  d' !! "post_scf" = last_level fchk "Total " lots (d !! "post_scf") /\
  d' !! "post_scf_spin" = last_level fchk "Spin " lots (d !! "post_scf_spin") /\
  (forall k, k <> "post_scf" -> k <> "post_scf_spin" -> d' !! k = d !! k) /\
  (forall lot v, In lot lots ->
     fchk !! ("Total " ++ lot ++ " Density")%string = Some v \/
     fchk !! ("Spin " ++ lot ++ " Density")%string = Some v ->
     exists m, triangle_of_value v = Ok m).
Proof.
  induction lots as [|lot lots IH]; intros d d' H; simpl in H.
  - injection H as <-. repeat split. intros lot v [].
  - bind_ok H as d1 Hd1. bind_ok H as d2 Hd2.
    destruct (IH _ _ H) as (Htot & Hspin & Hother & Hdense).
    pose proof (fun k => load_dm_lookup _ _ _ _ _ k Hd1) as H1.
    pose proof (fun k => load_dm_lookup _ _ _ _ _ k Hd2) as H2.
    split; [|split; [|split]].
    + rewrite Htot. unfold last_level. cbn [fold_left]. f_equal.
      rewrite H2, H1. cbn [String.append].
      destruct (fchk !! _); destruct (fchk !! _);
        repeat (destruct (decide _) as [?|?]); try discriminate; congruence.
    + rewrite Hspin. unfold last_level. cbn [fold_left]. f_equal.
      rewrite H2, H1. cbn [String.append].
      destruct (fchk !! _); destruct (fchk !! _);
        repeat (destruct (decide _) as [?|?]); try discriminate; congruence.
    + intros k Hk1 Hk2. rewrite Hother, H2, H1 by assumption.
      destruct (fchk !! _); destruct (fchk !! _);
        repeat (destruct (decide _) as [?|?]); try discriminate; congruence.
    + intros lot' v [<-|Hin] Hv; [|eapply Hdense; eassumption].
      destruct Hv as [Hv|Hv];
        [eapply load_dm_dense; [exact Hd1|exact Hv]
        |eapply load_dm_dense; [exact Hd2|exact Hv]].
Qed.

Lemma last_level_found (fchk : gmap string value) (prefix : string)
    (before after : list string) (lot : string) (v : value) (init : option Matrix) :
  fchk !! (prefix ++ lot ++ " Density")%string = Some v ->
  Forall (fun l => fchk !! (prefix ++ l ++ " Density")%string = None) after ->
  last_level fchk prefix (before ++ lot :: after) init
    = match triangle_of_value v with Ok m => Some m | Raise _ => None end.
Proof.
  intros Hv Hafter. unfold last_level. rewrite fold_left_app. cbn [fold_left]. rewrite Hv.
  induction Hafter as [|l after Hl _ IH]; cbn [fold_left]; [reflexivity|].
  rewrite Hl. exact IH.
Qed.

Lemma last_level_none (fchk : gmap string value) (prefix : string) (lots : list string)
    (init : option Matrix) :
  Forall (fun l => fchk !! (prefix ++ l ++ " Density")%string = None) lots ->
  last_level fchk prefix lots init = init.
Proof.
  unfold last_level. induction 1 as [|l lots Hl _ IH]; cbn [fold_left]; [reflexivity|].
  rewrite Hl. exact IH.
Qed.

(** X14: the density matrices of [load_one].  The dictionary has no key
    beyond 'scf', 'scf_spin', 'post_scf' and 'post_scf_spin'; 'scf' is
    present exactly when the file has a field 'Total SCF Density'; and
    of the levels MP2, MP3, CC, CI the last one that has a field gives
    the density stored under 'post_scf' (respectively 'post_scf_spin'):
    a later level overwrites an earlier one. *)
Theorem post_scf_density_level (fchk : gmap string value) (rdms : gmap string Matrix) :
  load_rdms fchk = Ok rdms ->
  (forall k, is_Some (rdms !! k) ->
     In k ["scf"; "scf_spin"; "post_scf"; "post_scf_spin"]) /\
  (is_Some (rdms !! "scf") <-> is_Some (fchk !! "Total SCF Density")) /\
  (forall prefix key before lot after v,
     In (prefix, key) [("Total ", "post_scf"); ("Spin ", "post_scf_spin")] ->
     ["MP2"; "MP3"; "CC"; "CI"] = before ++ lot :: after ->
     fchk !! (prefix ++ lot ++ " Density")%string = Some v ->
     Forall (fun l => fchk !! (prefix ++ l ++ " Density")%string = None) after ->
     exists m, triangle_of_value v = Ok m /\ rdms !! key = Some m) /\
  (forall prefix key,
     In (prefix, key) [("Total ", "post_scf"); ("Spin ", "post_scf_spin")] ->
     Forall (fun l => fchk !! (prefix ++ l ++ " Density")%string = None)
            ["MP2"; "MP3"; "CC"; "CI"] ->
     rdms !! key = None).
Proof.
  unfold load_rdms. intros H.
  bind_step H as d1 Hd1. bind_step H as d2 Hd2.
  change (load_post_scf ["MP2"; "MP3"; "CC"; "CI"] fchk d2 = Ok rdms) in H.
  destruct (load_post_scf_lookup _ _ _ _ H) as (Htot & Hspin & Hother & Hdense).
  pose proof (fun k => load_dm_lookup _ _ _ _ _ k Hd1) as H1.
  pose proof (fun k => load_dm_lookup _ _ _ _ _ k Hd2) as H2.
  assert (Hd2k : forall k, k <> "scf" -> k <> "scf_spin" -> d2 !! k = None).
  { intros k Hk1 Hk2. rewrite H2, H1.
    destruct (fchk !! "Spin SCF Density"), (fchk !! "Total SCF Density");
      repeat (destruct (decide _) as [?|?]; try congruence); apply lookup_empty. }
  rewrite (Hd2k "post_scf") in Htot by discriminate.
  rewrite (Hd2k "post_scf_spin") in Hspin by discriminate.
  split; [|split; [|split]].
  - intros k Hk. simpl.
    destruct (decide (k = "scf")) as [->|Hk1]; [auto|].
    destruct (decide (k = "scf_spin")) as [->|Hk2]; [auto|].
    destruct (decide (k = "post_scf")) as [->|Hk3]; [auto|].
    destruct (decide (k = "post_scf_spin")) as [->|Hk4]; [auto|].
    rewrite Hother, (Hd2k k) in Hk by assumption. destruct Hk. discriminate.
  - assert (Hscf2 : d2 !! "scf" = d1 !! "scf").
    { rewrite H2. destruct (fchk !! "Spin SCF Density"); [|reflexivity].
      destruct (decide ("scf" = "scf_spin")); [discriminate | reflexivity]. }
    rewrite Hother, Hscf2, H1 by discriminate.
    destruct (fchk !! "Total SCF Density") as [vt|] eqn:Ht.
    + destruct (decide ("scf" = "scf")); [|congruence].
      destruct (load_dm_dense _ _ _ _ _ vt Hd1 Ht) as [m ->]. split; eauto.
    + rewrite lookup_empty. split; intros [? ?]; discriminate.
  - intros prefix key before lot after v Hin Hsplit Hv Hafter.
    assert (Hlot : In lot ["MP2"; "MP3"; "CC"; "CI"])
      by (rewrite Hsplit; apply in_or_app; right; left; reflexivity).
    destruct Hin as [E|[E|[]]]; injection E as <- <-.
    + destruct (Hdense lot v Hlot (or_introl Hv)) as [m Hm].
      exists m. split; [exact Hm|].
      rewrite Htot, Hsplit, (last_level_found _ _ _ _ _ v _ Hv Hafter), Hm. reflexivity.
    + destruct (Hdense lot v Hlot (or_intror Hv)) as [m Hm].
      exists m. split; [exact Hm|].
      rewrite Hspin, Hsplit, (last_level_found _ _ _ _ _ v _ Hv Hafter), Hm. reflexivity.
  - intros prefix key Hin Hnone.
    destruct Hin as [E|[E|[]]]; injection E as <- <-.
    + rewrite Htot. apply last_level_none. exact Hnone.
    + rewrite Hspin. apply last_level_none. exact Hnone.
Qed.

Lemma post_scf_density_level_witness :
  exists m,
    triangle_of_value (VArr (RealArr [2]%float)) = Ok m /\
    ok_or ∅ (load_rdms two_level_fields) !! "post_scf" = Some m.
Proof.
  apply (proj1 (proj2 (proj2 (post_scf_density_level two_level_fields
                                (ok_or ∅ (load_rdms two_level_fields))
                                ltac:(vm_refl))))
           "Total " "post_scf" ["MP2"; "MP3"] "CC" ["CI"] (VArr (RealArr [2]%float))).
  - left. reflexivity.
  - reflexivity.
  - vm_refl.
  - constructor; [vm_refl | constructor].
Defined.

(** ** The trajectory extractor: the data of the frames *)

Section FrameFacts.

Lemma reshape_steps_lookup (v : value) (natom : nat) (blocks : list array2)
    (i : nat) (g : array2) :
  reshape_steps v natom = Ok blocks ->
  blocks !! i = Some g ->
  exists a, v = VArr a /\
    length blocks = (arr_size a / (natom * 3))%nat /\
    g = Array2 natom 3 (arr_block a (natom * 3) i).
Proof.
  unfold reshape_steps. destruct v as [| |a]; try discriminate.
  destruct (natom * 3 =? 0)%nat; [discriminate|].
  destruct (arr_size a mod (natom * 3) =? 0)%nat; [|discriminate].
  intros H Hi. injection H as <-. exists a. split; [reflexivity|].
  destruct a as [l|l]; simpl in *; rewrite length_map, length_map, chunks_length;
    (split; [reflexivity|]);
    rewrite !list_lookup_fmap in Hi;
    (destruct (decide (i < length l / (natom * 3))%nat) as [Hlt|Hge];
     [rewrite chunks_lookup in Hi by exact Hlt; simpl in Hi; congruence
     |rewrite (proj2 (lookup_ge_None _ _)) in Hi
        by (rewrite chunks_length; lia); discriminate]).
Qed.

Variable fchk : gmap string value.

Variable prefix : string.

(** X15: the steps of one point.  The trajectory of point [ip] pairs, for
    each step [k], the elements [2k] and [2k + 1] of the field 'Results
    for each geome' (energy and reaction coordinate) with the [k]-th
    blocks of [3 natom] elements of the fields 'Geometries' and 'Gradient
    at each geome'; it has as many steps as the shortest of the three
    fields provides, a trailing unpaired result being dropped. *)
Theorem point_trajectory_steps (natom ip : nat) (results geometries gradients : ndarray)
    (trajectory : list (num * num * array2 * array2)) :
  fchk !! point_label prefix ip "Results for each geome" = Some (VArr results) ->
  fchk !! point_label prefix ip "Geometries" = Some (VArr geometries) ->
  fchk !! point_label prefix ip "Gradient at each geome" = Some (VArr gradients) ->
  point_trajectory prefix fchk natom ip = Ok trajectory ->
  length trajectory
    = Nat.min (arr_size results / 2)
        (Nat.min (arr_size geometries / (natom * 3))
                 (arr_size gradients / (natom * 3))) /\
  forall k, (k < length trajectory)%nat ->
    exists energy recor,
      arr_nums results !! (2 * k)%nat = Some energy /\
      arr_nums results !! (2 * k + 1)%nat = Some recor /\
      trajectory !! k
        = Some (energy, recor,
                Array2 natom 3 (arr_block geometries (natom * 3) k),
                Array2 natom 3 (arr_block gradients (natom * 3) k)).
Proof.
  intros Hres Hgeo Hgra. unfold point_trajectory, getkey.
  rewrite Hres, Hgeo, Hgra. simpl. intros H.
  bind_ok H as geoms Hgeoms. bind_ok H as grads Hgrads. injection H as <-.
  assert (Hsize : arr_size results = length (arr_nums results)).
  { destruct results; simpl; rewrite length_map; reflexivity. }
  assert (Hlg : length geoms = (arr_size geometries / (natom * 3))%nat).
  { unfold reshape_steps in Hgeoms.
    destruct (natom * 3 =? 0)%nat; [discriminate|].
    destruct (arr_size geometries mod (natom * 3) =? 0)%nat; [|discriminate].
    injection Hgeoms as <-.
    destruct geometries; simpl; rewrite !length_map, chunks_length; reflexivity. }
  assert (Hld : length grads = (arr_size gradients / (natom * 3))%nat).
  { unfold reshape_steps in Hgrads.
    destruct (natom * 3 =? 0)%nat; [discriminate|].
    destruct (arr_size gradients mod (natom * 3) =? 0)%nat; [|discriminate].
    injection Hgrads as <-.
    destruct gradients; simpl; rewrite !length_map, chunks_length; reflexivity. }
  assert (Hlen : length (zip4 (Py.every_second (arr_nums results))
                              (Py.every_second (drop 1 (arr_nums results))) geoms grads)
                 = Nat.min (arr_size results / 2)
                     (Nat.min (arr_size geometries / (natom * 3))
                              (arr_size gradients / (natom * 3)))).
  { rewrite zip4_length, !every_second_length, length_drop, <- Hsize, Hlg, Hld.
    set (n := arr_size results).
    assert (Hodd : ((n - 1 + 1) / 2 <= n / 2)%nat).
    { destruct n as [|n']; [simpl; lia|].
      replace (S n' - 1 + 1)%nat with (S n') by lia. lia. }
    assert (Hle : (n / 2 <= (n + 1) / 2)%nat)
      by (apply Nat.Div0.div_le_mono; lia).
    assert (Heq : ((n - 1 + 1) / 2 = n / 2 \/ n = 0)%nat).
    { destruct n as [|n']; [right; reflexivity|left].
      replace (S n' - 1 + 1)%nat with (S n') by lia. reflexivity. }
    destruct Heq as [Heq| ->]; [rewrite Heq; lia | simpl; lia]. }
  split; [exact Hlen|].
  intros k Hk.
  destruct (lookup_lt_is_Some_2 _ k Hk) as [[[[e rc] g] d] Hstep].
  pose proof Hstep as Hstep'.
  apply zip4_lookup in Hstep'. destruct Hstep' as (He & Hrc & Hg & Hd).
  rewrite every_second_lookup in He, Hrc. rewrite lookup_drop in Hrc.
  destruct (reshape_steps_lookup (VArr geometries) natom geoms k g Hgeoms Hg)
    as (a1 & E1 & _ & ->).
  destruct (reshape_steps_lookup (VArr gradients) natom grads k d Hgrads Hd)
    as (a2 & E2 & _ & ->).
  injection E1 as <-. injection E2 as <-.
  exists e, rc. split; [exact He|]. split; [|exact Hstep].
  rewrite <- Hrc. f_equal. lia.
Qed.

(** X17: the frames of one point.  Whether the loop over the steps of a
    point ends normally or not, its [k]-th frame holds the energy, the
    coordinates and the gradient of the [k]-th step, the title, the
    atomic numbers and the nuclear charges of the store, and the reaction
    coordinate of the step when the labels are those of an IRC, none
    otherwise. *)
Theorem frames_of_steps (ip np : nat) (nstep : Z)
    (trajectory : list (num * num * array2 * array2)) :
  forall istep frames r,
  yield_steps prefix fchk ip np nstep istep trajectory = (frames, r) ->
  forall k fr, frames !! k = Some fr ->
  exists energy recor,
    trajectory !! k = Some (energy, recor, f_atcoords fr, f_atgradient fr) /\
    f_energy fr = energy /\
    reaction_coordinate (f_extra fr)
      = (if String.eqb prefix "IRC point" then Some recor else None) /\
    fchk !! "title" = Some (f_title fr) /\
    fchk !! "Atomic numbers" = Some (f_atnums fr) /\
    fchk !! "Nuclear charges" = Some (f_atcorenums fr).
Proof.
  induction trajectory as [|step trajectory IH]; intros istep frames r H k fr Hk;
    simpl in H.
  - injection H as <- _. discriminate.
  - destruct (make_frame prefix fchk ip np istep nstep step) as [data|e] eqn:Hdata;
      [|injection H as <- _; discriminate].
    destruct (yield_steps prefix fchk ip np nstep (S istep) trajectory)
      as [frames' r'] eqn:Hrest.
    injection H as <- _.
    destruct k as [|k].
    + injection Hk as <-.
      destruct step as [[[energy recor] atcoords] gradients].
      unfold make_frame in Hdata.
      bind_ok Hdata as title Htitle. bind_ok Hdata as atnums Hatnums.
      bind_ok Hdata as atcorenums Hcore. injection Hdata as <-. simpl.
      apply getkey_ok in Htitle, Hatnums, Hcore.
      exists energy, recor. repeat split; assumption.
    + simpl in Hk. exact (IH _ _ _ Hrest k fr Hk).
Qed.

Lemma yield_points_frames (natom npoint : nat) (nsteps : list Z) (P : Frame -> Prop) :
  (forall ip np nstep istep step data,
     make_frame prefix fchk ip np istep nstep step = Ok data -> P data) ->
  forall ipoint frames r,
  yield_points prefix fchk natom npoint ipoint nsteps = (frames, r) ->
  Forall P frames.
Proof.
  intros HP.
  assert (Hsteps : forall ip np nstep trajectory istep frames r,
            yield_steps prefix fchk ip np nstep istep trajectory = (frames, r) ->
            Forall P frames).
  { intros ip np nstep. induction trajectory as [|step trajectory IH];
      intros istep frames r H; simpl in H.
    - injection H as <- _. constructor.
    - destruct (make_frame prefix fchk ip np istep nstep step) as [data|e] eqn:Hdata;
        [|injection H as <- _; constructor].
      destruct (yield_steps prefix fchk ip np nstep (S istep) trajectory)
        as [frames' r'] eqn:Hrest.
      injection H as <- _. constructor; [eapply HP; exact Hdata | eapply IH; exact Hrest]. }
  induction nsteps as [|nstep nsteps IH]; intros ipoint frames r H; simpl in H.
  - injection H as <- _. constructor.
  - destruct (point_trajectory prefix fchk natom ipoint) as [trajectory|e];
      [|injection H as <- _; constructor].
    destruct (negb (Z.of_nat (length trajectory) =? nstep));
      [injection H as <- _; constructor|].
    destruct (yield_steps prefix fchk ipoint npoint nstep 0 trajectory)
      as [frames1 [[]|e]] eqn:Hs.
    + destruct (yield_points prefix fchk natom npoint (S ipoint) nsteps)
        as [frames2 r2] eqn:Hp.
      injection H as <- _. apply Forall_app. split; [eapply Hsteps; exact Hs|].
      eapply IH. exact Hp.
    + injection H as <- _. eapply Hsteps; exact Hs.
Qed.

End FrameFacts.

(** X16: the kind of trajectory.  When the store holds neither
    'IRC Number of geometries' nor 'Optimization Number of geometries',
    [load_many] yields no frame and fails through [lit.error].  When it
    holds the first one the calculation is read as an IRC, also if the
    second is present, and every frame has a reaction coordinate;
    otherwise no frame has one. *)
Theorem trajectory_kind_of_frames (fnmatch : string -> string -> bool)
    (float_of_string : string -> option float) (lit lit' : list string)
    (fchk : gmap string value) :
  _load_fchk_low fnmatch float_of_string (Some LOAD_MANY_LABELS) lit = (Ok fchk, lit') ->
  (fchk !! "IRC Number of geometries" = None ->
   fchk !! "Optimization Number of geometries" = None ->
   load_many fnmatch float_of_string lit
     = (([], Raise (LitError trajectory_error)), lit')) /\
  (forall frames r,
     load_many fnmatch float_of_string lit = ((frames, r), lit') ->
     Forall (fun fr => is_Some (reaction_coordinate (f_extra fr))
                       <-> is_Some (fchk !! "IRC Number of geometries")) frames).
Proof.
  intros Hstore. unfold load_many. rewrite Hstore. split.
  - intros Hirc Hopt. unfold extract, trajectory_kind. rewrite Hirc, Hopt. reflexivity.
  - intros frames r H. injection H as H.
    unfold extract, trajectory_kind in H.
    destruct (fchk !! "IRC Number of geometries") as [nsteps|] eqn:Hirc.
    + simpl in H.
      destruct (getkey fchk "Atomic numbers" ≫= size_of) as [natom|e];
        [|injection H as <- _; constructor]. simpl in H.
      destruct (iterate_nsteps nsteps) as [l|e]; [|injection H as <- _; constructor].
      simpl in H. eapply yield_points_frames; [|exact H].
      intros ip np nstep istep [[[energy recor] atcoords] gradients] data Hdata.
      unfold make_frame in Hdata.
      bind_ok Hdata as title Htitle. bind_ok Hdata as atnums Hatnums.
      bind_ok Hdata as atcorenums Hcore. injection Hdata as <-. simpl.
      split; eauto.
    + destruct (fchk !! "Optimization Number of geometries") as [nsteps|] eqn:Hopt;
        [|injection H as <- _; constructor].
      simpl in H.
      destruct (getkey fchk "Atomic numbers" ≫= size_of) as [natom|e];
        [|injection H as <- _; constructor]. simpl in H.
      destruct (iterate_nsteps nsteps) as [l|e]; [|injection H as <- _; constructor].
      simpl in H. eapply yield_points_frames; [|exact H].
      intros ip np nstep istep [[[energy recor] atcoords] gradients] data Hdata.
      unfold make_frame in Hdata.
      bind_ok Hdata as title Htitle. bind_ok Hdata as atnums Hatnums.
      bind_ok Hdata as atcorenums Hcore. injection Hdata as <-. simpl.
      split; intros [? ?]; discriminate.
Qed.

Lemma point_trajectory_steps_witness :
  length sample_point = 3%nat /\
  forall k, (k < length sample_point)%nat ->
    exists energy recor,
      map NReal [-3; 0; -4; 0; -5; 0]%float !! (2 * k)%nat = Some energy /\
      map NReal [-3; 0; -4; 0; -5; 0]%float !! (2 * k + 1)%nat = Some recor /\
      sample_point !! k
        = Some (energy, recor,
                Array2 1 3 (arr_block (RealArr [0; 0; 0; 0; 0; 1; 0; 0; 2]%float) 3 k),
                Array2 1 3 (arr_block (RealArr [0; 0; 3; 0; 0; 2; 0; 0; 1]%float) 3 k)).
Proof.
  apply (point_trajectory_steps
           (store_of LOAD_MANY_LABELS (sample_trajectory "3" "2")) "Opt point" 1 0
           (RealArr [-3; 0; -4; 0; -5; 0]%float)
           (RealArr [0; 0; 0; 0; 0; 1; 0; 0; 2]%float)
           (RealArr [0; 0; 3; 0; 0; 2; 0; 0; 1]%float) sample_point);
    vm_refl.
Defined.

Lemma trajectory_kind_of_frames_witness :
  load_many glob float_of_small_int no_trajectory_file
    = (([], Raise (LitError trajectory_error)), []).
Proof.
  apply (proj1 (trajectory_kind_of_frames glob float_of_small_int no_trajectory_file []
                  (store_of LOAD_MANY_LABELS no_trajectory_file) ltac:(vm_refl)));
    vm_refl.
Defined.

Lemma frames_of_steps_witness :
  match fst (yield_steps "Opt point" (store_of LOAD_MANY_LABELS (sample_trajectory "3" "2"))
               0 2 3 0 sample_point) !! 1%nat with
  | Some fr =>
      exists energy recor,
        sample_point !! 1%nat = Some (energy, recor, f_atcoords fr, f_atgradient fr) /\
        f_energy fr = energy /\
        reaction_coordinate (f_extra fr) = None
  | None => False
  end.
Proof.
  destruct (fst (yield_steps "Opt point"
                   (store_of LOAD_MANY_LABELS (sample_trajectory "3" "2"))
                   0 2 3 0 sample_point) !! 1%nat) as [fr|] eqn:Hfr.
  - destruct (frames_of_steps
                (store_of LOAD_MANY_LABELS (sample_trajectory "3" "2")) "Opt point"
                0 2 3 sample_point 0 _ _ (surjective_pairing _) 1%nat fr Hfr)
      as (energy & recor & Hstep & He & Hrc & _).
    exists energy, recor. split; [exact Hstep|]. split; [exact He | exact Hrc].
  - apply (f_equal (fun o => match o with Some _ => true | None => false end)) in Hfr.
    vm_compute in Hfr. discriminate.
Defined.

(** ** The basis: type codes and round trip *)

Lemma slice_length {A} (l : list A) (a b : Z) :
  length (Py.slice l a b)
    = Nat.min (Z.to_nat (Py.clamp (Z.of_nat (length l)) b
                         - Py.clamp (Z.of_nat (length l)) a))
              (length l - Z.to_nat (Py.clamp (Z.of_nat (length l)) a)).
Proof. unfold Py.slice. rewrite length_take, length_drop. reflexivity. Qed.

Lemma slice_length_eq {A B} (l1 : list A) (l2 : list B) (a b : Z) :
  length l1 = length l2 -> length (Py.slice l1 a b) = length (Py.slice l2 a b).
Proof. intros H. rewrite !slice_length, H. reflexivity. Qed.

Lemma getitem_ok {A} (l : list A) (i : nat) (x : A) :
  getitem l i = Ok x <-> l !! i = Some x.
Proof. unfold getitem. destruct (l !! i); split; congruence. Qed.

(** The type code of a shell built by the loader from the code [st]. *)
Lemma loaded_shell_type (st center : Z) (e c1 : list float) (c2 : option (list float))
    (shell : Shell) :
  (if st =? -1
   then match c2 with
        | None => Raise TypeError
        | Some c2 =>
            if (length c1 =? length c2)%nat
            then Ok (MkShell center [0; 1] ["c"; "c"] e (zip_with (fun a b => [a; b]) c1 c2))
            else Raise ValueError
        end
   else Ok (MkShell center [abs64 st] [if st <? 0 then "p" else "c"] e
              (map (fun a => [a]) c1))) = Ok shell ->
  length e = length c1 ->
  _get_TypeShell shell = Ok st /\
  icenter shell = center /\ exponents shell = e /\
  length (coeffs shell) = length c1.
Proof.
  intros H Hlen.
  destruct (Z.eqb_spec st (-1)) as [->|Hst].
  - destruct c2 as [c2|]; [|discriminate].
    destruct (Nat.eqb_spec (length c1) (length c2)) as [Hc|]; [|discriminate].
    injection H as <-. simpl. rewrite length_zip_with.
    split; [|repeat split; lia].
    unfold _get_TypeShell, coeffs_size. simpl.
    rewrite (coeffs_size_rows _ 2).
    + rewrite length_zip_with.
      replace (length e + (length e + 0) =? length c1 `min` length c2 * 2)%nat with true;
        [reflexivity|]. symmetry. apply Nat.eqb_eq. lia.
    + clear. revert c2. induction c1 as [|a c1 IH]; intros [|b c2]; simpl; constructor;
        [reflexivity | apply IH].
  - injection H as <-. simpl. rewrite length_map.
    split; [|repeat split].
    unfold _get_TypeShell. simpl. unfold abs64.
    destruct (Z.eqb_spec st (- 2 ^ 63)) as [->|Hmin]; [reflexivity|].
    destruct (Z.ltb_spec st 0) as [Hneg|Hpos]; simpl.
    + destruct (Z.ltb_spec 1 (Z.abs st)) as [_|Habs]; [f_equal; lia | lia].
    + f_equal. lia.
Qed.

Lemma load_shells_types (shell_types shell_map : list Z) (exps cc1 : list float)
    (cc2 : option (list float)) (nprims : list Z) :
  length exps = length cc1 ->
  forall i counter shells,
  load_shells shell_types shell_map exps cc1 cc2 i nprims counter = Ok shells ->
  Forall2 (fun shell st => _get_TypeShell shell = Ok st) shells
          (take (length nprims) (drop i shell_types)) /\
  map icenter shells = take (length nprims) (drop i shell_map) /\
  Forall (fun shell => length (coeffs shell) = length (exponents shell)) shells.
Proof.
  intros Hlen. induction nprims as [|n nprims IH]; intros i counter shells H.
  - injection H as <-. simpl. repeat split; constructor.
  - cbn [load_shells] in H.
    bind_step H as st Hst. bind_step H as center Hcenter.
    bind_step H as shell Hshell. bind_step H as rest Hrest.
    injection H as <-.
    apply getitem_ok in Hst, Hcenter.
    destruct (IH _ _ _ Hrest) as (Htypes & Hcenters & Hrows).
    assert (Hshell' : _get_TypeShell shell = Ok st /\ icenter shell = center /\
                      exponents shell = Py.slice exps counter (wrap64 (counter + n)) /\
                      length (coeffs shell)
                        = length (Py.slice cc1 counter (wrap64 (counter + n)))).
    { destruct cc2 as [l2|].
      - apply (loaded_shell_type st center _ _
                 (Some (Py.slice l2 counter (wrap64 (counter + n)))));
          [exact Hshell | apply slice_length_eq; exact Hlen].
      - apply (loaded_shell_type st center _ _ None);
          [exact Hshell | apply slice_length_eq; exact Hlen]. }
    clear Hshell. rename Hshell' into Hshell.
    destruct Hshell as (Htype & Hc & He & Hcoeffs).
    simpl length.
    rewrite (drop_S _ _ _ Hst), (drop_S _ _ _ Hcenter). simpl.
    split; [constructor; assumption|]. split; [congruence|].
    constructor; [|exact Hrows].
    rewrite Hcoeffs, He. symmetry. apply slice_length_eq. exact Hlen.
Qed.

(** X18: the type codes of the shells that [load_one] builds.  When the
    arrays of exponents and of contraction coefficients have the same
    length, [_get_TypeShell] gives back, for every shell, the code of
    the field 'Shell types' from which the shell was built; there is one
    shell per entry of 'Number of primitives per shell', centred on the
    atom of 'Shell to atom map' counted from zero, with one row of
    coefficients per exponent. *)
Theorem loaded_shell_types (fchk : gmap string value) (shells : list Shell)
    (types centers nprims : list Z) (exps ccoeffs : list float) :
  load_obasis fchk = Ok shells ->
  fchk !! "Shell types" = Some (VArr (IntArr types)) ->
  fchk !! "Shell to atom map" = Some (VArr (IntArr centers)) ->
  fchk !! "Number of primitives per shell" = Some (VArr (IntArr nprims)) ->
  fchk !! "Primitive exponents" = Some (VArr (RealArr exps)) ->
  fchk !! "Contraction coefficients" = Some (VArr (RealArr ccoeffs)) ->
  length exps = length ccoeffs ->
  length shells = length nprims /\
  Forall2 (fun shell st => _get_TypeShell shell = Ok st) shells
          (take (length nprims) types) /\
  map icenter shells = take (length nprims) (map (fun z => wrap64 (z - 1)) centers) /\
  Forall (fun shell => length (coeffs shell) = length (exponents shell)) shells.
Proof.
  intros H Htypes Hcenters Hnprims Hexps Hcc Hlen.
  unfold load_obasis, getkey in H.
  rewrite Htypes, Hcenters, Hnprims, Hexps, Hcc in H. simpl in H.
  destruct (optional fchk "P(S=P) Contraction coefficients"
              (as_real_array "P(S=P) Contraction coefficients")) as [level2|];
    [|discriminate]. simpl in H.
  destruct (load_shells_types _ _ _ _ _ _ Hlen _ _ _ H) as (Ht & Hc & Hrows).
  rewrite drop_0 in Ht, Hc.
  split; [|auto].
  apply (f_equal length) in Hc. rewrite length_map, length_take, length_map in Hc.
  pose proof (Forall2_length _ _ _ Ht) as Hl. rewrite length_take in Hl.
  assert (Hn : forall i counter shells,
            load_shells types (map (fun z => wrap64 (z - 1)) centers) exps ccoeffs level2
              i nprims counter = Ok shells -> length shells = length nprims).
  { clear. induction nprims as [|n nprims IH]; intros i counter shells H.
    - injection H as <-. reflexivity.
    - cbn [load_shells] in H.
      bind_step H as st Hst. bind_step H as center Hcenter.
      bind_step H as shell Hshell. bind_step H as rest Hrest.
      injection H as <-. simpl. f_equal. eapply IH. exact Hrest. }
  eapply Hn. exact H.
Qed.

(** The shells of the sample file. *)
Lemma loaded_shell_types_witness :
  length (ok_or [] (load_obasis
                      (store_of LOAD_ONE_LABELS (sample_file "3" "2" scf_density_lines))))
    = 3%nat /\
  Forall2 (fun shell st => _get_TypeShell shell = Ok st)
          (ok_or [] (load_obasis
                       (store_of LOAD_ONE_LABELS (sample_file "3" "2" scf_density_lines))))
          [0; 0; 0].
Proof.
  destruct (loaded_shell_types
              (store_of LOAD_ONE_LABELS (sample_file "3" "2" scf_density_lines))
              (ok_or [] (load_obasis
                           (store_of LOAD_ONE_LABELS
                              (sample_file "3" "2" scf_density_lines))))
              [0; 0; 0] [1; 1; 1] [1; 1; 1] [3; 2; 1]%float [1; 1; 1]%float
              ltac:(vm_refl) ltac:(vm_refl) ltac:(vm_refl) ltac:(vm_refl)
              ltac:(vm_refl) ltac:(vm_refl) eq_refl)
    as (Hlen & Htypes & _).
  split; [exact Hlen | exact Htypes].
Defined.

Section BasisFacts.

Lemma slice_middle {A} (a x r : list A) :
  Py.slice (a ++ x ++ r) (Z.of_nat (length a)) (Z.of_nat (length a) + Z.of_nat (length x)) = x.
Proof.
  unfold Py.slice, Py.clamp. rewrite !length_app.
  destruct (Z.ltb_spec (Z.of_nat (length a)) 0); [lia|].
  destruct (Z.ltb_spec (Z.of_nat (length a) + Z.of_nat (length x)) 0); [lia|].
  rewrite !Z.min_l by lia.
  rewrite Nat2Z.id. replace (Z.to_nat (_ + _ - _)) with (length x) by lia.
  rewrite drop_app_length. apply take_app_length.
Qed.

Lemma loadable_code (ncenter : nat) (shell : Shell) :
  loadable_shell ncenter shell ->
  _get_TypeShell shell = Ok (shell_code shell) /\
  - 2 ^ 63 < shell_code shell < 2 ^ 63 /\
  (shell_code shell = -1 <-> angmoms shell = [0; 1]).
Proof.
  intros (_ & Hrows & [(l & Hl & Hfit & Hk & Hcols)|(Hl & Hk & Hcols)]).
  - unfold _get_TypeShell, shell_code. rewrite Hl.
    destruct Hk as [[-> H0]|[-> H2]]; simpl.
    + repeat split; try lia; try discriminate.
    + destruct (Z.ltb_spec 1 l); [|lia].
      repeat split; try lia; try discriminate. f_equal; lia.
  - unfold _get_TypeShell, shell_code, coeffs_size. rewrite Hl, Hk. simpl.
    rewrite (coeffs_size_rows _ 2 Hcols), Hrows.
    replace (length (exponents shell) + (length (exponents shell) + 0)
             =? length (exponents shell) * 2)%nat with true
      by (symmetry; apply Nat.eqb_eq; lia).
    repeat split; lia.
Qed.

Lemma dump_primitives_ok (shell : Shell) (ty : Z) :
  length (coeffs shell) = length (exponents shell) ->
  Forall (fun row => (1 <= length row)%nat /\ (ty = -1 -> (2 <= length row)%nat))
         (coeffs shell) ->
  forall m j0 st,
  (j0 + m = length (exponents shell))%nat ->
  dump_primitives shell ty (seq j0 m) st
    = Ok (MkLists (largestDegreeContraction st) (shellTypes st)
            (numberPrimitivesPerShell st) (shellAtomMap st)
            (primitiveExp st ++ drop j0 (exponents shell))
            (contractionCoeff st ++ drop j0 (coeff_column 0 shell))
            (spcontractionCoeff st
               ++ drop j0 (if ty =? -1 then coeff_column 1 shell
                           else replicate (length (coeffs shell)) 0%float))
            (coordinatesShell st) (totalprim st + Z.of_nat m)).
Proof.
  intros Hrows Hcols. induction m as [|m IH]; intros j0 st Hj.
  - simpl. rewrite !drop_ge, !app_nil_r, Z.add_0_r; try (destruct st; reflexivity).
    + destruct (ty =? -1); [unfold coeff_column; rewrite length_map|rewrite length_replicate]; lia.
    + unfold coeff_column. rewrite length_map. lia.
    + lia.
  - cbn [seq dump_primitives].
    destruct (lookup_lt_is_Some_2 (exponents shell) j0 ltac:(lia)) as [e He].
    destruct (lookup_lt_is_Some_2 (coeffs shell) j0 ltac:(lia)) as [row Hrow].
    assert (Hrowlen : (1 <= length row)%nat /\ (ty = -1 -> (2 <= length row)%nat)).
    { rewrite Forall_forall in Hcols. apply Hcols.
      eapply list_elem_of_lookup_2. exact Hrow. }
    destruct Hrowlen as [Hr1 Hr2].
    destruct (lookup_lt_is_Some_2 row 0 ltac:(lia)) as [c0 Hc0].
    unfold getitem at 1. rewrite He. cbn [mbind result_bind].
    assert (Hg0 : get2 (coeffs shell) j0 0 = Ok c0)
      by (unfold get2; rewrite Hrow; cbv beta iota; rewrite Hc0; reflexivity).
    rewrite Hg0. cbn [mbind result_bind].
    assert (Hsp : (if ty =? -1 then get2 (coeffs shell) j0 1 else Ok 0%float)
                  = Ok (if ty =? -1 then default 0%float (row !! 1%nat) else 0%float)).
    { destruct (Z.eqb_spec ty (-1)) as [Hty|_]; [|reflexivity].
      destruct (lookup_lt_is_Some_2 row 1 ltac:(specialize (Hr2 Hty); lia)) as [c1 Hc1].
      unfold get2. rewrite Hrow. cbv beta iota. rewrite Hc1. reflexivity. }
    rewrite Hsp. cbn [mbind result_bind].
    rewrite IH by lia. cbn [largestDegreeContraction shellTypes numberPrimitivesPerShell
      shellAtomMap primitiveExp contractionCoeff spcontractionCoeff coordinatesShell
      totalprim].
    f_equal. f_equal.
    + rewrite <- app_assoc. f_equal. symmetry. apply drop_S. exact He.
    + rewrite <- app_assoc. f_equal. symmetry. apply drop_S.
      unfold coeff_column. rewrite list_lookup_fmap, Hrow. simpl. rewrite Hc0. reflexivity.
    + rewrite <- app_assoc. f_equal. symmetry. apply drop_S.
      destruct (ty =? -1).
      * unfold coeff_column. rewrite list_lookup_fmap, Hrow. reflexivity.
      * apply lookup_replicate_2. lia.
    + lia.
Qed.

Lemma wrap64_id (z : Z) : - 2 ^ 63 <= z < 2 ^ 63 -> wrap64 z = z.
Proof. intros H. unfold wrap64. rewrite Z.mod_small; lia. Qed.

Lemma index_ok {A} (l : list A) (i : Z) :
  0 <= i < Z.of_nat (length l) -> exists x, Py.index l i = Ok x.
Proof.
  intros Hi. unfold Py.index.
  destruct (Z.ltb_spec i 0); [lia|].
  destruct (Z.leb_spec 0 i); [|lia].
  destruct (Z.ltb_spec i (Z.of_nat (length l))); [|lia]. simpl.
  destruct (lookup_lt_is_Some_2 l (Z.to_nat i) ltac:(lia)) as [x ->]. eauto.
Qed.

Lemma dump_shells_ok (coords : list (list float)) (todo : list Shell) :
  Forall (loadable_shell (length coords)) todo ->
  forall st, exists largest cs,
    dump_shells coords todo st
      = Ok (MkLists largest
              (shellTypes st ++ map shell_code todo)
              (numberPrimitivesPerShell st
                 ++ map (fun sh => Z.of_nat (length (exponents sh))) todo)
              (shellAtomMap st ++ map (fun sh => icenter sh + 1) todo)
              (primitiveExp st ++ concat (map exponents todo))
              (contractionCoeff st ++ concat (map (coeff_column 0) todo))
              (spcontractionCoeff st ++ concat (map sp_column todo))
              cs
              (totalprim st + Z.of_nat (length (concat (map exponents todo))))).
Proof.
  induction 1 as [|shell todo Hshell _ IH]; intros st.
  - exists (largestDegreeContraction st), (coordinatesShell st).
    simpl. rewrite !app_nil_r, Z.add_0_r. destruct st; reflexivity.
  - cbn [dump_shells].
    destruct (loadable_code _ _ Hshell) as (Hcode & _ & Hsp).
    destruct Hshell as (Hcenter & Hrows & Hkind).
    destruct (index_ok coords (icenter shell) Hcenter) as [xyz ->].
    cbn [mbind result_bind]. rewrite Hcode. cbn [mbind result_bind].
    rewrite (dump_primitives_ok shell (shell_code shell) Hrows) with (j0 := 0%nat);
      [|
      |reflexivity].
    + cbn [mbind result_bind].
      match goal with
      | |- context [dump_shells coords todo ?st'] =>
          destruct (IH st') as (largest & cs & ->)
      end.
      exists largest, cs.
      cbn [largestDegreeContraction shellTypes numberPrimitivesPerShell
        shellAtomMap primitiveExp contractionCoeff spcontractionCoeff coordinatesShell
        totalprim].
      rewrite !drop_0. cbn [map concat]. rewrite length_app.
      rewrite <- !app_assoc. cbn [app]. unfold sp_column at 2.
      f_equal. f_equal. lia.
    + destruct Hkind as [(l & Hl & _ & _ & Hcols)|(_ & _ & Hcols)].
      * eapply Forall_impl; [exact Hcols|]. intros row Hrow. cbv beta in Hrow.
        split; [lia|]. intros Hty. apply Hsp in Hty. congruence.
      * eapply Forall_impl; [exact Hcols|]. intros row Hrow. cbv beta in Hrow.
        split; [lia|]. intros _. lia.
Qed.

Lemma zip_columns (rows : list (list float)) :
  Forall (fun row => length row = 2%nat) rows ->
  zip_with (fun a b => [a; b])
           (map (fun row => default 0%float (row !! 0%nat)) rows)
           (map (fun row => default 0%float (row !! 1%nat)) rows) = rows.
Proof.
  induction 1 as [|row rows Hrow _ IH]; [reflexivity|].
  destruct row as [|a [|b [|c row]]]; try discriminate.
  simpl. f_equal. exact IH.
Qed.

Lemma single_column (rows : list (list float)) :
  Forall (fun row => length row = 1%nat) rows ->
  map (fun a => [a]) (map (fun row => default 0%float (row !! 0%nat)) rows) = rows.
Proof.
  induction 1 as [|row rows Hrow _ IH]; [reflexivity|].
  destruct row as [|a [|b row]]; try discriminate.
  simpl. f_equal. exact IH.
Qed.

Lemma load_shells_ok (ncenter : nat) (level2 : option (list float)) (todo : list Shell) :
  Z.of_nat ncenter < 2 ^ 63 ->
  Forall (loadable_shell ncenter) todo ->
  forall T0 M0 (E0 C0 S0 : list float),
  length M0 = length T0 -> length C0 = length E0 -> length S0 = length E0 ->
  Z.of_nat (length E0 + length (concat (map exponents todo))) < 2 ^ 63 ->
  level2 = Some (S0 ++ concat (map sp_column todo)) \/
  (level2 = None /\ Forall (fun sh => shell_code sh <> -1) todo) ->
  load_shells (T0 ++ map shell_code todo)
      (map (fun z => wrap64 (z - 1)) (M0 ++ map (fun sh => icenter sh + 1) todo))
      (E0 ++ concat (map exponents todo))
      (C0 ++ concat (map (coeff_column 0) todo))
      level2 (length T0)
      (map (fun sh => Z.of_nat (length (exponents sh))) todo)
      (Z.of_nat (length E0))
    = Ok todo.
Proof.
  intros Hncenter. induction 1 as [|shell todo Hshell _ IH];
    intros T0 M0 E0 C0 S0 HM HC HS Htotal Hlevel2; [reflexivity|].
  cbn [map concat] in *. rewrite length_app in Htotal.
  destruct (loadable_code _ _ Hshell) as (_ & Hfit & Hsp).
  destruct Hshell as (Hcenter & Hrows & Hkind).
  cbn [load_shells].
  assert (Hst : getitem (T0 ++ shell_code shell :: map shell_code todo) (length T0)
                = Ok (shell_code shell)).
  { unfold getitem. rewrite lookup_app_r, Nat.sub_diag by lia. reflexivity. }
  rewrite Hst. cbn [mbind result_bind].
  assert (Hc : getitem (map (fun z => wrap64 (z - 1))
                          (M0 ++ (icenter shell + 1)
                              :: map (fun sh => icenter sh + 1) todo)) (length T0)
               = Ok (icenter shell)).
  { unfold getitem. rewrite list_lookup_fmap, <- HM, lookup_app_r, Nat.sub_diag by lia.
    simpl. f_equal. rewrite wrap64_id by lia. lia. }
  rewrite Hc. cbn [mbind result_bind].
  rewrite (wrap64_id (Z.of_nat (length E0) + Z.of_nat (length (exponents shell)))) by lia.
  rewrite slice_middle.
  assert (Hc0 : Py.slice (C0 ++ coeff_column 0 shell ++ concat (map (coeff_column 0) todo))
                  (Z.of_nat (length E0))
                  (Z.of_nat (length E0) + Z.of_nat (length (exponents shell)))
                = coeff_column 0 shell).
  { rewrite <- HC, <- Hrows.
    replace (length (coeffs shell)) with (length (coeff_column 0 shell))
      by (unfold coeff_column; apply length_map).
    apply slice_middle. }
  rewrite Hc0.
  assert (Hbuilt :
    (if shell_code shell =? -1
     then match level2 with
          | None => Raise TypeError
          | Some l2 =>
              if (length (coeff_column 0 shell)
                  =? length (Py.slice l2 (Z.of_nat (length E0))
                               (Z.of_nat (length E0)
                                + Z.of_nat (length (exponents shell)))))%nat
              then Ok (MkShell (icenter shell) [0; 1] ["c"; "c"] (exponents shell)
                         (zip_with (fun a b => [a; b]) (coeff_column 0 shell)
                            (Py.slice l2 (Z.of_nat (length E0))
                               (Z.of_nat (length E0)
                                + Z.of_nat (length (exponents shell))))))
              else Raise ValueError
          end
     else Ok (MkShell (icenter shell) [abs64 (shell_code shell)]
                [if shell_code shell <? 0 then "p" else "c"] (exponents shell)
                (map (fun a => [a]) (coeff_column 0 shell)))) = Ok shell).
  { destruct (Z.eqb_spec (shell_code shell) (-1)) as [Hcode|Hcode].
    - destruct Hlevel2 as [->|[_ Hno]];
        [|inversion Hno; subst; contradiction].
      assert (Hc1 : Py.slice (S0 ++ sp_column shell ++ concat (map sp_column todo))
                      (Z.of_nat (length E0))
                      (Z.of_nat (length E0) + Z.of_nat (length (exponents shell)))
                    = coeff_column 1 shell).
      { unfold sp_column at 1. rewrite Hcode. simpl Z.eqb. cbv iota.
        rewrite <- HS, <- Hrows.
        replace (length (coeffs shell)) with (length (coeff_column 1 shell))
          by (unfold coeff_column; apply length_map).
        apply slice_middle. }
      rewrite Hc1. unfold coeff_column at 1 2. rewrite !length_map, Nat.eqb_refl.
      apply Hsp in Hcode.
      destruct Hkind as [(l & Hl & _)|(Hl & Hk & Hcols)]; [congruence|].
      unfold coeff_column. rewrite (zip_columns _ Hcols).
      destruct shell; simpl in *; subst; reflexivity.
    - destruct Hkind as [(l & Hl & Hlfit & Hk & Hcols)|(Hl & _)];
        [|apply Hsp in Hl; contradiction].
      unfold coeff_column. rewrite (single_column _ Hcols).
      unfold shell_code in *. rewrite Hl in *.
      destruct Hk as [[Hk H0]|[Hk H2]]; rewrite Hk in *; simpl in *.
      + unfold abs64. destruct (Z.eqb_spec l (- 2 ^ 63)); [lia|].
        destruct (Z.ltb_spec l 0); [lia|]. rewrite Z.abs_eq by lia.
        destruct shell; simpl in *; subst; reflexivity.
      + destruct (Z.ltb_spec 1 l); [|lia].
        unfold abs64. destruct (Z.eqb_spec (- l) (- 2 ^ 63)); [lia|].
        destruct (Z.ltb_spec (- l) 0); [|lia].
        replace (Z.abs (- l)) with l by lia.
        destruct shell; simpl in *; subst; reflexivity. }
  rewrite Hbuilt. cbn [mbind result_bind].
  replace (S (length T0)) with (length (T0 ++ [shell_code shell]))
    by (rewrite length_app; simpl; lia).
  replace (Z.of_nat (length E0) + Z.of_nat (length (exponents shell)))
    with (Z.of_nat (length (E0 ++ exponents shell)))
    by (rewrite length_app; lia).
  rewrite (cons_middle (shell_code shell)), (cons_middle (icenter shell + 1)),
    !app_assoc.
  rewrite (IH (T0 ++ [shell_code shell]) (M0 ++ [icenter shell + 1])
              (E0 ++ exponents shell) (C0 ++ coeff_column 0 shell)
              (S0 ++ sp_column shell)); [reflexivity|..].
  - rewrite !length_app. simpl. lia.
  - rewrite !length_app. unfold coeff_column. rewrite length_map. lia.
  - rewrite !length_app. unfold sp_column, coeff_column.
    destruct (shell_code shell =? -1); rewrite ?length_map, ?length_replicate; lia.
  - rewrite length_app. lia.
  - destruct Hlevel2 as [->|[-> Hno]].
    + left. rewrite <- app_assoc. reflexivity.
    + right. split; [reflexivity|]. inversion Hno; assumption.
Qed.

End BasisFacts.

(** X19: the round trip of a basis.  For shells as the loader builds
    them, the first loop of [_dump_basisInfo] succeeds and fills the
    lists of type codes, primitive counts, atom indices from one,
    exponents and coefficients; the loop of [load_one] over these lists,
    with the P(S=P) coefficients present exactly when a code is -1,
    rebuilds the same shells. *)
Theorem basis_round_trip (coords : list (list float)) (shells : list Shell) :
  Z.of_nat (length coords) < 2 ^ 63 ->
  Z.of_nat (length (concat (map exponents shells))) < 2 ^ 63 ->
  Forall (loadable_shell (length coords)) shells ->
  exists st,
    dump_shells coords shells empty_lists = Ok st /\
    shellTypes st = map shell_code shells /\
    numberPrimitivesPerShell st = map (fun sh => Z.of_nat (length (exponents sh))) shells /\
    shellAtomMap st = map (fun sh => icenter sh + 1) shells /\
    primitiveExp st = concat (map exponents shells) /\
    totalprim st = Z.of_nat (length (primitiveExp st)) /\
    load_shells (shellTypes st) (map (fun z => wrap64 (z - 1)) (shellAtomMap st))
        (primitiveExp st) (contractionCoeff st)
        (if existsb (fun t => t =? -1) (shellTypes st)
         then Some (spcontractionCoeff st) else None)
        0 (numberPrimitivesPerShell st) 0
      = Ok shells.
Proof.
  intros Hcoords Htotal Hshells.
  destruct (dump_shells_ok coords shells Hshells empty_lists) as (largest & cs & Hdump).
  eexists. split; [exact Hdump|]. simpl.
  repeat (split; [reflexivity|]).
  apply (load_shells_ok (length coords) _ shells Hcoords Hshells [] [] [] [] []);
    try reflexivity; [simpl; lia|].
  destruct (existsb (fun t => t =? -1) (map shell_code shells)) eqn:E;
    [left; reflexivity|].
  right. split; [reflexivity|].
  apply Forall_forall. intros sh Hsh Hcode.
  assert (Hex : existsb (fun t => t =? -1) (map shell_code shells) = true).
  { apply existsb_exists. exists (shell_code sh). split; [|rewrite Hcode; reflexivity].
    apply in_map. apply list_elem_of_In. exact Hsh. }
  congruence.
Qed.

Lemma basis_round_trip_witness :
  exists st,
    dump_shells [[0; 0; 0]%float] sample_shells empty_lists = Ok st /\
    shellTypes st = [-1; -2] /\
    numberPrimitivesPerShell st = [2; 1] /\
    shellAtomMap st = [1; 1] /\
    primitiveExp st = [2; 1; 5]%float /\
    totalprim st = Z.of_nat (length (primitiveExp st)) /\
    load_shells (shellTypes st) (map (fun z => wrap64 (z - 1)) (shellAtomMap st))
        (primitiveExp st) (contractionCoeff st)
        (if existsb (fun t => t =? -1) (shellTypes st)
         then Some (spcontractionCoeff st) else None)
        0 (numberPrimitivesPerShell st) 0
      = Ok sample_shells.
Proof.
  apply (basis_round_trip [[0; 0; 0]%float] sample_shells); try reflexivity.
  constructor; [|constructor; [|constructor]].
  - split; [simpl; lia|]. split; [reflexivity|]. right.
    split; [reflexivity|]. split; [reflexivity|]. repeat constructor.
  - split; [simpl; lia|]. split; [reflexivity|]. left. exists 2.
    split; [reflexivity|]. split; [reflexivity|].
    split; [right; split; [reflexivity | lia] | repeat constructor].
Defined.

(** ** Orbital coefficients of the serializer *)

Section CoefficientFacts.

Local Open Scope nat_scope.

Context {A : Type} (d : A).

Lemma flat_map_blocks (f : nat -> list A) (r : nat) :
  forall c s,
  (forall j, j < c -> length (f (s + j)) = r) ->
  length (flat_map f (seq s c)) = c * r /\
  forall j i, j < c -> i < r -> flat_map f (seq s c) !! (j * r + i) = f (s + j) !! i.
Proof.
  induction c as [|c IH]; intros s Hf; [split; [reflexivity | intros; lia]|].
  cbn [seq flat_map].
  destruct (IH (S s)) as [Hlen Hlook].
  { intros j Hj. replace (S s + j) with (s + S j) by lia. apply Hf. lia. }
  pose proof (Hf 0 ltac:(lia)) as H0. rewrite Nat.add_0_r in H0.
  split; [rewrite length_app, Hlen, H0; simpl; lia|].
  intros [|j] i Hj Hi.
  - rewrite lookup_app_l by lia. rewrite Nat.add_0_r. reflexivity.
  - rewrite lookup_app_r by (rewrite H0; lia).
    replace (S j * r + i - length (f s)) with (j * r + i) by (rewrite H0; lia).
    rewrite Hlook by lia. replace (S s + j) with (s + S j) by lia. reflexivity.
Qed.

Lemma omap_lookup_seq (l : list A) (g : nat -> nat) (n : nat) :
  forall s,
  (forall i, s <= i < s + n -> g i < length l) ->
  omap (fun i => l !! g i) (seq s n) = map (fun i => default d (l !! g i)) (seq s n).
Proof.
  induction n as [|n IH]; intros s Hs; [reflexivity|].
  cbn [seq map].
  destruct (lookup_lt_is_Some_2 l (g s) (Hs s ltac:(lia))) as [x Hx].
  change (omap ?f (?a :: ?t)) with (match f a with Some y => y :: omap f t | None => omap f t end).
  cbv beta. rewrite Hx. simpl. f_equal.
  apply IH. intros i Hi. apply Hs. lia.
Qed.

Lemma transpose_list_lookup (r c : nat) (l : list A) :
  length l = r * c ->
  length (transpose_list r c l) = c * r /\
  forall i j, i < r -> j < c ->
    transpose_list r c l !! (j * r + i) = l !! (i * c + j).
Proof.
  intros Hlen. unfold transpose_list.
  assert (Hrows : forall j, j < c ->
            omap (fun i => l !! (i * c + j)) (seq 0 r)
              = map (fun i => default d (l !! (i * c + j))) (seq 0 r)).
  { intros j Hj. apply omap_lookup_seq. intros i Hi. nia. }
  destruct (flat_map_blocks
              (fun j => omap (fun i => l !! (i * c + j)) (seq 0 r)) r c 0) as [HL Hlook].
  { intros j Hj. simpl. rewrite Hrows by exact Hj. rewrite length_map, length_seq.
    reflexivity. }
  split; [exact HL|].
  intros i j Hi Hj. rewrite Hlook by assumption. simpl.
  rewrite Hrows by exact Hj.
  rewrite list_lookup_fmap, lookup_seq_lt by exact Hi. simpl.
  destruct (lookup_lt_is_Some_2 l (i * c + j) ltac:(nia)) as [x ->]. reflexivity.
Qed.

Lemma transpose_list_involutive (r c : nat) (l : list A) :
  length l = r * c ->
  transpose_list c r (transpose_list r c l) = l.
Proof.
  intros Hlen.
  destruct (transpose_list_lookup r c l Hlen) as [HL1 Hlook1].
  destruct (transpose_list_lookup c r (transpose_list r c l) HL1) as [HL2 Hlook2].
  apply list_eq. intros p.
  destruct (decide (p < r * c)) as [Hp|Hp].
  - assert (Hc : c <> 0) by (intros ->; lia).
    pose proof (Nat.div_mod_eq p c) as Hdm.
    pose proof (Nat.mod_upper_bound p c Hc) as Hmod.
    assert (Hdiv : p / c < r).
    { apply Nat.Div0.div_lt_upper_bound. lia. }
    replace p with (p / c * c + p mod c) at 1 2 by lia.
    rewrite Hlook2 by assumption. apply Hlook1; assumption.
  - rewrite !(proj2 (lookup_ge_None _ _)) by lia. reflexivity.
Qed.

Lemma concat_chunks (r c : nat) (l : list A) :
  length l = r * c -> concat (chunks r c l) = l.
Proof.
  revert l. induction r as [|r IH]; intros l Hlen.
  - destruct l; [reflexivity | discriminate].
  - cbn [chunks concat]. rewrite IH by (rewrite length_drop; lia).
    apply take_drop.
Qed.

Lemma chunks_rows (r c : nat) (l : list A) :
  length l = r * c -> Forall (fun row => length row = c) (chunks r c l).
Proof.
  revert l. induction r as [|r IH]; intros l Hlen; cbn [chunks]; constructor.
  - rewrite length_take. lia.
  - apply IH. rewrite length_drop. lia.
Qed.

Lemma chunks_concat (c : nat) (rows : list (list A)) :
  Forall (fun row => length row = c) rows ->
  chunks (length rows) c (concat rows) = rows.
Proof.
  induction 1 as [|row rows Hrow _ IH]; [reflexivity|].
  cbn [length chunks concat].
  rewrite take_app_length' by (symmetry; exact Hrow).
  rewrite drop_app_length' by (symmetry; exact Hrow). rewrite IH. reflexivity.
Qed.

Lemma slice_nat_all (row : list A) (b : nat) :
  length row <= b -> slice_nat row 0 b = row.
Proof. intros H. unfold slice_nat. rewrite drop_0, Nat.sub_0_r. apply take_ge. exact H. Qed.

Lemma slice_nat_none (row : list A) (a b : nat) :
  length row <= a -> slice_nat row a b = [].
Proof. intros H. unfold slice_nat. rewrite drop_ge by exact H. apply take_nil. Qed.

Lemma map_id_on (f : list A -> list A) (rows : list (list A)) :
  Forall (fun row => f row = row) rows -> map f rows = rows.
Proof. induction 1 as [|row rows Hrow _ IH]; simpl; [|rewrite Hrow, IH]; reflexivity. Qed.

Lemma concat_nils (rows : list (list A)) :
  Forall (fun row => row = []) rows -> concat rows = [].
Proof. induction 1 as [|row rows -> _ IH]; simpl; [|rewrite IH]; reflexivity. Qed.

(** The columns [0:b] of a matrix of at most [b] columns are all of it. *)
Lemma columns_all (r c b : nat) (l : list A) :
  length l = r * c -> c <= b ->
  concat (map (fun row => slice_nat row 0 b) (chunks r c l)) = l.
Proof.
  intros Hlen Hb. rewrite map_id_on; [apply concat_chunks; exact Hlen|].
  eapply Forall_impl; [apply chunks_rows; exact Hlen|].
  intros row Hrow. apply slice_nat_all. cbv beta in Hrow. lia.
Qed.

(** The columns from [a] on of a matrix of at most [a] columns are none. *)
Lemma columns_none (r c a b : nat) (l : list A) :
  length l = r * c -> c <= a ->
  concat (map (fun row => slice_nat row a b) (chunks r c l)) = [].
Proof.
  intros Hlen Ha. apply concat_nils. apply Forall_map.
  eapply Forall_impl; [apply chunks_rows; exact Hlen|].
  intros row Hrow. apply slice_nat_none. cbv beta in Hrow. lia.
Qed.

Lemma zip_app_rows (c1 c2 : nat) (rows1 rows2 : list (list A)) :
  length rows1 = length rows2 ->
  Forall (fun row => length row = c1) rows1 ->
  Forall (fun row => length row = c2) rows2 ->
  Forall (fun row => length row = c1 + c2) (zip_with app rows1 rows2) /\
  length (zip_with app rows1 rows2) = length rows1 /\
  map (fun row => slice_nat row 0 c1) (zip_with app rows1 rows2) = rows1 /\
  map (fun row => slice_nat row c1 (c1 + c2)) (zip_with app rows1 rows2) = rows2.
Proof.
  intros Hlen H1. revert rows2 Hlen.
  induction H1 as [|row1 rows1 Hrow1 _ IH]; intros [|row2 rows2] Hlen H2;
    try discriminate; [repeat split; constructor|].
  apply Forall_cons in H2. destruct H2 as [Hrow2 H2'].
  destruct (IH rows2 ltac:(simpl in Hlen; lia) H2') as (Ha & Hb & Hc & Hd).
  cbn [zip_with map length]. repeat split.
  - constructor; [rewrite length_app; lia | exact Ha].
  - f_equal. exact Hb.
  - f_equal; [|exact Hc]. unfold slice_nat. rewrite drop_0, Nat.sub_0_r.
    apply take_app_length'. symmetry. exact Hrow1.
  - f_equal; [|exact Hd]. unfold slice_nat.
    rewrite drop_app_length' by (symmetry; exact Hrow1).
    apply take_ge. lia.
Qed.

End CoefficientFacts.

Lemma reshape_T_real (a : list float) (k n : Z) (m : array2) :
  reshape_T (VArr (RealArr a)) (VNum (NInt k)) (VNum (NInt n)) = Ok m ->
  0 <= k /\ 0 <= n /\
  length a = (Z.to_nat k * Z.to_nat n)%nat /\
  m = Array2 (Z.to_nat n) (Z.to_nat k)
        (RealArr (transpose_list (Z.to_nat k) (Z.to_nat n) a)).
Proof.
  unfold reshape_T. simpl. unfold reshape2.
  destruct (Z.ltb_spec k 0) as [|Hk]; [discriminate|].
  destruct (Z.ltb_spec n 0) as [|Hn]; [discriminate|]. simpl.
  destruct (Z.eqb_spec (k * n) (Z.of_nat (length a))) as [Hlen|]; [|discriminate].
  simpl. intros Hm. injection Hm as <-.
  repeat split; try lia; nia.
Qed.

(** X20: the orbital coefficients of restricted orbitals make the round
    trip.  The matrix that [load_one] builds from the field 'Alpha MO
    coefficients' for [k] independent functions out of [n] basis
    functions, [k <= n], is split by [_split_and_get_coefficients] into
    the array of the field and an empty array of beta coefficients. *)
Theorem restricted_coefficients_round_trip (a : list float) (k n : Z) (m : array2) :
  reshape_T (VArr (RealArr a)) (VNum (NInt k)) (VNum (NInt n)) = Ok m ->
  k <= n ->
  fst (_split_and_get_coefficients (Some m)) = RealArr a /\
  arr_size (snd (_split_and_get_coefficients (Some m))) = 0%nat.
Proof.
  intros H Hkn. destruct (reshape_T_real _ _ _ _ H) as (Hk & Hn & Hlen & ->).
  set (k' := Z.to_nat k) in *. set (n' := Z.to_nat n) in *.
  assert (Hkn' : (k' <= n')%nat) by lia.
  destruct (transpose_list_lookup 0%float k' n' a Hlen) as [HT _].
  assert (Halpha : items (transpose (columns
                      (Array2 n' k' (RealArr (transpose_list k' n' a))) 0 n'))
                   = RealArr a).
  { cbn [columns transpose items].
    rewrite (columns_all n' k' n') by assumption.
    replace (Nat.min n' k' - 0)%nat with k' by lia.
    rewrite (transpose_list_involutive 0%float k' n' a Hlen). reflexivity. }
  unfold _split_and_get_coefficients. cbn [shape0 shape1].
  destruct (n' =? k')%nat; cbn [fst snd]; (split; [exact Halpha|]); [reflexivity|].
  cbn [columns transpose items arr_size].
  rewrite (columns_none n' k' n' k') by assumption.
  replace (Nat.min k' k' - n')%nat with 0%nat by lia. reflexivity.
Qed.

Lemma restricted_coefficients_round_trip_witness :
  fst (_split_and_get_coefficients
         (Some (Array2 3 2 (RealArr [1; 4; 2; 5; 3; 6]%float))))
    = RealArr [1; 2; 3; 4; 5; 6]%float /\
  arr_size (snd (_split_and_get_coefficients
                   (Some (Array2 3 2 (RealArr [1; 4; 2; 5; 3; 6]%float))))) = 0%nat.
Proof.
  apply (restricted_coefficients_round_trip [1; 2; 3; 4; 5; 6]%float 2 3
           (Array2 3 2 (RealArr [1; 4; 2; 5; 3; 6]%float)));
    [reflexivity | lia].
Defined.

(** X21: the orbital coefficients of unrestricted orbitals make the
    round trip when the numbers of independent and of basis functions
    are the same [n > 0]: the matrix that [load_one] builds from the
    fields 'Alpha MO coefficients' and 'Beta MO coefficients' is split
    into the arrays of these two fields. *)
Theorem unrestricted_coefficients_round_trip (a b : list float) (n : Z)
    (ma mb m : array2) :
  0 < n ->
  reshape_T (VArr (RealArr a)) (VNum (NInt n)) (VNum (NInt n)) = Ok ma ->
  reshape_T (VArr (RealArr b)) (VNum (NInt n)) (VNum (NInt n)) = Ok mb ->
  hstack ma mb = Ok m ->
  _split_and_get_coefficients (Some m) = (RealArr a, RealArr b).
Proof.
  intros Hn Ha Hb Hm.
  destruct (reshape_T_real _ _ _ _ Ha) as (_ & _ & Hla & ->).
  destruct (reshape_T_real _ _ _ _ Hb) as (_ & _ & Hlb & ->).
  set (n' := Z.to_nat n) in *. assert (Hn' : (0 < n')%nat) by lia.
  destruct (transpose_list_lookup 0%float n' n' a Hla) as [HTa _].
  destruct (transpose_list_lookup 0%float n' n' b Hlb) as [HTb _].
  cbn [hstack] in Hm. rewrite Nat.eqb_refl in Hm. cbn [negb arr_floats] in Hm.
  injection Hm as <-.
  set (rowsA := chunks n' n' (transpose_list n' n' a)).
  set (rowsB := chunks n' n' (transpose_list n' n' b)).
  assert (HrowsA : Forall (fun row => length row = n') rowsA)
    by (apply chunks_rows; exact HTa).
  assert (HrowsB : Forall (fun row => length row = n') rowsB)
    by (apply chunks_rows; exact HTb).
  assert (HlA : length rowsA = n') by apply chunks_length.
  assert (HlB : length rowsB = n') by apply chunks_length.
  destruct (zip_app_rows n' n' rowsA rowsB ltac:(congruence) HrowsA HrowsB)
    as (Hz & Hzl & HzA & HzB).
  assert (Hchunks : chunks n' (n' + n') (concat (zip_with app rowsA rowsB))
                    = zip_with app rowsA rowsB).
  { pose proof (chunks_concat (n' + n') _ Hz) as Hc.
    rewrite Hzl, HlA in Hc. exact Hc. }
  unfold _split_and_get_coefficients. cbn [shape0 shape1].
  destruct (Nat.eqb_spec n' (n' + n')) as [Heq|_]; [lia|].
  cbn [columns transpose items]. rewrite Hchunks, HzA, HzB.
  unfold rowsA, rowsB. rewrite !concat_chunks by assumption.
  replace (Nat.min n' (n' + n') - 0)%nat with n' by lia.
  replace (Nat.min (n' + n') (n' + n') - n')%nat with n' by lia.
  rewrite !(transpose_list_involutive 0%float n' n') by assumption.
  reflexivity.
Qed.

Lemma unrestricted_coefficients_round_trip_witness :
  _split_and_get_coefficients
    (Some (Array2 2 4 (RealArr [1; 3; 5; 7; 2; 4; 6; 8]%float)))
    = (RealArr [1; 2; 3; 4]%float, RealArr [5; 6; 7; 8]%float).
Proof.
  apply (unrestricted_coefficients_round_trip [1; 2; 3; 4]%float [5; 6; 7; 8]%float 2
           (Array2 2 2 (RealArr [1; 3; 2; 4]%float))
           (Array2 2 2 (RealArr [5; 7; 6; 8]%float))); [lia | reflexivity ..].
Defined.

(** ** Moments and density fields *)

(** X22: the moments of [load_one] for a quadrupole field of any size.
    A field 'Quadrupole Moment' of fewer than six values makes the
    indexing by [0, 3, 4, 1, 5, 2] fail with IndexError; of six or more
    values, the record holds the six components (xx,xy,xz,yy,yz,zz) taken
    from the first six values (xx,yy,zz,xy,xz,yz) and the other values
    are dropped; the dipole is stored as the file gives it. *)
Theorem moments_of_quadrupole (fchk : gmap string value) (q : ndarray) :
  fchk !! "Quadrupole Moment" = Some (VArr q) ->
  ((arr_size q < 6)%nat -> load_moments fchk = Raise IndexError) /\
  (forall xx yy zz xy xz yz others,
     arr_nums q = [xx; yy; zz; xy; xz; yz] ++ others ->
     exists q',
       load_moments fchk
         = Ok (Some (MkMoments (fchk !! "Dipole Moment") (Some q'))) /\
       arr_nums q' = [xx; xy; xz; yy; yz; zz]).
Proof.
  intros Hq. unfold load_moments. rewrite Hq. split.
  - intros Hsize.
    destruct q as [l|l]; simpl in Hsize;
      destruct l as [|x0 [|x1 [|x2 [|x3 [|x4 [|x5 l]]]]]]; simpl in Hsize;
      try lia; reflexivity.
  - intros xx yy zz xy xz yz others Hnums.
    destruct q as [l|l]; simpl in Hnums;
      destruct l as [|x0 [|x1 [|x2 [|x3 [|x4 [|x5 l]]]]]]; try discriminate;
      injection Hnums as <- <- <- <- <- <- _;
      eexists; (split; [destruct (fchk !! "Dipole Moment"); reflexivity | reflexivity]).
Qed.

Lemma moments_of_quadrupole_witness :
  exists q',
    load_moments long_quadrupole_fields
      = Ok (Some (MkMoments (long_quadrupole_fields !! "Dipole Moment") (Some q'))) /\
    arr_nums q' = map NReal [1; 4; 5; 2; 6; 3]%float.
Proof.
  apply (proj2 (moments_of_quadrupole long_quadrupole_fields
                  (RealArr [1; 2; 3; 4; 5; 6; 7]%float) ltac:(vm_refl))
           (NReal 1) (NReal 2) (NReal 3) (NReal 4) (NReal 5) (NReal 6) [NReal 7%float]).
  reflexivity.
Defined.

Lemma find_level_priority (lot : string) (namelevel : option string) :
  find_level lot namelevel
    = if Py.contains "CI" lot then Some "CI"
      else if Py.contains "CC" lot then Some "CC"
      else if Py.contains "MP3" lot then Some "MP3"
      else if Py.contains "MP2" lot then Some "MP2"
      else namelevel.
Proof.
  unfold find_level. cbn [fold_left].
  destruct (Py.contains "CI" lot), (Py.contains "CC" lot), (Py.contains "MP3" lot),
    (Py.contains "MP2" lot); reflexivity.
Qed.

Lemma find_level_again (lot : string) :
  find_level lot (find_level lot None) = find_level lot None.
Proof.
  rewrite !find_level_priority.
  destruct (Py.contains "CI" lot), (Py.contains "CC" lot), (Py.contains "MP3" lot),
    (Py.contains "MP2" lot); reflexivity.
Qed.

Lemma rdm_title_defined (key : string) (namelevel : option string) :
  is_ok (rdm_title key namelevel) = true <->
  is_Some namelevel \/ (key <> "post_scf" /\ key <> "post_scf_spin").
Proof.
  unfold rdm_title.
  destruct (String.eqb_spec key "scf") as [->|H1];
    [split; [right; split; discriminate | reflexivity]|].
  destruct (String.eqb_spec key "scf_spin") as [->|H2];
    [split; [right; split; discriminate | reflexivity]|].
  destruct (String.eqb_spec key "post_scf") as [->|H3].
  { destruct namelevel; simpl; split; eauto; try discriminate.
    intros [[? ?]|[? _]]; [discriminate | congruence]. }
  destruct (String.eqb_spec key "post_scf_spin") as [->|H4].
  { destruct namelevel; simpl; split; eauto; try discriminate.
    intros [[? ?]|[_ ?]]; [discriminate | congruence]. }
  split; [right; split; assumption | reflexivity].
Qed.

Lemma rdm_title_exn (key : string) (namelevel : option string) (e : exn) :
  rdm_title key namelevel = Raise e -> e = UnboundLocalError "namelevel".
Proof.
  unfold rdm_title.
  destruct (String.eqb key "scf"); [discriminate|].
  destruct (String.eqb key "scf_spin"); [discriminate|].
  destruct (String.eqb key "post_scf"); [destruct namelevel; congruence|].
  destruct (String.eqb key "post_scf_spin"); [destruct namelevel; congruence|].
  discriminate.
Qed.

Lemma dump_real_arrays_app (title : string) (vals : list float) (f : TextIO) :
  _dump_real_arrays title (Some vals) f = f ++ _dump_real_arrays title (Some vals) [].
Proof.
  unfold _dump_real_arrays. destruct (length vals =? 0)%nat;
    [rewrite app_nil_r|]; reflexivity.
Qed.

(** The title that the chain chooses, when it is defined, is the one of
    the table. *)
Lemma rdm_title_table (key level : string) (namelevel : option string) (title : string) :
  (forall l, namelevel = Some l -> l = level) ->
  rdm_title key namelevel = Ok title ->
  title = density_title key level.
Proof.
  intros Hlevel. unfold rdm_title, density_title, DENSITY_TITLES.
  cbn [List.find fst snd]. rewrite !(String.eqb_sym _ key).
  destruct (String.eqb key "scf"); [intros H; injection H as <-; reflexivity|].
  destruct (String.eqb key "scf_spin"); [intros H; injection H as <-; reflexivity|].
  destruct (String.eqb key "post_scf").
  { destruct namelevel as [l|]; [|discriminate].
    rewrite <- (Hlevel l eq_refl). intros H; injection H as <-; reflexivity. }
  destruct (String.eqb key "post_scf_spin").
  { destruct namelevel as [l|]; [|discriminate].
    rewrite <- (Hlevel l eq_refl). intros H; injection H as <-; reflexivity. }
  intros H; injection H as <-; reflexivity.
Qed.

(** An array field is written when it has values. *)
Lemma dump_real_arrays_written (title : string) (vals : list float) :
  _dump_real_arrays title (Some vals) []
    = match vals with
      | [] => []
      | _ => [RealArray title vals]
      end.
Proof. destruct vals; reflexivity. Qed.

Lemma dump_rdm_keys_outcome (lot : string) (one_rdms : list (string * Matrix)) :
  Forall (fun km => square (length km.2) km.2) one_rdms ->
  forall f,
  (Forall (fun km => is_ok (rdm_title km.1 (find_level lot None)) = true) one_rdms ->
   forall level, (forall l, find_level lot None = Some l -> l = level) ->
   dump_rdm_keys lot one_rdms (find_level lot None) f
     = (Ok (), f ++ written_rdms one_rdms level)) /\
  (fst (dump_rdm_keys lot one_rdms (find_level lot None) f) = Ok () ->
   Forall (fun km => is_ok (rdm_title km.1 (find_level lot None)) = true) one_rdms) /\
  (forall e, fst (dump_rdm_keys lot one_rdms (find_level lot None) f) = Raise e ->
     e = UnboundLocalError "namelevel").
Proof.
  induction 1 as [|[key M] one_rdms Hsq _ IH]; intros f.
  - simpl. rewrite app_nil_r. repeat split; [constructor | discriminate].
  - cbn [dump_rdm_keys]. simpl in Hsq.
    rewrite (get_TriangleMat_square _ _ Hsq), find_level_again.
    cbn [arr_floats].
    destruct (rdm_title key (find_level lot None)) as [title|e] eqn:Htitle.
    + destruct (IH (_dump_real_arrays title (Some (lower_triangle 0 M)) f))
        as (Hok & Hall & Hexn).
      split; [|split].
      * intros Hdef level Hlevel. apply Forall_cons in Hdef. destruct Hdef as [_ Hdef].
        rewrite (Hok Hdef level Hlevel). unfold written_rdms at 2. cbn [flat_map fst snd].
        fold (written_rdms one_rdms level).
        rewrite (dump_real_arrays_app title _ f), dump_real_arrays_written.
        rewrite (rdm_title_table _ _ _ _ Hlevel Htitle), <- app_assoc.
        destruct (lower_triangle 0 M); reflexivity.
      * intros Hres. constructor; [simpl; rewrite Htitle; reflexivity | exact (Hall Hres)].
      * exact Hexn.
    + split; [|split].
      * intros Hdef. apply Forall_cons in Hdef. destruct Hdef as [Hdef _].
        simpl in Hdef. rewrite Htitle in Hdef. discriminate.
      * discriminate.
      * simpl. intros e' He. injection He as <-. eapply rdm_title_exn. exact Htitle.
Qed.

(** X23: the outcome of [_dump_rdms] on square matrices.  The level
    written in the titles is the last of MP2, MP3, CC, CI that occurs in
    the level of theory in upper case.  The function ends normally
    exactly when such a level occurs or no key is 'post_scf' or
    'post_scf_spin'.  It then appends, for each matrix in the order of
    the keys, one array of real numbers with the lower triangle as
    values, and nothing for an empty matrix; the titles are 'Total SCF
    Density' for the key 'scf', 'Spin SCF Density' for 'scf_spin',
    'Total L Density' for 'post_scf' and 'Spin L Density' for
    'post_scf_spin' with the level L, and 'Total SCF Density' for any
    other key.  Its only exception is the UnboundLocalError of
    [namelevel]. *)
Theorem dump_rdms_outcome (one_rdms : list (string * Matrix)) (lot_tmp : option string)
    (f : TextIO) :
  Forall (fun km => square (length km.2) km.2) one_rdms ->
  exists namelevel,
    namelevel = (let lot := Py.upper (default "None" lot_tmp) in
                 if Py.contains "CI" lot then Some "CI"
                 else if Py.contains "CC" lot then Some "CC"
                 else if Py.contains "MP3" lot then Some "MP3"
                 else if Py.contains "MP2" lot then Some "MP2"
                 else None) /\
    (fst (_dump_rdms one_rdms lot_tmp f) = Ok () <->
     is_Some namelevel \/
     Forall (fun km => km.1 <> "post_scf" /\ km.1 <> "post_scf_spin") one_rdms) /\
    (fst (_dump_rdms one_rdms lot_tmp f) = Ok () ->
     forall level, (forall l, namelevel = Some l -> l = level) ->
     _dump_rdms one_rdms lot_tmp f = (Ok (), f ++ written_rdms one_rdms level)) /\
    (forall e, fst (_dump_rdms one_rdms lot_tmp f) = Raise e ->
       e = UnboundLocalError "namelevel").
Proof.
  intros Hsq. exists (find_level (Py.upper (default "None" lot_tmp)) None).
  split; [apply find_level_priority|].
  set (lot := Py.upper (default "None" lot_tmp)).
  assert (Hstart : _dump_rdms one_rdms lot_tmp f
                   = dump_rdm_keys lot one_rdms (find_level lot None) f).
  { unfold _dump_rdms. fold lot. destruct one_rdms as [|[key M] rest]; [reflexivity|].
    cbn [dump_rdm_keys]. rewrite find_level_again. reflexivity. }
  rewrite Hstart.
  destruct (dump_rdm_keys_outcome lot one_rdms Hsq f) as (Hok & Hall & Hexn).
  assert (Hdef : Forall (fun km => is_ok (rdm_title km.1 (find_level lot None)) = true)
                        one_rdms
                 <-> is_Some (find_level lot None) \/
                     Forall (fun km => km.1 <> "post_scf" /\ km.1 <> "post_scf_spin")
                            one_rdms).
  { split.
    - intros H. destruct (find_level lot None) as [L|] eqn:E; [left; eauto|right].
      eapply Forall_impl; [exact H|]. intros km Hkm. cbv beta in Hkm.
      apply rdm_title_defined in Hkm. destruct Hkm as [[? ?]|Hkm]; [discriminate | exact Hkm].
    - intros [Hsome|Hkeys].
      + apply Forall_forall. intros km _. apply rdm_title_defined. left. exact Hsome.
      + eapply Forall_impl; [exact Hkeys|]. intros km Hkm. apply rdm_title_defined.
        right. exact Hkm. }
  split; [|split; [|exact Hexn]].
  - rewrite <- Hdef. split; [exact Hall|]. intros H.
    destruct (find_level lot None) as [l|] eqn:E.
    + rewrite (Hok H l); [reflexivity | congruence].
    + rewrite (Hok H ""); [reflexivity | discriminate].
  - intros H level Hlevel. apply Hok; [apply Hall; exact H | exact Hlevel].
Qed.

(** The densities of a coupled-cluster calculation, of level 'ccsd': the
    SCF density and the density of level CC are written, the empty spin
    density is not. *)
Lemma dump_rdms_outcome_witness :
  _dump_rdms sample_rdms (Some "ccsd") []
    = (Ok (), [ RealArray "Total SCF Density" [1]%float;
                RealArray "Total CC Density" [1; 2; 3; 4; 5; 6]%float ]).
Proof.
  destruct (dump_rdms_outcome sample_rdms (Some "ccsd") [] ltac:(repeat constructor))
    as (namelevel & Hlevel & Hiff & Hok & _).
  assert (Hcc : namelevel = Some "CC") by (rewrite Hlevel; reflexivity).
  rewrite (Hok (proj2 Hiff (or_introl (ex_intro _ "CC" Hcc))) "CC"
             ltac:(intros l Hl; congruence)).
  reflexivity.
Defined.

(** ** Triangular storage outside its domain *)

Section LengthFacts.

Local Open Scope nat_scope.

(** The number of rows for a length between two triangular numbers. *)
Lemma nrow_of_length_low (n L : nat) :
  n * (n + 1) <= 2 * L -> 2 * L <= n * (n + 1) + n -> nrow_of_length L = n.
Proof.
  intros Hlo Hhi. unfold nrow_of_length.
  assert (Hsqrt : Z.sqrt (1 + 8 * Z.of_nat L) = (2 * Z.of_nat n + 1)%Z).
  { apply Z.sqrt_unique. nia. }
  rewrite Hsqrt.
  replace ((2 * Z.of_nat n + 1) / 2)%Z with (Z.of_nat n); [apply Nat2Z.id|].
  apply (Z.div_unique_pos _ 2 _ 1); lia.
Qed.

Lemma nrow_of_length_high (n L : nat) :
  n * (n + 1) + n < 2 * L -> 2 * L < (n + 1) * (n + 2) -> nrow_of_length L = S n.
Proof.
  intros Hlo Hhi. unfold nrow_of_length.
  assert (Hsqrt : Z.sqrt (1 + 8 * Z.of_nat L) = (2 * Z.of_nat n + 2)%Z).
  { apply Z.sqrt_unique. nia. }
  rewrite Hsqrt.
  replace ((2 * Z.of_nat n + 2) / 2)%Z with (Z.of_nat (S n)); [apply Nat2Z.id|].
  apply (Z.div_unique_pos _ 2 _ 0); lia.
Qed.

Lemma slice_nat_take {A} (t : list A) (b e E : nat) :
  e <= E -> slice_nat (take E t) b e = slice_nat t b e.
Proof.
  intros He. unfold slice_nat. apply list_eq. intros j.
  destruct (decide (j < e - b)) as [Hj|Hj].
  - rewrite !lookup_take_lt, !lookup_drop by exact Hj.
    apply lookup_take_lt. lia.
  - rewrite !lookup_take_ge by lia. reflexivity.
Qed.

Lemma slice_nat_length {A} (t : list A) (b e : nat) :
  e <= length t -> length (slice_nat t b e) = e - b.
Proof. intros He. unfold slice_nat. rewrite length_take, length_drop. lia. Qed.

(** The loop reads the triangle up to the end of its last row only. *)
Lemma fill_rows_prefix (t1 t2 : list float) :
  forall m i0 res,
  take (triangle_index (i0 + m) 0) t1 = take (triangle_index (i0 + m) 0) t2 ->
  fill_rows t1 (seq i0 m) (triangle_index i0 0) res
    = fill_rows t2 (seq i0 m) (triangle_index i0 0) res.
Proof.
  induction m as [|m IH]; intros i0 res Heq; [reflexivity|].
  cbn [seq fill_rows].
  assert (Hend : triangle_index i0 0 + i0 + 1 = triangle_index (S i0) 0)
    by (rewrite triangle_index_S; lia).
  assert (Hle : triangle_index (S i0) 0 <= triangle_index (i0 + S m) 0).
  { pose proof (triangle_index_double (S i0)). pose proof (triangle_index_double (i0 + S m)).
    nia. }
  assert (Hslice : slice_nat t1 (triangle_index i0 0) (triangle_index i0 0 + i0 + 1)
                   = slice_nat t2 (triangle_index i0 0) (triangle_index i0 0 + i0 + 1)).
  { rewrite Hend.
    rewrite <- (slice_nat_take t1 _ _ _ Hle), <- (slice_nat_take t2 _ _ _ Hle), Heq.
    reflexivity. }
  rewrite Hslice.
  destruct (assign_row res i0 _) as [res1|]; [|reflexivity]. cbn [mbind result_bind].
  destruct (assign_col res1 i0 _) as [res2|]; [|reflexivity]. cbn [mbind result_bind].
  rewrite Hend. apply IH. replace (S i0 + m) with (i0 + S m) by lia. exact Heq.
Qed.

(** The loop succeeds as long as the triangle holds its rows. *)
Lemma fill_rows_defined (N : nat) (t : list float) :
  forall m i0 f,
  i0 + m <= N ->
  triangle_index (i0 + m) 0 <= length t ->
  exists g, fill_rows t (seq i0 m) (triangle_index i0 0) (tab N f) = Ok (tab N g).
Proof.
  induction m as [|m IH]; intros i0 f HN Ht; [exists f; reflexivity|].
  cbn [seq fill_rows].
  assert (Hend : triangle_index i0 0 + i0 + 1 = triangle_index (S i0) 0)
    by (rewrite triangle_index_S; lia).
  assert (Hle : triangle_index (S i0) 0 <= length t).
  { pose proof (triangle_index_double (S i0)). pose proof (triangle_index_double (i0 + S m)).
    nia. }
  assert (Hlen : length (slice_nat t (triangle_index i0 0) (triangle_index i0 0 + i0 + 1))
                 = S i0).
  { rewrite slice_nat_length by lia. lia. }
  rewrite assign_row_tab by (try exact Hlen; lia). cbn [mbind result_bind].
  rewrite assign_col_tab by (try exact Hlen; lia). cbn [mbind result_bind].
  rewrite Hend. apply IH; [lia|]. replace (S i0 + m) with (i0 + S m) by lia. exact Ht.
Qed.

Lemma fill_rows_app (t : list float) (rows1 rows2 : list nat) :
  forall begin res,
  fill_rows t (rows1 ++ rows2) begin res
    = match fill_rows t rows1 begin res with
      | Ok res' =>
          fill_rows t rows2 (fold_left (fun b irow => b + irow + 1) rows1 begin) res'
      | Raise e => Raise e
      end.
Proof.
  induction rows1 as [|irow rows1 IH]; intros begin res.
  - reflexivity.
  - cbn [app fill_rows fold_left].
    destruct (assign_row res irow _) as [res1|]; [|reflexivity]. cbn [mbind result_bind].
    destruct (assign_col res1 irow _) as [res2|]; [|reflexivity]. cbn [mbind result_bind].
    apply IH.
Qed.

Lemma triangle_to_dense_exact (n : nat) (t : list float) :
  2 * length t = n * (n + 1) ->
  fill_rows t (seq 0 n) 0 (zeros2 n n) = Ok (dense_of n t).
Proof.
  intros Hlen.
  pose proof (lower_triangle_dense_of n t Hlen n 0 ltac:(lia)) as Hlow.
  rewrite !drop_0 in Hlow.
  pose proof (triangle_to_dense_lower n (dense_of n t) (dense_of_square n t)
                (dense_of_symmetric n t)) as H.
  rewrite Hlow in H. unfold _triangle_to_dense in H. cbn [arr_floats] in H.
  rewrite (nrow_of_length_triangular n _ Hlen) in H. exact H.
Qed.

(** X24: [_triangle_to_dense] on the lengths that are not triangular.
    Every length is [n (n + 1) / 2 + k] with [0 <= k <= n].  When
    [2 k <= n] the number of rows is computed as [n] and the [k] last
    elements are ignored; when [n < 2 k] it is computed as [n + 1], the
    last row is short, and the assignment raises ValueError, except for
    the length 2, whose second element is repeated over the second row. *)
Theorem triangle_to_dense_lengths (n : nat) (t extra : list float) :
  2 * length t = n * (n + 1) ->
  (2 * length extra <= n ->
   _triangle_to_dense (RealArr (t ++ extra)) = Ok (dense_of n t)) /\
  (2 <= n -> n < 2 * length extra -> length extra <= n ->
   _triangle_to_dense (RealArr (t ++ extra)) = Raise ValueError) /\
  (forall a b, _triangle_to_dense (RealArr [a; b]) = Ok [[a; b]; [b; b]]).
Proof.
  intros Hlen.
  pose proof (triangle_index_double n) as Hn.
  assert (Ht : length t = triangle_index n 0) by lia.
  split; [|split].
  - intros Hk. unfold _triangle_to_dense. cbn [arr_floats].
    rewrite (nrow_of_length_low n) by (rewrite length_app; lia).
    change 0 with (triangle_index 0 0) at 1.
    rewrite (fill_rows_prefix (t ++ extra) t n 0).
    + apply triangle_to_dense_exact. exact Hlen.
    + simpl. rewrite <- Ht. rewrite take_app_length, take_ge by lia. reflexivity.
  - intros H2 Hlo Hhi. unfold _triangle_to_dense. cbn [arr_floats].
    rewrite (nrow_of_length_high n) by (rewrite length_app; nia).
    rewrite seq_S, fill_rows_app, zeros2_tab. cbn [Nat.add].
    destruct (fill_rows_defined (S n) (t ++ extra) n 0 (fun _ _ => 0%float))
      as [g Hg]; [lia | simpl; rewrite length_app; lia |].
    change (triangle_index 0 0) with 0 in Hg. rewrite Hg.
    cbn [fill_rows]. unfold assign_row.
    set (b := fold_left (fun b irow => b + irow + 1) (seq 0 n) 0).
    assert (Hb : b = triangle_index n 0).
    { unfold b. clear. 
      assert (H : forall m i0 b0, fold_left (fun b irow => b + irow + 1) (seq i0 m) b0
                                  + triangle_index i0 0
                                  = b0 + triangle_index (i0 + m) 0).
      { induction m as [|m IH]; intros i0 b0; simpl; [rewrite Nat.add_0_r; reflexivity|].
        specialize (IH (S i0) (b0 + i0 + 1)). rewrite triangle_index_S in IH.
        replace (i0 + S m) with (S i0 + m) by lia. lia. }
      specialize (H n 0 0). change (triangle_index 0 0) with 0 in H. simpl in H. lia. }
    rewrite Hb.
    assert (Hsrc : length (slice_nat (t ++ extra) (triangle_index n 0)
                             (triangle_index n 0 + n + 1)) = length extra).
    { unfold slice_nat. rewrite <- Ht, drop_app_length, length_take. lia. }
    unfold broadcast_to. rewrite Hsrc.
    destruct (Nat.eqb_spec (length extra) (S n)) as [E|_]; [lia|].
    destruct (slice_nat (t ++ extra) (triangle_index n 0) (triangle_index n 0 + n + 1))
      as [|x [|y l]]; simpl in Hsrc; try reflexivity. lia.
  - intros a b. reflexivity.
Qed.

End LengthFacts.

Lemma triangle_to_dense_lengths_witness :
  _triangle_to_dense (RealArr ([1; 2; 3; 4; 5; 6] ++ [7])%float) = Ok sample_matrix /\
  _triangle_to_dense (RealArr ([1; 2; 3; 4; 5; 6] ++ [7; 8])%float) = Raise ValueError.
Proof.
  split.
  - apply (proj1 (triangle_to_dense_lengths 3 [1; 2; 3; 4; 5; 6]%float [7]%float eq_refl)).
    simpl. lia.
  - apply (proj1 (proj2 (triangle_to_dense_lengths 3 [1; 2; 3; 4; 5; 6]%float
                           [7; 8]%float eq_refl))); simpl; lia.
Defined.

Section RectangleFacts.

Local Open Scope nat_scope.

(** The inner loop on a row that reaches the diagonal. *)
Lemma triangle_row_wide (matrix : Matrix) (i : nat) (row : list float) :
  matrix !! i = Some row -> i < length row ->
  forall m j0 k newmat,
  k + (Nat.min (j0 + m) (S i) - j0) <= length newmat ->
  triangle_row matrix i (seq j0 m) k newmat
    = Ok (k + (Nat.min (j0 + m) (S i) - j0),
          take k newmat ++ take (Nat.min (j0 + m) (S i) - j0) (drop j0 row)
            ++ drop (k + (Nat.min (j0 + m) (S i) - j0)) newmat).
Proof.
  intros Hrow Hi. induction m as [|m IH]; intros j0 k newmat Hk; simpl.
  - replace (Nat.min (j0 + 0) (S i) - j0) with 0 by lia.
    rewrite Nat.add_0_r. simpl. rewrite take_drop. reflexivity.
  - destruct (j0 <=? i) eqn:Ej.
    + apply Nat.leb_le in Ej.
      destruct (lookup_lt_is_Some_2 row j0 ltac:(lia)) as [x Hx].
      unfold get2. rewrite Hrow, Hx. simpl.
      rewrite setitem_ok by lia. simpl.
      rewrite IH by (rewrite ?length_insert; lia).
      replace (Nat.min (j0 + S m) (S i) - j0)
        with (S (Nat.min (S j0 + m) (S i) - S j0)) by lia.
      set (c := Nat.min (S j0 + m) (S i) - S j0).
      f_equal. f_equal; [lia|].
      rewrite (drop_S row x j0 Hx). simpl.
      rewrite (take_S_r (<[k:=x]> newmat) k x)
        by (apply list_lookup_insert_eq; lia).
      rewrite take_insert_ge by lia.
      rewrite <- app_assoc. simpl. f_equal. f_equal. f_equal.
      rewrite drop_insert_lt by lia. f_equal. lia.
    + apply Nat.leb_gt in Ej.
      rewrite IH by lia.
      replace (Nat.min (j0 + S m) (S i) - j0) with 0 by lia.
      replace (Nat.min (S j0 + m) (S i) - S j0) with 0 by lia.
      reflexivity.
Qed.

Lemma lower_triangle_wide_length (rows : list (list float)) (c : nat) :
  forall i0,
  Forall (fun row => length row = c) rows ->
  i0 + length rows <= c ->
  2 * length (lower_triangle i0 rows) = length rows * (2 * i0 + length rows + 1).
Proof.
  induction rows as [|row rows IH]; intros i0 Hrows Hn; simpl; [lia|].
  apply Forall_cons in Hrows. destruct Hrows as [Hrow Hrows'].
  rewrite length_app, length_take. simpl in Hn.
  specialize (IH (S i0) Hrows' ltac:(lia)). nia.
Qed.

(** The outer loop on a matrix with at least as many columns as rows. *)
Lemma triangle_rows_wide (c : nat) (M : Matrix) :
  Forall (fun row => length row = c) M -> length M <= c ->
  forall rows i0 k newmat,
  drop i0 M = rows ->
  k + length (lower_triangle i0 rows) <= length newmat ->
  triangle_rows M (length M) (seq i0 (length rows)) k newmat
    = Ok (k + length (lower_triangle i0 rows),
          take k newmat ++ lower_triangle i0 rows
            ++ drop (k + length (lower_triangle i0 rows)) newmat).
Proof.
  intros Hrows Hlen.
  induction rows as [|row rows IH]; intros i0 k newmat Hdrop Hk; simpl.
  - rewrite Nat.add_0_r. rewrite take_drop. reflexivity.
  - assert (Hrow : M !! i0 = Some row).
    { rewrite <- (Nat.add_0_r i0), <- lookup_drop, Hdrop. reflexivity. }
    assert (Hi0 : i0 < length M) by (eapply lookup_lt_Some; exact Hrow).
    assert (Hrown : length row = c).
    { rewrite Forall_forall in Hrows. apply Hrows.
      eapply list_elem_of_lookup_2. exact Hrow. }
    assert (Hdrop' : drop (S i0) M = rows).
    { replace (S i0) with (i0 + 1) by lia. rewrite <- drop_drop, Hdrop. reflexivity. }
    simpl in Hk. rewrite length_app, length_take in Hk.
    rewrite (triangle_row_wide M i0 row Hrow ltac:(lia) (length M) 0 k newmat) by lia.
    replace (Nat.min (0 + length M) (S i0) - 0) with (S i0) by lia.
    simpl mbind. cbn beta iota. rewrite drop_0.
    rewrite IH; [|exact Hdrop'|].
    + rewrite length_app, length_take.
      replace (S i0 `min` length row) with (S i0) by lia.
      f_equal. f_equal; [lia|].
      rewrite splice_take by (rewrite length_take; lia).
      rewrite <- !app_assoc. f_equal. f_equal. f_equal.
      rewrite splice_drop by (rewrite length_take; lia).
      rewrite drop_drop. f_equal. lia.
    + rewrite !length_app, !length_take, length_drop. lia.
Qed.

(** What the loops read when they end normally. *)
Lemma triangle_row_reads (matrix : Matrix) (i : nat) (js : list nat) :
  forall k newmat r,
  triangle_row matrix i js k newmat = Ok r ->
  forall j, In j js -> j <= i -> is_ok (get2 matrix i j) = true.
Proof.
  induction js as [|j0 js IH]; intros k newmat r H j Hj Hji; [destruct Hj|].
  cbn [triangle_row] in H.
  destruct (Nat.leb_spec j0 i) as [Hle|Hgt].
  - destruct (get2 matrix i j0) as [x|] eqn:Hx; [|discriminate].
    cbn [mbind result_bind] in H.
    destruct (setitem newmat k x) as [newmat'|]; [|discriminate].
    cbn [mbind result_bind] in H.
    destruct Hj as [<-|Hj]; [rewrite Hx; reflexivity|].
    eapply IH; eassumption.
  - destruct Hj as [<-|Hj]; [lia|]. eapply IH; eassumption.
Qed.

Lemma triangle_rows_reads (matrix : Matrix) (nrow : nat) (is_ : list nat) :
  forall k newmat r,
  triangle_rows matrix nrow is_ k newmat = Ok r ->
  forall i j, In i is_ -> j < nrow -> j <= i -> is_ok (get2 matrix i j) = true.
Proof.
  induction is_ as [|i0 is_ IH]; intros k newmat r H i j Hi Hj Hji; [destruct Hi|].
  cbn [triangle_rows] in H.
  destruct (triangle_row matrix i0 (seq 0 nrow) k newmat) as [[k' newmat']|] eqn:Hrow;
    [|discriminate].
  cbn [mbind result_bind] in H.
  destruct Hi as [<-|Hi].
  - eapply triangle_row_reads; [exact Hrow | apply in_seq; lia | exact Hji].
  - eapply IH; eassumption.
Qed.

Lemma triangle_row_exn (matrix : Matrix) (i : nat) (js : list nat) :
  forall k newmat e,
  triangle_row matrix i js k newmat = Raise e -> e = IndexError.
Proof.
  induction js as [|j0 js IH]; intros k newmat e H; [discriminate|].
  cbn [triangle_row] in H.
  destruct (j0 <=? i); [|eapply IH; exact H].
  unfold get2 in H.
  destruct (matrix !! i) as [row|]; [|simpl in H; congruence].
  destruct (row !! j0) as [x|]; [|simpl in H; congruence].
  cbn [mbind result_bind] in H. unfold setitem in H.
  destruct (k <? length newmat); [|simpl in H; congruence].
  cbn [mbind result_bind] in H. eapply IH. exact H.
Qed.

Lemma triangle_rows_exn (matrix : Matrix) (nrow : nat) (is_ : list nat) :
  forall k newmat e,
  triangle_rows matrix nrow is_ k newmat = Raise e -> e = IndexError.
Proof.
  induction is_ as [|i0 is_ IH]; intros k newmat e H; [discriminate|].
  cbn [triangle_rows] in H.
  destruct (triangle_row matrix i0 (seq 0 nrow) k newmat) as [[k' newmat']|e'] eqn:Hrow.
  - cbn [mbind result_bind] in H. eapply IH. exact H.
  - simpl in H. injection H as <-. eapply triangle_row_exn. exact Hrow.
Qed.

(** X25: [_get_TriangleMat] on a matrix that is not square.  For a
    matrix of [r] rows and [c] columns with [r <= c] it returns the
    lower triangle of the first [r] columns, [r (r + 1) / 2] values (the
    message about the shape changes nothing); with [c < r] the element
    [(c, c)] does not exist and the function raises IndexError. *)
Theorem get_TriangleMat_rectangular (r c : nat) (M : Matrix) :
  length M = r -> Forall (fun row => length row = c) M ->
  (r <= c ->
   _get_TriangleMat M = Ok (RealArr (lower_triangle 0 M)) /\
   2 * length (lower_triangle 0 M) = r * (r + 1)) /\
  (c < r -> _get_TriangleMat M = Raise IndexError).
Proof.
  intros Hr Hrows. split.
  - intros Hrc.
    pose proof (lower_triangle_wide_length M c 0 Hrows ltac:(lia)) as HL.
    rewrite Hr in HL.
    split; [|lia].
    unfold _get_TriangleMat.
    pose proof (triangle_rows_wide c M Hrows ltac:(lia) M 0 0) as Hloop.
    rewrite Hr in *.
    set (newsize := r * (r + 1) / 2) in *.
    assert (Hsize : newsize = length (lower_triangle 0 M)).
    { unfold newsize. symmetry. apply Nat.div_unique_exact; lia. }
    rewrite Hloop by (rewrite ?drop_0, ?length_replicate; try reflexivity; lia).
    simpl. f_equal. f_equal.
    rewrite drop_ge by (rewrite length_replicate; lia).
    apply app_nil_r.
  - intros Hcr. unfold _get_TriangleMat. rewrite Hr.
    destruct (triangle_rows M r (seq 0 r) 0 (replicate (r * (r + 1) / 2) 0%float))
      as [[k newmat]|e] eqn:Hloop.
    + exfalso.
      pose proof (triangle_rows_reads _ _ _ _ _ _ Hloop c c
                    ltac:(apply in_seq; lia) Hcr ltac:(lia)) as Hread.
      unfold get2 in Hread.
      destruct (lookup_lt_is_Some_2 M c ltac:(lia)) as [row Hrow].
      rewrite Hrow in Hread.
      assert (Hrowc : length row = c).
      { rewrite Forall_forall in Hrows. apply Hrows.
        eapply list_elem_of_lookup_2. exact Hrow. }
      rewrite (proj2 (lookup_ge_None row c)) in Hread by lia. discriminate.
    + simpl. f_equal. eapply triangle_rows_exn. exact Hloop.
Qed.

End RectangleFacts.

Lemma get_TriangleMat_rectangular_witness :
  _get_TriangleMat wide_matrix = Ok (RealArr [1; 4; 5]%float) /\
  _get_TriangleMat tall_matrix = Raise IndexError.
Proof.
  split.
  - apply (proj1 (proj1 (get_TriangleMat_rectangular 2 3 wide_matrix eq_refl
                           ltac:(repeat constructor)) ltac:(lia))).
  - apply (proj2 (get_TriangleMat_rectangular 3 2 tall_matrix eq_refl
                    ltac:(repeat constructor))). lia.
Defined.
